(** * TalentScout hiring assistant: validators, reply parser, wizard step
      and persistence gateway

    A shallow embedding of [src/app.py] and [src/supabase_client.py].

    - Python [str] values are sequences of Unicode code points
      ([PyStr.str]); the string methods the program calls ([strip],
      [startswith], [split], ...) are written out on that representation.
    - Python values that travel through dictionaries and JSON are [pyval];
      a [dict] is an association list in insertion order.
    - Code that raises, catches and mutates runs in the monad [M]: a state
      ([mstate]) that survives a raised exception, as in Python.
    - What lives outside the repository (the [validators] and [supabase]
      packages, the text-generation service, the file system, the clock)
      is a parameter of the code that calls it. *)

From Stdlib Require Import Ascii String DecimalString DecimalNat.
From Stdlib Require Import NArith ZArith Bool Arith Lia List.
From Equations Require Import Equations.
Import ListNotations.

#[local] Open Scope list_scope.

(* ===================================================================== *)
(** ** Python strings *)
(* ===================================================================== *)

Module PyStr.

(** A character is a Unicode code point. *)
Definition char := N.
Definition str := list char.

(** An ASCII literal of the source. *)
Definition lit (s : string) : str := map N_of_ascii (list_ascii_of_string s).

Definition eqb (a b : str) : bool :=
  if list_eq_dec N.eq_dec a b then true else false.

(** [str.isspace] for one character: the code points CPython's
    [Py_UNICODE_ISSPACE] accepts. *)
Definition isspace (c : char) : bool :=
  ((0x09 <=? c) && (c <=? 0x0D) || (0x1C <=? c) && (c <=? 0x20)
   || (c =? 0x85) || (c =? 0xA0) || (c =? 0x1680)
   || (0x2000 <=? c) && (c <=? 0x200A)
   || (c =? 0x2028) || (c =? 0x2029) || (c =? 0x202F) || (c =? 0x205F)
   || (c =? 0x3000))%N.

(** The regular-expression class [[a-zA-Z0-9]]. *)
Definition isalnum_ascii (c : char) : bool :=
  ((0x61 <=? c) && (c <=? 0x7A) || (0x41 <=? c) && (c <=? 0x5A)
   || (0x30 <=? c) && (c <=? 0x39))%N.

Fixpoint dropwhile (p : char -> bool) (s : str) : str :=
  match s with
  | [] => []
  | c :: s' => if p c then dropwhile p s' else s
  end.

Fixpoint takewhile (p : char -> bool) (s : str) : str :=
  match s with
  | [] => []
  | c :: s' => if p c then c :: takewhile p s' else []
  end.

Definition lstrip (s : str) : str := dropwhile isspace s.
Definition rstrip (s : str) : str := rev (dropwhile isspace (rev s)).
Definition strip (s : str) : str := rstrip (lstrip s).

(** [removeprefix p s = Some r] when [s = p ++ r]. *)
Fixpoint removeprefix (p s : str) : option str :=
  match p, s with
  | [], _ => Some s
  | _ :: _, [] => None
  | a :: p', b :: s' => if (a =? b)%N then removeprefix p' s' else None
  end.

Definition startswith (s p : str) : bool :=
  match removeprefix p s with Some _ => true | None => false end.

Definition endswith (s p : str) : bool := startswith (rev s) (rev p).

(** [s.partition(sep)] when [sep] occurs in [s]: the text before the first
    occurrence and the text after it. *)
Fixpoint partition (sep s : str) {struct s} : option (str * str) :=
  match removeprefix sep s with
  | Some rest => Some ([], rest)
  | None =>
      match s with
      | [] => None
      | c :: s' =>
          match partition sep s' with
          | Some (a, b) => Some (c :: a, b)
          | None => None
          end
      end
  end.

Lemma removeprefix_app p s r : removeprefix p s = Some r <-> s = p ++ r.
Proof.
  revert s; induction p as [|a p IH]; intros s; simpl.
  - split; intros H; [now inversion H | now subst].
  - destruct s as [|b s]; [split; discriminate|].
    destruct (N.eqb_spec a b) as [->|Hne].
    + rewrite IH. split; intros H; [now subst | now inversion H].
    + split; [discriminate | intros H; inversion H; congruence].
Qed.

Lemma removeprefix_length p s r :
  removeprefix p s = Some r -> length s = length p + length r.
Proof.
  intros H; apply removeprefix_app in H; subst; apply length_app.
Qed.

Lemma partition_app sep s a b :
  partition sep s = Some (a, b) -> s = a ++ sep ++ b.
Proof.
  revert a b; induction s as [|c s IH]; intros a b; simpl.
  - destruct (removeprefix sep []) eqn:E; [|discriminate].
    intros H; inversion H; subst. now apply removeprefix_app in E.
  - destruct (removeprefix sep (c :: s)) eqn:E.
    + intros H; inversion H; subst. now apply removeprefix_app in E.
    + destruct (partition sep s) as [[a' b']|]; [|discriminate].
      intros H; inversion H; subst. simpl. f_equal. now apply IH.
Qed.

Lemma partition_shorter sep s a b :
  sep <> [] -> partition sep s = Some (a, b) -> length b < length s.
Proof.
  intros Hsep H; apply partition_app in H; subst.
  rewrite !length_app. destruct sep; [congruence | simpl; lia].
Qed.

(** Case analysis on a value that keeps the equation. *)
Definition inspect {A : Type} (x : A) : {y : A | x = y} := exist _ x eq_refl.

(** [s.split(sep)] for a non-empty separator: cut at each occurrence, found
    left to right without overlap.  (Python raises [ValueError] on an empty
    separator; every call of the program passes a literal, and the model
    returns [[s]] there.) *)
Equations? split (sep s : str) : list str by wf (length s) lt :=
  split [] s := [s];
  split (c :: sep') s with inspect (partition (c :: sep') s) := {
    | exist _ None _ := [s];
    | exist _ (Some (a, b)) E := a :: split (c :: sep') b }.
Proof. eapply partition_shorter; [|exact E]. discriminate. Qed.

(** [s.split(sep, 1)]: at most one cut. *)
Definition split1 (sep s : str) : list str :=
  match partition sep s with
  | Some (a, b) => [a; b]
  | None => [s]
  end.

(** [str(n)] for a non-negative integer. *)
Definition of_nat (n : nat) : str := lit (NilEmpty.string_of_uint (Nat.to_uint n)).

End PyStr.

Import PyStr.

(* ===================================================================== *)
(** ** Validators ([src/app.py], [validate_loom_url]) *)
(* ===================================================================== *)

(** The four Loom patterns of [validate_loom_url].  Each regular expression
    is a literal text (with [\.] for the dot) followed by [[a-zA-Z0-9]+];
    the list holds the literal texts, in the order of the source. *)
Definition loom_patterns : list str :=
  [ lit "https://www.loom.com/share/";
    lit "https://loom.com/share/";
    lit "https://www.loom.com/embed/";
    lit "https://loom.com/embed/" ].

(** [re.match(prefix + "[a-zA-Z0-9]+", s)] finds a match: [re.match] is
    anchored at the start of [s] only, so it succeeds as soon as [s] begins
    with the literal text and one character of the class follows. *)
Definition re_match_id (prefix s : str) : bool :=
  match removeprefix prefix s with
  | Some (c :: _) => isalnum_ascii c
  | _ => false
  end.

Section Validators.

(** Truth value of [validators.url(url)], a function of the [validators]
    package: [True], or a falsy [ValidationError]. *)
Variable validators_url : str -> bool.

Definition validate_loom_url (url : str) : bool :=
  match url with
  | [] => false                                   (* if not url *)
  | _ :: _ =>
      if negb (validators_url url) then false
      else existsb (fun pattern => re_match_id pattern (strip url))
                   loom_patterns
  end.

End Validators.

(** A simple absolute-URL check, used where an example needs a concrete
    function in the place of [validators.url]: the scheme [http://] or
    [https://], then a non-empty rest without whitespace. *)
Definition sample_url_check (s : str) : bool :=
  let rest_ok r :=
    match r with
    | [] => false
    | _ :: _ => forallb (fun c => negb (isspace c)) r
    end in
  match removeprefix (lit "https://") s with
  | Some r => rest_ok r
  | None =>
      match removeprefix (lit "http://") s with
      | Some r => rest_ok r
      | None => false
      end
  end.

(** A string is blank when it holds whitespace only. *)
Definition blank (s : str) : bool := forallb isspace s.

(** [s] begins with one of the whitelisted texts and an identifier of at
    least one alphanumeric character; anything may follow. *)
Definition loom_shaped (s : str) : Prop :=
  exists pattern ident rest,
    In pattern loom_patterns /\ s = pattern ++ ident ++ rest /\
    ident <> [] /\ Forall (fun c => isalnum_ascii c = true) ident.


(* ===================================================================== *)
(** ** Reply parser ([src/app.py], [generate_questions], lines 593-642) *)
(* ===================================================================== *)

(** The marker the reply is split on. *)
Definition QUESTION_MARKER : str := lit "**Question ".

Definition NEWLINE : char := 0x0A%N.
Definition SPACE : char := 0x20%N.
Definition STAR : char := 0x2A%N.
(** U+1F3A5, the camera of a hint line; U+1F4F9, the video camera of the
    duration line. *)
Definition MOVIE_CAMERA : char := 0x1F3A5%N.
Definition VIDEO_CAMERA : char := 0x1F4F9%N.

Definition not_star (c : char) : bool := negb (c =? STAR)%N.

(** [re.match(emoji + r' \*([^\*]+?)\*', line)], with [group(1)] when it
    matches: the line begins with the emoji, a space and a star; the group
    is the run of characters other than a star that follows, which must be
    non-empty and closed by a star (the lazy [+?] stops at the first star,
    and no character of the group can be one). *)
Definition match_italic (emoji : char) (line : str) : option str :=
  match removeprefix [emoji; SPACE; STAR] line with
  | None => None
  | Some rest =>
      match takewhile not_star rest, dropwhile not_star rest with
      | (_ :: _) as group1, _ :: _ => Some group1
      | _, _ => None
      end
  end.

(** The variables of the per-block loop. *)
Record block_vars := {
  main_question : str;
  hints_list : list str;
  recommended_time : str;
  question_found : bool
}.

Definition block_init : block_vars :=
  {| main_question := []; hints_list := []; recommended_time := [];
     question_found := false |}.

(** [f'**Question {question_num}:'] *)
Definition question_header (question_num : nat) : str :=
  lit "**Question " ++ of_nat question_num ++ lit ":".

(** The text after the colon of the header line, without its bold marks. *)
Definition clean_question (part : str) : str :=
  let m := strip part in
  let m := if startswith m (lit "**") then strip (skipn 2 m) else m in
  if endswith m (lit "**") then strip (firstn (length m - 2) m) else m.

(** One turn of [for line in lines]. *)
Definition parse_line (question_num : nat) (v : block_vars) (line : str)
  : block_vars :=
  let line := strip line in
  match line with
  | [] => v                                            (* continue *)
  | _ :: _ =>
      if startswith line (question_header question_num) then
        let parts := split1 (lit ":") line in
        {| main_question :=
             match parts with
             | _ :: part1 :: _ => clean_question part1   (* len(parts) > 1 *)
             | _ => main_question v
             end;
           hints_list := hints_list v;
           recommended_time := recommended_time v;
           question_found := true |}
      else if question_found v then
        match match_italic MOVIE_CAMERA line with
        | Some g =>
            {| main_question := main_question v;
               hints_list := hints_list v ++ [strip g];
               recommended_time := recommended_time v;
               question_found := question_found v |}
        | None =>
            match match_italic VIDEO_CAMERA line with
            | Some g =>
                {| main_question := main_question v;
                   hints_list := hints_list v;
                   recommended_time := strip g;
                   question_found := question_found v |}
            | None => v
            end
        end
      else v
  end.

(** [question_blocks = questions_text.split('**Question ')[1:]] *)
Definition question_blocks (questions_text : str) : list str :=
  tl (split QUESTION_MARKER questions_text).

(** ["**Question " + question_blocks[i].strip()] *)
Definition full_question_block (block : str) : str :=
  QUESTION_MARKER ++ strip block.

Definition block_lines (block : str) : list str :=
  split [NEWLINE] (full_question_block block).

(** A parsed question: its positional number and what the loop over the
    lines of its block leaves in the loop variables. *)
Record question := {
  q_num : nat;
  q_full_text : str;
  q_vars : block_vars
}.

Definition parse_block (question_num : nat) (block : str) : question :=
  {| q_num := question_num;
     q_full_text := full_question_block block;
     q_vars := fold_left (parse_line question_num) (block_lines block)
                         block_init |}.

(** [for i in range(num_questions): question_num = i + 1; ...] *)
Definition parse_reply (questions_text : str) : list question :=
  let blocks := question_blocks questions_text in
  map (fun i => parse_block (i + 1) (nth i blocks [])) (seq 0 (length blocks)).

(** A line of the block is the header line of question [question_num]. *)
Definition is_header_line (question_num : nat) (line : str) : bool :=
  startswith (strip line) (question_header question_num).

(* ===================================================================== *)
(** ** Python values, dictionaries, exceptions *)
(* ===================================================================== *)

#[local] Set Warnings "-register-all".

(** The values that travel through the candidate record, the session and
    JSON.  A float is kept as a decimal [mantissa * 10 ^ exponent]: the
    program only passes floats along. *)
Inductive pyval :=
| PNone
| PBool (b : bool)
| PInt (z : Z)
| PFloat (mantissa exponent : Z)
| PStr (s : str)
| PList (l : list pyval)
| PDict (d : list (str * pyval)).

(** A Python [dict] with string keys, in insertion order. *)
Definition dict := list (str * pyval).

Definition keys (d : dict) : list str := map fst d.

Fixpoint lookup (d : dict) (k : str) : option pyval :=
  match d with
  | [] => None
  | (k', v) :: d' => if PyStr.eqb k' k then Some v else lookup d' k
  end.

(** [k in d] *)
Definition contains (d : dict) (k : str) : bool :=
  match lookup d k with Some _ => true | None => false end.

(** [d.get(k, default)] *)
Definition get_default (d : dict) (k : str) (default : pyval) : pyval :=
  match lookup d k with Some v => v | None => default end.

(** [d.get(k)] *)
Definition get (d : dict) (k : str) : pyval := get_default d k PNone.

(** [d[k] = v]: the value of an existing key is replaced where it stands, a
    new key goes to the end. *)
Fixpoint setitem (d : dict) (k : str) (v : pyval) : dict :=
  match d with
  | [] => [(k, v)]
  | (k', v') :: d' =>
      if PyStr.eqb k' k then (k', v) :: d' else (k', v') :: setitem d' k v
  end.

(** [del d[k]] for a key of [d]: the key is gone afterwards. *)
Definition delitem (d : dict) (k : str) : dict :=
  filter (fun kv => negb (PyStr.eqb (fst kv) k)) d.

(** [d.update(other)] *)
Definition update (d other : dict) : dict :=
  fold_left (fun acc kv => setitem acc (fst kv) (snd kv)) other d.

(** Truth value of a Python value ([if v:]). *)
Definition truthy (v : pyval) : bool :=
  match v with
  | PNone => false
  | PBool b => b
  | PInt z => negb (z =? 0)%Z
  | PFloat m _ => negb (m =? 0)%Z
  | PStr s => match s with [] => false | _ => true end
  | PList l => match l with [] => false | _ => true end
  | PDict d => match d with [] => false | _ => true end
  end.

(** An exception (every one here is an [Exception]): its class and
    [str(e)]. *)
Record exn := { exn_class : string; exn_str : str }.

Inductive result (A : Type) :=
| Ok (a : A)
| Raise (e : exn).
Arguments Ok {A} a.
Arguments Raise {A} e.

(* ===================================================================== *)
(** ** Program state and the monad of the program *)
(* ===================================================================== *)

(** A reference to a dictionary object.  The candidate record is one object,
    [st.session_state.candidate_data]; the persistence gateway receives the
    reference, not a copy. *)
Definition ref := nat.

(** What [data/candidates.json] holds: nothing (no such file), a JSON
    document, or text that [json.load] rejects with the given exception. *)
Inductive file :=
| NoFile
| JsonFile (v : pyval)
| BadFile (decode_error : exn).

(** A piece of an f-string: literal text or a formatted value. *)
Inductive fpart :=
| Text (s : str)
| Value (v : pyval).

(** The feedback calls of Streamlit. *)
Inductive ui_event :=
| StError (msg : list fpart)
| StWarning (msg : list fpart)
| StSuccess (msg : list fpart).

Record mstate := {
  heap : ref -> dict;               (* the dictionary objects *)
  remote_requests : list dict;      (* rows handed to insert(...).execute() *)
  candidates_file : file;           (* data/candidates.json *)
  ticks : nat;                      (* calls of datetime.now() so far *)
  ui : list ui_event;               (* feedback shown, oldest first *)
  step : nat;                       (* st.session_state.step *)
  generated_questions : option pyval;  (* st.session_state.generated_questions *)
  video_responses : option dict     (* st.session_state.video_responses *)
}.

Definition set_heap (h : ref -> dict) (s : mstate) : mstate :=
  {| heap := h; remote_requests := remote_requests s;
     candidates_file := candidates_file s; ticks := ticks s; ui := ui s;
     step := step s; generated_questions := generated_questions s;
     video_responses := video_responses s |}.

Definition set_remote_requests (r : list dict) (s : mstate) : mstate :=
  {| heap := heap s; remote_requests := r;
     candidates_file := candidates_file s; ticks := ticks s; ui := ui s;
     step := step s; generated_questions := generated_questions s;
     video_responses := video_responses s |}.

Definition set_candidates_file (f : file) (s : mstate) : mstate :=
  {| heap := heap s; remote_requests := remote_requests s;
     candidates_file := f; ticks := ticks s; ui := ui s;
     step := step s; generated_questions := generated_questions s;
     video_responses := video_responses s |}.

Definition set_ticks (n : nat) (s : mstate) : mstate :=
  {| heap := heap s; remote_requests := remote_requests s;
     candidates_file := candidates_file s; ticks := n; ui := ui s;
     step := step s; generated_questions := generated_questions s;
     video_responses := video_responses s |}.

Definition set_ui (u : list ui_event) (s : mstate) : mstate :=
  {| heap := heap s; remote_requests := remote_requests s;
     candidates_file := candidates_file s; ticks := ticks s; ui := u;
     step := step s; generated_questions := generated_questions s;
     video_responses := video_responses s |}.

Definition set_step (n : nat) (s : mstate) : mstate :=
  {| heap := heap s; remote_requests := remote_requests s;
     candidates_file := candidates_file s; ticks := ticks s; ui := ui s;
     step := n; generated_questions := generated_questions s;
     video_responses := video_responses s |}.

Definition set_generated_questions (g : option pyval) (s : mstate) : mstate :=
  {| heap := heap s; remote_requests := remote_requests s;
     candidates_file := candidates_file s; ticks := ticks s; ui := ui s;
     step := step s; generated_questions := g;
     video_responses := video_responses s |}.

Definition set_video_responses (v : option dict) (s : mstate) : mstate :=
  {| heap := heap s; remote_requests := remote_requests s;
     candidates_file := candidates_file s; ticks := ticks s; ui := ui s;
     step := step s; generated_questions := generated_questions s;
     video_responses := v |}.

(** A computation returns a value or raises, and leaves a state either way:
    what was written before an exception stays written. *)
Definition M (A : Type) : Type := mstate -> result A * mstate.

Definition ret {A} (a : A) : M A := fun s => (Ok a, s).

Definition bind {A B} (m : M A) (k : A -> M B) : M B :=
  fun s =>
    match m s with
    | (Ok a, s') => k a s'
    | (Raise e, s') => (Raise e, s')
    end.

Definition raise {A} (e : exn) : M A := fun s => (Raise e, s).

(** [try: body / except Exception as e: handler e] *)
Definition try_except {A} (body : M A) (handler : exn -> M A) : M A :=
  fun s =>
    match body s with
    | (Ok a, s') => (Ok a, s')
    | (Raise e, s') => handler e s'
    end.

Definition lift {A} (r : result A) : M A := fun s => (r, s).
Definition gets {A} (f : mstate -> A) : M A := fun s => (Ok (f s), s).
Definition modify (f : mstate -> mstate) : M unit := fun s => (Ok tt, f s).

Declare Scope py_scope.
Delimit Scope py_scope with py.
Notation "x <- m ;; k" := (bind m (fun x => k))
  (at level 61, m at next level, right associativity) : py_scope.
Notation "m ;; k" := (bind m (fun _ => k))
  (at level 61, right associativity) : py_scope.
#[local] Open Scope py_scope.

(** [for x in l: body x] *)
Fixpoint for_each {A} (l : list A) (body : A -> M unit) : M unit :=
  match l with
  | [] => ret tt
  | x :: l' => body x ;; for_each l' body
  end.

Definition mkexn (class : string) (msg : string) : exn :=
  {| exn_class := class; exn_str := lit msg |}.

Definition type_name (v : pyval) : string :=
  match v with
  | PNone => "NoneType"
  | PBool _ => "bool"
  | PInt _ => "int"
  | PFloat _ _ => "float"
  | PStr _ => "str"
  | PList _ => "list"
  | PDict _ => "dict"
  end.

Definition attribute_error (v : pyval) (attr : string) : exn :=
  mkexn "AttributeError"
        ("'" ++ type_name v ++ "' object has no attribute '" ++ attr ++ "'").

(** Operations on a dictionary object, through its reference. *)
Definition load (r : ref) : M dict := gets (fun s => heap s r).

Definition store (r : ref) (d : dict) : M unit :=
  modify (fun s => set_heap (fun r' => if Nat.eqb r' r then d else heap s r') s).

Definition obj_setitem (r : ref) (k : str) (v : pyval) : M unit :=
  d <- load r ;; store r (setitem d k v).

Definition obj_update (r : ref) (other : dict) : M unit :=
  d <- load r ;; store r (update d other).

Definition obj_delitem (r : ref) (k : str) : M unit :=
  d <- load r ;; store r (delitem d k).

(** [v.get(k, default)] on any value: a method of dictionaries only. *)
Definition method_get (v : pyval) (k : str) (default : pyval) : M pyval :=
  match v with
  | PDict d => ret (get_default d k default)
  | _ => raise (attribute_error v "get")
  end.

(** [d[k]] *)
Definition getitem (d : dict) (k : str) : M pyval :=
  match lookup d k with
  | Some v => ret v
  | None => raise {| exn_class := "KeyError"; exn_str := k |}
  end.

(** [candidates.append(x)] followed by reading [candidates]. *)
Definition list_append (candidates x : pyval) : M pyval :=
  match candidates with
  | PList l => ret (PList (l ++ [x]))
  | _ => raise (attribute_error candidates "append")
  end.

(** [data[0]] *)
Definition first_item (data : list pyval) : M pyval :=
  match data with
  | x :: _ => ret x
  | [] => raise (mkexn "IndexError" "list index out of range")
  end.

Definition st_error (msg : list fpart) : M unit :=
  modify (fun s => set_ui (ui s ++ [StError msg]) s).
Definition st_warning (msg : list fpart) : M unit :=
  modify (fun s => set_ui (ui s ++ [StWarning msg]) s).
Definition st_success (msg : list fpart) : M unit :=
  modify (fun s => set_ui (ui s ++ [StSuccess msg]) s).

(** A field of [st.session_state] that was set. *)
Definition session {A} (field : mstate -> option A) (name : string) : M A :=
  o <- gets field ;;
  match o with
  | Some a => ret a
  | None => raise (mkexn "AttributeError"
                         ("st.session_state has no attribute '" ++ name ++ "'"))
  end.

(* ===================================================================== *)
(** ** Persistence gateway ([src/supabase_client.py]) *)
(* ===================================================================== *)

(** The client object of the [supabase] package, as far as the program uses
    it: [table("candidates").insert(row).execute()] returns [result.data]
    or raises. *)
Record Client := { execute_insert : dict -> result (list pyval) }.

(** [class SupabaseClient]: its one attribute. *)
Record SupabaseClient := { supabase : Client }.

(** How writing [data/candidates.json] goes: it succeeds, [open(..., 'w')]
    raises (the file is untouched), or [json.dump] raises after the file was
    truncated (the file is left with text that [json.load] rejects). *)
Inductive write_outcome :=
| WriteOk
| OpenFails (e : exn)
| DumpFails (e : exn) (decode_error : exn).

Section Program.

(** The environment of one run of the script. *)
Variable getenv : str -> option str.                  (* os.getenv *)
Variable create_client : option str -> option str -> result Client.
Variable clock : nat -> str.         (* the n-th datetime.now().isoformat() *)
Variable read_fault : option exn.    (* open(..., 'r') raises *)
Variable write_fault : write_outcome.
Variable validators_url : str -> bool.

(** [SupabaseClient.__init__] *)
Definition SupabaseClient_init : result SupabaseClient :=
  let url := getenv (lit "SUPABASE_URL") in
  let key := getenv (lit "SUPABASE_KEY") in
  match create_client url key with
  | Ok client => Ok {| supabase := client |}
  | Raise e => Raise e
  end.

(** The module-level statement of [app.py], lines 141-142:
    [if 'supabase_client' not in st.session_state:
       st.session_state.supabase_client = SupabaseClient()].
    It runs before [main()], outside any [try]. *)
Definition init_supabase_client (current : option SupabaseClient)
  : result SupabaseClient :=
  match current with
  | Some c => Ok c
  | None => SupabaseClient_init
  end.

(** [datetime.now().isoformat()] *)
Definition now : M str :=
  fun s => (Ok (clock (ticks s)), set_ticks (S (ticks s)) s).

(** [os.path.exists("data/candidates.json")] *)
Definition path_exists : M bool :=
  gets (fun s => match candidates_file s with NoFile => false | _ => true end).

(** [with open("data/candidates.json", 'r') as f: json.load(f)] *)
Definition read_candidates : M pyval :=
  match read_fault with
  | Some e => raise e
  | None =>
      f <- gets candidates_file ;;
      match f with
      | JsonFile v => ret v
      | BadFile e => raise e
      | NoFile => raise (mkexn "FileNotFoundError" "data/candidates.json")
      end
  end.

(** [with open("data/candidates.json", 'w') as f:
      json.dump(candidates, f, indent=2)] *)
Definition write_candidates (candidates : pyval) : M unit :=
  match write_fault with
  | WriteOk => modify (set_candidates_file (JsonFile candidates))
  | OpenFails e => raise e
  | DumpFails e decode_error =>
      modify (set_candidates_file (BadFile decode_error)) ;; raise e
  end.

(** The dictionary literal [supabase_data] of [save_candidate]. *)
Definition supabase_data (candidate_data : dict) : dict :=
  [ (lit "name", get candidate_data (lit "name"));
    (lit "email", get candidate_data (lit "email"));
    (lit "phone", get candidate_data (lit "phone"));
    (lit "experience", get candidate_data (lit "experience"));
    (lit "position", get candidate_data (lit "position"));
    (lit "location", get candidate_data (lit "location"));
    (lit "programming_languages",
       get_default candidate_data (lit "programming_languages") (PList []));
    (lit "frameworks", get_default candidate_data (lit "frameworks") (PList []));
    (lit "databases", get_default candidate_data (lit "databases") (PList []));
    (lit "tools", get_default candidate_data (lit "tools") (PList []));
    (lit "cloud_platforms",
       get_default candidate_data (lit "cloud_platforms") (PList []));
    (lit "other_skills", get candidate_data (lit "other_skills"));
    (lit "generated_questions", get candidate_data (lit "generated_questions"));
    (lit "loom_video_url", get candidate_data (lit "loom_video_url"));
    (lit "status", PStr (lit "submitted")) ].

(** [self.supabase.table("candidates").insert(row).execute().data]: the
    request is recorded, then the client answers. *)
Definition insert_candidate (self : SupabaseClient) (row : dict)
  : M (list pyval) :=
  modify (fun s => set_remote_requests (remote_requests s ++ [row]) s) ;;
  lift (execute_insert (supabase self) row).

(** [SupabaseClient.save_to_json].  [candidates.append(candidate_data)]
    appends the object itself; [json.dump] then writes what the object
    holds, which is what the model appends. *)
Definition save_to_json (candidate_data : ref) (error_msg : str) : M dict :=
  try_except
    (there <- path_exists ;;
     candidates <- (if there then read_candidates else ret (PList [])) ;;
     t <- now ;;
     obj_setitem candidate_data (lit "timestamp") (PStr t) ;;
     obj_setitem candidate_data (lit "supabase_error") (PStr error_msg) ;;
     record <- load candidate_data ;;
     candidates <- list_append candidates (PDict record) ;;
     write_candidates candidates ;;
     ret [ (lit "success", PBool true);
           (lit "fallback", PStr (lit "json"));
           (lit "error", PStr error_msg) ])
    (fun json_error =>
       ret [ (lit "success", PBool false);
             (lit "error", PStr (exn_str json_error)) ]).

(** [SupabaseClient.save_candidate] *)
Definition save_candidate (self : SupabaseClient) (candidate_data : ref)
  : M dict :=
  try_except
    (record <- load candidate_data ;;
     data <- insert_candidate self (supabase_data record) ;;
     row <- first_item data ;;
     ret [ (lit "success", PBool true); (lit "data", row) ])
    (fun e => save_to_json candidate_data (exn_str e)).

(* ===================================================================== *)
(** ** Text generation ([src/app.py], [get_ai_response]) *)
(* ===================================================================== *)

(** A response of [requests.post]: the program only calls [.json()] on it,
    which returns the decoded body or raises. *)
Record http_response := { response_json : result pyval }.

(** [requests.post(url, json=payload, timeout=t)]: a response, or an
    exception (connection refused, timeout, ...). *)
Variable requests_post : str -> dict -> Z -> result http_response.

Definition OLLAMA_base_url : str := lit "http://localhost:11434".
Definition OLLAMA_model : str := lit "llama3.2:3b".

Definition NO_RESPONSE_TEXT : str := lit "Sorry, I couldn't process that.".

(** [f"Connection error: {str(e)}. Make sure Ollama is running!"] *)
Definition connection_error_text (e : exn) : str :=
  lit "Connection error: " ++ exn_str e ++ lit ". Make sure Ollama is running!".

(** The dictionary literal [payload]. *)
Definition ai_payload (prompt system_msg : str) : dict :=
  [ (lit "model", PStr OLLAMA_model);
    (lit "prompt", PStr prompt);
    (lit "system", PStr system_msg);
    (lit "stream", PBool false);
    (lit "options", PDict [ (lit "temperature", PFloat 7 (-1));
                            (lit "max_tokens", PInt 300) ]) ].

Definition get_ai_response (prompt system_msg : str) : M pyval :=
  try_except
    (response <- lift (requests_post (OLLAMA_base_url ++ lit "/api/generate")
                                     (ai_payload prompt system_msg) 30) ;;
     body <- lift (response_json response) ;;
     method_get body (lit "response") (PStr NO_RESPONSE_TEXT))
    (fun e => ret (PStr (connection_error_text e))).

(** The two f-string templates of [generate_enhanced_questions] (the prompt
    and the system prompt), as functions of the candidate record; no
    property below reads their text. *)
Variable build_prompts : dict -> str * str.

Definition generate_enhanced_questions (candidate_data : ref) : M pyval :=
  candidate <- load candidate_data ;;
  let (prompt, system_prompt) := build_prompts candidate in
  get_ai_response prompt system_prompt.

(* ===================================================================== *)
(** ** The Questions screen ([src/app.py], [generate_questions]) *)
(* ===================================================================== *)

Definition WARNING_SIGN : str := [0x26A0; 0xFE0F]%N.
Definition CHECK_MARK : str := [0x2705]%N.
Definition CROSS_MARK : str := [0x274C]%N.

(** [save_candidate_hybrid] *)
Definition save_candidate_hybrid (self : SupabaseClient) (data : ref)
  : M bool :=
  result <- save_candidate self data ;;
  success <- getitem result (lit "success") ;;
  if truthy success then
    (if contains result (lit "fallback") then
       err <- getitem result (lit "error") ;;
       st_warning [ Text (WARNING_SIGN ++ lit " Saved locally (Supabase error: ");
                    Value err; Text (lit ")") ]
     else
       st_success [ Text (CHECK_MARK ++ lit " Data saved to cloud successfully!") ]) ;;
    ret true
  else
    err <- getitem result (lit "error") ;;
    st_error [ Text (CROSS_MARK ++ lit " Error saving data: "); Value err ] ;;
    ret false.

(** [f"question_{question_num}"] *)
Definition question_key (question_num : nat) : str :=
  lit "question_" ++ of_nat question_num.

Definition vr_delete_if_present (key : str) : M unit :=
  vr <- session video_responses "video_responses" ;;
  if contains vr key
  then modify (set_video_responses (Some (delitem vr key)))
  else ret tt.

(** The body of [for i in range(num_questions)]: the block is parsed, then
    the text typed into the input of the question is validated and the
    response stored or removed.  [loom_link] is what [st.text_input] returns
    for the key [loom_q{question_num}]. *)
Definition question_turn (blocks : list str) (loom_inputs : nat -> str)
    (i : nat) : M unit :=
  let question_num := i + 1 in
  let q := parse_block question_num (nth i blocks []) in
  let key := question_key question_num in
  let loom_link := loom_inputs question_num in
  match loom_link with
  | _ :: _ =>
      if validate_loom_url validators_url loom_link then
        st_success [ Text (CHECK_MARK ++ lit " Valid Loom link for Question ");
                     Value (PInt (Z.of_nat question_num)) ] ;;
        t <- now ;;
        vr <- session video_responses "video_responses" ;;
        modify (set_video_responses (Some (setitem vr key (PDict
          [ (lit "question", PStr (main_question (q_vars q)));
            (lit "hints", PList (map PStr (hints_list (q_vars q))));
            (lit "recommended_time", PStr (recommended_time (q_vars q)));
            (lit "full_text", PStr (q_full_text q));
            (lit "loom_url", PStr loom_link);
            (lit "timestamp", PStr t) ]))))
      else
        vr_delete_if_present key ;;
        st_error [ Text (CROSS_MARK ++ lit " Invalid Loom URL format for Question ");
                   Value (PInt (Z.of_nat question_num));
                   Text (lit ". Please enter a valid Loom share or embed link.") ]
  | [] => vr_delete_if_present key
  end.

Definition ALL_LINKS_ERROR : list fpart :=
  [ Text (lit "Please provide valid Loom video links for all questions before submitting.") ].

(** [if submitted: ...], lines 708-729.  Line 714 puts the dictionary of
    the session's responses itself under [video_responses]; the record of
    the model gets its value at that moment.  The two agree whenever the
    record is saved, which is right after the field is written; between two
    submissions the field of the program follows the responses of the
    session and the field of the model keeps its value. *)
Definition on_submit (self : SupabaseClient) (candidate_data : ref)
    (num_questions : nat) : M unit :=
  vr <- session video_responses "video_responses" ;;
  if length vr <? num_questions then
    st_error ALL_LINKS_ERROR
  else
    text <- session generated_questions "generated_questions" ;;
    obj_update candidate_data
      [ (lit "video_responses", PDict vr);
        (lit "generated_questions_full_text", text) ] ;;
    record <- load candidate_data ;;
    (if contains record (lit "generated_questions")
     then obj_delitem candidate_data (lit "generated_questions")
     else ret tt) ;;
    saved <- save_candidate_hybrid self candidate_data ;;
    if saved then modify (set_step 4)          (* then st.rerun() *)
    else ret tt.

(** [questions_text.split('**Question ')[1:]] on whatever the session
    holds: a method of strings only. *)
Definition blocks_of (questions_text : pyval) : M (list str) :=
  match questions_text with
  | PStr text => ret (question_blocks text)
  | _ => raise (attribute_error questions_text "split")
  end.

(** [generate_questions], the form of the Questions screen (lines 549-729;
    the Start Over button below the form is not part of it).  [loom_inputs]
    and [submitted] are what the widgets return on this run. *)
Definition generate_questions (self : SupabaseClient) (candidate_data : ref)
    (loom_inputs : nat -> str) (submitted : bool) : M unit :=
  have_questions <- gets generated_questions ;;
  match have_questions with
  | None =>
      text <- generate_enhanced_questions candidate_data ;;
      modify (set_generated_questions (Some text))
  | Some _ => ret tt
  end ;;
  have_responses <- gets video_responses ;;
  match have_responses with
  | None => modify (set_video_responses (Some []))
  | Some _ => ret tt
  end ;;
  questions_text <- session generated_questions "generated_questions" ;;
  blocks <- blocks_of questions_text ;;
  let num_questions := length blocks in
  for_each (seq 0 num_questions) (question_turn blocks loom_inputs) ;;
  if submitted then on_submit self candidate_data num_questions
  else ret tt.

End Program.

(** The four outcomes the gateway's callers tell apart. *)
Definition remote_success (row : pyval) : dict :=
  [ (lit "success", PBool true); (lit "data", row) ].
Definition fallback_success (error_msg : str) : dict :=
  [ (lit "success", PBool true); (lit "fallback", PStr (lit "json"));
    (lit "error", PStr error_msg) ].
Definition not_persisted (error_msg : str) : dict :=
  [ (lit "success", PBool false); (lit "error", PStr error_msg) ].

(** [create_client] of the [supabase] package on missing credentials: it
    raises when the URL or the key is [None] or empty.  Used where an
    example needs a concrete function in the place of the package's. *)
Definition sample_create_client (client : Client) (url key : option str)
  : result Client :=
  match url, key with
  | Some (_ :: _), Some (_ :: _) => Ok client
  | Some (_ :: _), _ => Raise (mkexn "SupabaseException" "supabase_key is required")
  | _, _ => Raise (mkexn "SupabaseException" "supabase_url is required")
  end.

(* ===================================================================== *)
(** ** Vocabulary of the statements *)
(* ===================================================================== *)

(** [sep.join(l)] *)
Fixpoint join (sep : str) (l : list str) : str :=
  match l with
  | [] => []
  | x :: l' =>
      match l' with
      | [] => x
      | _ :: _ => x ++ sep ++ join sep l'
      end
  end.

(** [sep in s] *)
Definition occurs (sep s : str) : bool :=
  match partition sep s with Some _ => true | None => false end.

(** A reply whose second block is labelled 7: the second question is
    numbered 2, and since no line of it starts with the header of question
    2, its text is empty. *)
Definition mislabelled_reply : str :=
  lit "Intro **Question 1: What is a list?**" ++ [NEWLINE]
  ++ lit "**Question 7: What is a tuple?**".

(** A block labelled 7 at position 2, with a hint line and a duration
    line. *)
Definition headerless_block : str :=
  lit "7: What is a tuple?**" ++ [NEWLINE]
  ++ [MOVIE_CAMERA] ++ lit " *Recording Hint 1: Start with an example*"
  ++ [NEWLINE]
  ++ [VIDEO_CAMERA] ++ lit " *Recommended response time: 2-3 minutes*".

(** The entries of the local log that [save_to_json] reads before it
    appends: none when there is no file, the list the file holds when it can
    be read and holds a JSON list; otherwise the append fails. *)
Definition log_entries (read_fault : option exn) (f : file)
  : option (list pyval) :=
  match f with
  | NoFile => Some []
  | JsonFile (PList l) =>
      match read_fault with None => Some l | Some _ => None end
  | _ => None
  end.

(** The local append goes through. *)
Definition log_appendable (read_fault : option exn) (write_fault : write_outcome)
    (f : file) : bool :=
  match log_entries read_fault f, write_fault with
  | Some _, WriteOk => true
  | _, _ => false
  end.

(** The exception that ends the local append, when one does: the one
    [open] or [json.load] raises on the file that is there, the
    [AttributeError] of [append] on a document that is not a list, or the
    one [open] or [json.dump] raises when the log is written. *)
Definition local_failure (read_fault : option exn) (write_fault : write_outcome)
    (f : file) : option exn :=
  let write_error :=
    match write_fault with
    | WriteOk => None
    | OpenFails e => Some e
    | DumpFails e _ => Some e
    end in
  match f with
  | NoFile => write_error
  | BadFile decode_error =>
      match read_fault with
      | Some e => Some e
      | None => Some decode_error
      end
  | JsonFile v =>
      match read_fault with
      | Some e => Some e
      | None =>
          match v with
          | PList _ => write_error
          | _ => Some (attribute_error v "append")
          end
      end
  end.

(** The entry [save_to_json] appends for a record: the record with
    [timestamp] and [supabase_error] set. *)
Definition fallback_entry (record : dict) (timestamp error_msg : str) : dict :=
  setitem (setitem record (lit "timestamp") (PStr timestamp))
          (lit "supabase_error") (PStr error_msg).

(** What the remote insert of a row comes to inside [save_candidate]: the
    first row of [result.data], or the exception that sends the record to
    the fallback ([IndexError] when [result.data] is empty). *)
Definition remote_outcome (self : SupabaseClient) (row : dict) : result pyval :=
  match execute_insert (supabase self) row with
  | Ok (x :: _) => Ok x
  | Ok [] => Raise (mkexn "IndexError" "list index out of range")
  | Raise e => Raise e
  end.

(** Reading the local log raises: the file is there and [open] or
    [json.load] fails on it. *)
Definition log_read_raises (read_fault : option exn) (f : file) : bool :=
  match f with
  | NoFile => false
  | JsonFile _ => match read_fault with Some _ => true | None => false end
  | BadFile _ => true
  end.

(** The fifteen fields of the remote record. *)
Definition REMOTE_FIELDS : list str :=
  map lit [ "name"; "email"; "phone"; "experience"; "position"; "location";
            "programming_languages"; "frameworks"; "databases"; "tools";
            "cloud_platforms"; "other_skills"; "generated_questions";
            "loom_video_url"; "status" ]%string.

(** A client whose every insert raises the given exception, and one that
    stores the row and returns it. *)
Definition failing_client (e : exn) : SupabaseClient :=
  {| supabase := {| execute_insert := fun _ => Raise e |} |}.
Definition accepting_client : SupabaseClient :=
  {| supabase := {| execute_insert := fun row => Ok [PDict row] |} |}.

(** A state with one fresh session at the given step: empty objects, no
    remote request, no local log, nothing shown. *)
Definition fresh_state (at_step : nat) : mstate :=
  {| heap := fun _ => []; remote_requests := []; candidates_file := NoFile;
     ticks := 0; ui := []; step := at_step;
     generated_questions := None; video_responses := None |}.

(** A candidate record as the first two screens can leave it (the
    end-to-end scenario of the spec). *)
Definition ada_record : dict :=
  [ (lit "name", PStr (lit "Ada Lovelace"));
    (lit "email", PStr (lit "ada@example.com"));
    (lit "position", PStr (lit "Backend Engineer"));
    (lit "experience", PInt 5);
    (lit "programming_languages", PList [PStr (lit "Python")]) ].

Definition ada_state (at_step : nat) : mstate :=
  set_heap (fun _ => ada_record) (fresh_state at_step).

Definition sample_clock (n : nat) : str :=
  lit "2024-01-01T00:00:0" ++ of_nat n.

(** The keys of the responses are keys of questions 1..n, each at most
    once. *)
Definition responses_ok (n : nat) (vr : dict) : Prop :=
  NoDup (keys vr) /\ incl (keys vr) (map question_key (seq 1 n)).

(** The remote insert of a row returns a first row. *)
Definition remote_accepts (self : SupabaseClient) (row : dict) : bool :=
  match remote_outcome self row with Ok _ => true | Raise _ => false end.

(** The candidate record as [on_submit] leaves it for the save: the
    responses and the full text added, the key [generated_questions]
    removed. *)
Definition submitted_record (record vr : dict) (questions : pyval) : dict :=
  let d := update record [ (lit "video_responses", PDict vr);
                           (lit "generated_questions_full_text", questions) ] in
  if contains d (lit "generated_questions")
  then delitem d (lit "generated_questions")
  else d.

(** Two states agree on everything but the responses, the feedback shown
    and the clock. *)
Definition same_but_responses (s s' : mstate) : Prop :=
  (forall r, heap s' r = heap s r) /\
  remote_requests s' = remote_requests s /\
  candidates_file s' = candidates_file s /\
  step s' = step s /\
  generated_questions s' = generated_questions s.

(** A reply with one question, and the session of [ada_record] on the
    Questions screen once the link for that question was accepted. *)
Definition one_question_reply : str :=
  lit "**Question 1: How do you test a REST endpoint?**" ++ [NEWLINE]
  ++ [MOVIE_CAMERA] ++ lit " *Recording Hint 1: Start with your approach*"
  ++ [NEWLINE]
  ++ [MOVIE_CAMERA] ++ lit " *Recording Hint 2: Walk through an example*"
  ++ [NEWLINE]
  ++ [VIDEO_CAMERA] ++ lit " *Recommended response time: 2-3 minutes*".

Definition ada_link : str := lit "https://www.loom.com/share/abc123XYZ".

Definition ada_submitting : mstate :=
  set_video_responses
    (Some [ (question_key 1,
             PDict [ (lit "question",
                      PStr (lit "How do you test a REST endpoint?"));
                     (lit "loom_url", PStr ada_link) ]) ])
    (set_generated_questions (Some (PStr one_question_reply)) (ada_state 3)).

(** A text-generation service that cannot be reached, and prompt templates
    that produce empty prompts. *)
Definition unreachable_service (url : str) (payload : dict) (timeout : Z)
  : result http_response :=
  Raise (mkexn "ConnectionError" "connection refused").

Definition empty_prompts (candidate : dict) : str * str := ([], []).

(** The response [question_turn] stores for a question whose link was
    accepted at time [t]. *)
Definition response_of (q : question) (loom_link t : str) : dict :=
  [ (lit "question", PStr (main_question (q_vars q)));
    (lit "hints", PList (map PStr (hints_list (q_vars q))));
    (lit "recommended_time", PStr (recommended_time (q_vars q)));
    (lit "full_text", PStr (q_full_text q));
    (lit "loom_url", PStr loom_link);
    (lit "timestamp", PStr t) ].

(** What the session holds for question [i + 1] once its turn of the loop
    is over: the response of the link when the link is valid, nothing
    otherwise. *)
Definition turn_outcome (validators_url : str -> bool) (blocks : list str)
    (loom_inputs : nat -> str) (i : nat) (stored : option pyval) : Prop :=
  if validate_loom_url validators_url (loom_inputs (i + 1))
  then exists t,
         stored = Some (PDict (response_of
                                 (parse_block (i + 1) (nth i blocks []))
                                 (loom_inputs (i + 1)) t))
  else stored = None.

(* ===================================================================== *)
(** ** The first screens of the wizard ([src/app.py]) *)
(* ===================================================================== *)

(** [try: body / except C: handler], for one exception class [C]: an
    exception of another class goes on to the caller. *)
Definition try_except_only {A} (body : M A) (is_instance : exn -> bool)
    (handler : exn -> M A) : M A :=
  fun s =>
    match body s with
    | (Ok a, s') => (Ok a, s')
    | (Raise e, s') => if is_instance e then handler e s' else (Raise e, s')
    end.

(** [show_welcome]: the button moves to step 1. *)
Definition show_welcome (begin : bool) : M unit :=
  if begin then modify (set_step 1)            (* then st.rerun() *)
  else ret tt.

(** What the widgets of the form [basic_info] return on a run. *)
Record basic_info_form := {
  bi_name : str;
  bi_email : str;
  bi_phone : str;
  bi_experience : pyval;      (* 0 .. 10 or "10+" *)
  bi_position : str;
  bi_location : str;
  bi_submitted : bool
}.

(** What the widgets of the form [tech_stack] return on a run. *)
Record tech_stack_form := {
  ts_languages : list str;
  ts_frontend : list str;
  ts_backend : list str;
  ts_databases : list str;
  ts_cloud_platforms : list str;
  ts_devops_tools : list str;
  ts_mobile : list str;
  ts_data_science : list str;
  ts_testing : list str;
  ts_cms_ecommerce : list str;
  ts_other_tech : list str;
  ts_additional_skills : str;
  ts_submitted : bool
}.

(** A list of strings as a Python value. *)
Definition str_list (l : list str) : pyval := PList (map PStr l).

(** [if selection: all_selected_list.extend(selection)] *)
Definition extend_if_any (all_selected_list selection : list str) : list str :=
  match selection with
  | [] => all_selected_list
  | _ :: _ => all_selected_list ++ selection
  end.

(** [all_selected_list] of [collect_tech_stack], after the eleven
    [extend]s. *)
Definition all_selected_list (f : tech_stack_form) : list str :=
  let l := [] in
  let l := extend_if_any l (ts_languages f) in
  let l := extend_if_any l (ts_frontend f) in
  let l := extend_if_any l (ts_backend f) in
  let l := extend_if_any l (ts_databases f) in
  let l := extend_if_any l (ts_cloud_platforms f) in
  let l := extend_if_any l (ts_devops_tools f) in
  let l := extend_if_any l (ts_mobile f) in
  let l := extend_if_any l (ts_data_science f) in
  let l := extend_if_any l (ts_testing f) in
  let l := extend_if_any l (ts_cms_ecommerce f) in
  extend_if_any l (ts_other_tech f).

(** The dictionary [collect_basic_info] passes to [update]. *)
Definition basic_info_fields (f : basic_info_form) : dict :=
  [ (lit "name", PStr (strip (bi_name f)));
    (lit "email", PStr (strip (bi_email f)));
    (lit "phone", PStr (strip (bi_phone f)));
    (lit "experience", bi_experience f);
    (lit "position", PStr (strip (bi_position f)));
    (lit "location", PStr (strip (bi_location f))) ].

(** The dictionary [collect_tech_stack] passes to [update]. *)
Definition tech_stack_fields (f : tech_stack_form) : dict :=
  [ (lit "programming_languages", str_list (ts_languages f));
    (lit "frontend_frameworks", str_list (ts_frontend f));
    (lit "backend_frameworks", str_list (ts_backend f));
    (lit "databases", str_list (ts_databases f));
    (lit "cloud_platforms", str_list (ts_cloud_platforms f));
    (lit "devops_tools", str_list (ts_devops_tools f));
    (lit "mobile_development", str_list (ts_mobile f));
    (lit "data_science", str_list (ts_data_science f));
    (lit "testing_frameworks", str_list (ts_testing f));
    (lit "cms_ecommerce", str_list (ts_cms_ecommerce f));
    (lit "other_technologies", str_list (ts_other_tech f));
    (lit "additional_skills", PStr (strip (ts_additional_skills f)));
    (lit "all_selected_tech_list", str_list (all_selected_list f)) ].

(** [not l] for a string or a list. *)
Definition is_empty {A} (l : list A) : bool :=
  match l with [] => true | _ :: _ => false end.

Section Wizard.

(** [validate_email(email)] of the [email_validator] package returns (a
    value the program drops) or raises; [is_EmailNotValidError e] is
    [isinstance(e, EmailNotValidError)]. *)
Variable validate_email : str -> result unit.
Variable is_EmailNotValidError : exn -> bool.

(** [is_valid_email] *)
Definition is_valid_email (email : str) : M bool :=
  try_except_only
    (lift (validate_email email) ;; ret true)
    is_EmailNotValidError
    (fun _ => ret false).

(** The three checks of [collect_basic_info], in the order of the source;
    each appends to [errors]. *)
Definition basic_info_errors (f : basic_info_form) : M (list str) :=
  let errors := [] in
  let errors :=
    if is_empty (strip (bi_name f))
    then errors ++ [lit "Name is required"] else errors in
  errors <-
    (if is_empty (strip (bi_email f))
     then ret (errors ++ [lit "Email is required"])
     else
       valid <- is_valid_email (bi_email f) ;;
       if negb valid
       then ret (errors ++ [lit "Please enter a valid email"])
       else ret errors) ;;
  let errors :=
    if is_empty (strip (bi_position f))
    then errors ++ [lit "Desired position is required"] else errors in
  ret errors.

(** [collect_basic_info] *)
Definition collect_basic_info (candidate_data : ref) (f : basic_info_form)
  : M unit :=
  if bi_submitted f then
    errors <- basic_info_errors f ;;
    match errors with
    | _ :: _ => for_each errors (fun error => st_error [Text error])
    | [] =>
        obj_update candidate_data (basic_info_fields f) ;;
        modify (set_step 2)                      (* then st.rerun() *)
    end
  else ret tt.

(** [collect_tech_stack] *)
Definition collect_tech_stack (candidate_data : ref) (f : tech_stack_form)
  : M unit :=
  if ts_submitted f then
    if is_empty (all_selected_list f)
       && is_empty (strip (ts_additional_skills f))
    then st_error [ Text (lit "Please select at least one technology or add details in Additional Skills") ]
    else
      obj_update candidate_data (tech_stack_fields f) ;;
      modify (set_step 3)                        (* then st.rerun() *)
  else ret tt.


(* ===================================================================== *)
(** ** The script: [main] and the session ([src/app.py]) *)
(* ===================================================================== *)

(** What the widgets return on one run of the script.  Only the widgets of
    the screen that is shown are read. *)
Record widgets := {
  w_begin : bool;                  (* button "Yes, let's begin!" *)
  w_basic : basic_info_form;
  w_tech : tech_stack_form;
  w_loom_inputs : nat -> str;      (* text inputs loom_q1, loom_q2, ... *)
  w_submit_responses : bool;       (* button "Submit All Responses" *)
  w_start_over : bool;             (* button "Start Over" *)
  w_start_new : bool               (* button "Start New Assessment" *)
}.

(** The environment of a run, as in [Section Program]. *)
Variable getenv : str -> option str.
Variable create_client : option str -> option str -> result Client.
Variable clock : nat -> str.
Variable read_fault : option exn.
Variable write_fault : write_outcome.
Variable validators_url : str -> bool.
Variable requests_post : str -> dict -> Z -> result http_response.
Variable build_prompts : dict -> str * str.

(** The display of [show_completion] (lines 743-786) reads the candidate
    record and writes to the page; it returns or raises, and writes nothing
    to the session. *)
Variable completion_display : dict -> result unit.

(** The Questions screen as [main] runs it: the form, then the Start Over
    button.  The result tells whether the session was cleared.  After a
    successful save the form ends the run with [st.rerun()], which is when
    the step is 4, and the button is not reached. *)
Definition questions_screen (self : SupabaseClient) (candidate_data : ref)
    (w : widgets) : M bool :=
  generate_questions clock read_fault write_fault validators_url
    requests_post build_prompts self candidate_data
    (w_loom_inputs w) (w_submit_responses w) ;;
  now_at <- gets step ;;
  if Nat.eqb now_at 4 then ret false
  else ret (w_start_over w).     (* st.session_state.clear(); st.rerun() *)

(** [show_completion].  The result tells whether the session was
    cleared. *)
Definition show_completion (candidate_data : ref) (start_new : bool)
  : M bool :=
  st_success [ Text (lit "Your information and video responses have been successfully processed!") ] ;;
  record <- load candidate_data ;;
  lift (completion_display record) ;;
  ret start_new.                 (* st.session_state.clear(); st.rerun() *)

(** [main]: the session is initialised when it has no step, then the
    screen of the step runs.  ([questions_list] and [email_sent], set with
    the step, are read nowhere.) *)
Definition main (self : SupabaseClient) (candidate_data : ref) (w : widgets)
    (has_step : bool) : M bool :=
  (if has_step then ret tt
   else modify (set_step 0) ;; store candidate_data []) ;;
  at_step <- gets step ;;
  match at_step with
  | 0 => show_welcome (w_begin w) ;; ret false
  | 1 => collect_basic_info candidate_data (w_basic w) ;; ret false
  | 2 => collect_tech_stack candidate_data (w_tech w) ;; ret false
  | 3 => questions_screen self candidate_data w
  | 4 => show_completion candidate_data (w_start_new w)
  | _ => ret false
  end.

(** One browser session between two runs: the client and the step are
    entries of [st.session_state] that may be absent. *)
Record browser := {
  b_client : option SupabaseClient;   (* st.session_state.supabase_client *)
  b_has_step : bool;                  (* 'step' in st.session_state *)
  b_state : mstate
}.

(** [st.session_state.clear()]: every entry is gone. *)
Definition cleared (s : mstate) : browser :=
  {| b_client := None; b_has_step := false;
     b_state := set_video_responses None (set_generated_questions None s) |}.

(** One run of the script: the module-level statements build the client if
    the session has none, then [main()] runs. *)
Definition script_run (candidate_data : ref) (w : widgets) (b : browser)
  : result unit * browser :=
  match init_supabase_client getenv create_client (b_client b) with
  | Raise e => (Raise e, b)
  | Ok self =>
      match main self candidate_data w (b_has_step b) (b_state b) with
      | (Ok true, s') => (Ok tt, cleared s')
      | (Ok false, s') =>
          (Ok tt, {| b_client := Some self; b_has_step := true;
                     b_state := s' |})
      | (Raise e, s') =>
          (Raise e, {| b_client := Some self; b_has_step := true;
                       b_state := s' |})
      end
  end.

End Wizard.

(** A call returned. *)
Definition returned {A} (r : result A) : bool :=
  match r with Ok _ => true | Raise _ => false end.

(** The messages [collect_basic_info] shows for a submitted form: one per
    failing field, in the order name, email, position. *)
Definition basic_info_messages (validate_email : str -> result unit)
    (f : basic_info_form) : list str :=
  (if is_empty (strip (bi_name f)) then [lit "Name is required"] else [])
  ++ (if is_empty (strip (bi_email f)) then [lit "Email is required"]
      else if returned (validate_email (bi_email f)) then []
           else [lit "Please enter a valid email"])
  ++ (if is_empty (strip (bi_position f))
      then [lit "Desired position is required"] else []).

(** The only exception [validate_email] raises on this address is of the
    class [is_valid_email] catches. *)
Definition raises_only_invalid (validate_email : str -> result unit)
    (is_EmailNotValidError : exn -> bool) (email : str) : Prop :=
  forall e, validate_email email = Raise e -> is_EmailNotValidError e = true.

(** A simple address check, used where an example needs a concrete function
    in the place of [validate_email]: a non-empty text, an at sign and a
    non-empty text; otherwise it raises [EmailNotValidError]. *)
Definition sample_validate_email (email : str) : result unit :=
  match partition (lit "@") email with
  | Some (_ :: _, _ :: _) => Ok tt
  | _ => Raise (mkexn "EmailNotValidError" "The email address is not valid.")
  end.

Definition sample_is_EmailNotValidError (e : exn) : bool :=
  String.eqb (exn_class e) "EmailNotValidError".

(** The forms of the end-to-end scenario of the spec, typed with some
    surrounding blanks. *)
Definition ada_basic_form : basic_info_form :=
  {| bi_name := lit "  Ada Lovelace ";
     bi_email := lit "ada@example.com";
     bi_phone := [];
     bi_experience := PInt 5;
     bi_position := lit "Backend Engineer ";
     bi_location := [];
     bi_submitted := true |}.

Definition ada_tech_form : tech_stack_form :=
  {| ts_languages := [lit "Python"];
     ts_frontend := [lit "React"];
     ts_backend := [];
     ts_databases := [lit "PostgreSQL"];
     ts_cloud_platforms := [];
     ts_devops_tools := [lit "Docker"];
     ts_mobile := [];
     ts_data_science := [];
     ts_testing := [];
     ts_cms_ecommerce := [];
     ts_other_tech := [];
     ts_additional_skills := lit " Rocq ";
     ts_submitted := true |}.

(** The candidate record after the first two forms were accepted in a
    fresh session. *)
Definition wizard_record (fb : basic_info_form) (ft : tech_stack_form) : dict :=
  update (update [] (basic_info_fields fb)) (tech_stack_fields ft).

(** The row the remote insert receives for that record. *)
Definition wizard_row (fb : basic_info_form) (ft : tech_stack_form) : dict :=
  [ (lit "name", PStr (strip (bi_name fb)));
    (lit "email", PStr (strip (bi_email fb)));
    (lit "phone", PStr (strip (bi_phone fb)));
    (lit "experience", bi_experience fb);
    (lit "position", PStr (strip (bi_position fb)));
    (lit "location", PStr (strip (bi_location fb)));
    (lit "programming_languages", str_list (ts_languages ft));
    (lit "frameworks", PList []);
    (lit "databases", str_list (ts_databases ft));
    (lit "tools", PList []);
    (lit "cloud_platforms", str_list (ts_cloud_platforms ft));
    (lit "other_skills", PNone);
    (lit "generated_questions", PNone);
    (lit "loom_video_url", PNone);
    (lit "status", PStr (lit "submitted")) ].

(** A browser session that has not run the script yet. *)
Definition new_browser (s : mstate) : browser :=
  {| b_client := None; b_has_step := false;
     b_state := set_video_responses None (set_generated_questions None s) |}.

(** A computation leaves an observation of the state as it was, whether it
    returns or raises. *)
Definition preserves {A B} (f : mstate -> B) (m : M A) : Prop :=
  forall s, f (snd (m s)) = f s.

(** A computation leaves the step as it was or sets it to [n], whether it
    returns or raises. *)
Definition stays_or_moves_to {A} (n : nat) (m : M A) : Prop :=
  forall s, step (snd (m s)) = step s \/ step (snd (m s)) = n.

(** A text-generation service that answers every request with the given
    text. *)
Definition replying_service (text : str) (url : str) (payload : dict)
    (timeout : Z) : result http_response :=
  Ok {| response_json := Ok (PDict [(lit "response", PStr text)]) |}.

(** Widgets of the scenario: every button of the forms pressed, the link of
    the scenario typed for every question.  Each run only reads the widgets
    of its screen. *)
Definition ada_widgets : widgets :=
  {| w_begin := true;
     w_basic := ada_basic_form;
     w_tech := ada_tech_form;
     w_loom_inputs := fun _ => ada_link;
     w_submit_responses := true;
     w_start_over := false;
     w_start_new := false |}.

(** The same with the Questions form not submitted. *)
Definition ada_widgets_idle : widgets :=
  {| w_begin := true;
     w_basic := ada_basic_form;
     w_tech := ada_tech_form;
     w_loom_inputs := fun _ => ada_link;
     w_submit_responses := false;
     w_start_over := false;
     w_start_new := false |}.

(** An environment with credentials. *)
Definition sample_getenv (name : str) : option str := Some (lit "value").

(** The scenario's script: one run in the sample environment, with a remote
    datastore that accepts every row and a page display that returns. *)
Definition ada_run (w : widgets) (b : browser) : result unit * browser :=
  script_run sample_validate_email sample_is_EmailNotValidError sample_getenv
    (sample_create_client (supabase accepting_client)) sample_clock None
    WriteOk sample_url_check (replying_service one_question_reply)
    empty_prompts (fun _ => Ok tt) 0 w b.

(** The Basic Information form is accepted: it is submitted, the three
    texts are not blank and [validate_email] returns on the email. *)
Definition basic_info_accepted (validate_email : str -> result unit)
    (f : basic_info_form) : Prop :=
  bi_submitted f = true /\
  strip (bi_name f) <> [] /\ strip (bi_email f) <> [] /\
  strip (bi_position f) <> [] /\
  returned (validate_email (bi_email f)) = true.

(** The Technical Skills form is accepted: it is submitted and something
    was selected or written. *)
Definition tech_stack_accepted (f : tech_stack_form) : Prop :=
  ts_submitted f = true /\
  (all_selected_list f <> [] \/ strip (ts_additional_skills f) <> []).

(** The text-generation service answers every request with a JSON object
    whose [response] is [text]. *)
Definition service_replies
    (requests_post : str -> dict -> Z -> result http_response) (text : str)
  : Prop :=
  forall url payload timeout,
    exists body,
      requests_post url payload timeout
      = Ok {| response_json := Ok (PDict body) |} /\
      lookup body (lit "response") = Some (PStr text).

(* ===================================================================== *)
(** ** The prompt of the questions ([src/app.py],
       [generate_enhanced_questions], lines 459-544) *)
(* ===================================================================== *)

(** The options of the select box [Years of Experience] of
    [collect_basic_info]. *)
Definition EXPERIENCE_OPTIONS : list pyval :=
  map PInt [0; 1; 2; 3; 4; 5; 6; 7; 8; 9; 10]%Z ++ [PStr (lit "10+")].

(** [r] then [k], for computations that only return or raise. *)
Definition and_then {A B} (r : result A) (k : A -> result B) : result B :=
  match r with
  | Ok a => k a
  | Raise e => Raise e
  end.

(** The items of [sep.join(items)] have to be strings; the first one that
    is not raises [TypeError]. *)
Fixpoint str_items (i : nat) (items : list pyval) : result (list str) :=
  match items with
  | [] => Ok []
  | PStr s :: items' =>
      and_then (str_items (S i) items') (fun l => Ok (s :: l))
  | v :: _ =>
      Raise {| exn_class := "TypeError";
               exn_str := lit "sequence item " ++ of_nat i
                          ++ lit ": expected str instance, "
                          ++ lit (type_name v) ++ lit " found" |}
  end.

(** What iterating over a value yields: the characters of a string, the
    items of a list, the keys of a dictionary. *)
Definition iterate (v : pyval) : result (list pyval) :=
  match v with
  | PStr s => Ok (map (fun c => PStr [c]) s)
  | PList l => Ok l
  | PDict d => Ok (map (fun kv => PStr (fst kv)) d)
  | _ => Raise (mkexn "TypeError" "can only join an iterable")
  end.

(** [sep.join(v)] for a value of the record. *)
Definition join_value (sep : str) (v : pyval) : result str :=
  and_then (iterate v) (fun items =>
  and_then (str_items 0 items) (fun l => Ok (join sep l))).

(** The templates of the two f-strings, with their five parameters. *)
Record prompt_parameters := {
  exp_category : str;
  exp_descriptor : str;
  experience_level : pyval;
  tech_stack_text : str;
  position : pyval
}.

Definition NO_SKILLS_TEXT : str := lit "no specific technical skills mentioned".

(** Every line of a triple-quoted template ends with a newline. *)
Definition template (lines : list str) : str :=
  flat_map (fun line => line ++ [NEWLINE]) lines.

Section Prompt.

(** [format(v, '')], what an f-string puts for [{v}]. *)
Variable format_value : pyval -> str.

(** [x == k] for a float [x = mantissa * 10 ^ exponent] and an integer
    [k]. *)
Variable float_eq_int : Z -> Z -> Z -> bool.

(** [v == k] for an integer literal [k]. *)
Definition eq_int (v : pyval) (k : Z) : bool :=
  match v with
  | PInt z => (z =? k)%Z
  | PBool b => ((if b then 1 else 0) =? k)%Z
  | PFloat mantissa exponent => float_eq_int mantissa exponent k
  | PNone | PStr _ | PList _ | PDict _ => false
  end.

(** [v in [k1, k2, ...]] *)
Definition in_ints (v : pyval) (l : list Z) : bool := existsb (eq_int v) l.

(** [exp_category] and [exp_descriptor]. *)
Definition experience_category (experience_level : pyval) : str * str :=
  if in_ints experience_level [0; 1; 2]%Z then
    (lit "junior", lit "entry-level")
  else if in_ints experience_level [3; 4; 5; 6]%Z then
    (lit "mid-level", lit "intermediate")
  else
    (lit "senior", lit "experienced").

(** [if candidate.get(key):
      tech_summary.append(f"label: {', '.join(candidate[key])}")] *)
Definition append_if_any (candidate : dict) (key : str) (label : string)
    (tech_summary : list str) : result (list str) :=
  if truthy (get candidate key) then
    and_then (join_value (lit ", ") (get candidate key)) (fun joined =>
    Ok (tech_summary ++ [lit label ++ lit ": " ++ joined]))
  else Ok tech_summary.

(** [tech_summary], after the eleven [if]s. *)
Definition tech_summary (candidate : dict) : result (list str) :=
  and_then (append_if_any candidate (lit "programming_languages")
      "Programming Languages" [])
  (fun l => and_then (append_if_any candidate (lit "frontend_frameworks")
      "Frontend Frameworks" l)
  (fun l => and_then (append_if_any candidate (lit "backend_frameworks")
      "Backend Frameworks" l)
  (fun l => and_then (append_if_any candidate (lit "databases")
      "Databases" l)
  (fun l => and_then (append_if_any candidate (lit "cloud_platforms")
      "Cloud Platforms" l)
  (fun l => and_then (append_if_any candidate (lit "devops_tools")
      "DevOps & Development Tools" l)
  (fun l => and_then (append_if_any candidate (lit "mobile_development")
      "Mobile Development" l)
  (fun l => and_then (append_if_any candidate (lit "data_science")
      "Data Science & Analytics" l)
  (fun l => and_then (append_if_any candidate (lit "testing_frameworks")
      "Testing Frameworks & Tools" l)
  (fun l => and_then (append_if_any candidate (lit "cms_ecommerce")
      "CMS & E-commerce Platforms" l)
  (fun l => append_if_any candidate (lit "other_technologies")
      "Other Technologies & Specializations" l)))))))))).

(** The local variables the two templates are filled with. *)
Definition parameters (candidate : dict) : result prompt_parameters :=
  let experience_level := get_default candidate (lit "experience") (PInt 0) in
  let (exp_category, exp_descriptor) := experience_category experience_level in
  and_then (tech_summary candidate) (fun tech_summary =>
  let tech_stack_text :=
    match tech_summary with
    | [] => NO_SKILLS_TEXT
    | _ :: _ => join (lit "; ") tech_summary
    end in
  let position :=
    get_default candidate (lit "position") (PStr (lit "developer")) in
  Ok {| exp_category := exp_category; exp_descriptor := exp_descriptor;
        experience_level := experience_level;
        tech_stack_text := tech_stack_text; position := position |}).

(** [prompt] *)
Definition prompt_text (p : prompt_parameters) : str :=
  template
    [ lit "You are a senior technical interviewer conducting a video interview for a "
        ++ exp_descriptor p ++ lit " " ++ format_value (position p)
        ++ lit " position.";
      [];
      lit "Candidate Profile:";
      lit "- Experience: " ++ format_value (experience_level p) ++ lit " years";
      lit "- Technical Skills: " ++ tech_stack_text p;
      lit "- Position: " ++ format_value (position p);
      [];
      lit "Generate 4-5 realistic technical interview questions that:";
      lit "1. Sound like actual interview questions a hiring manager would ask";
      lit "2. Are appropriate for " ++ exp_category p ++ lit " level experience";
      lit "3. Focus on their declared technologies (if any)";
      lit "4. **Include a mix of conceptual, system design, and practical coding challenges.**";
      lit "5. Include helpful hints for video recording (NOT answer hints)";
      [];
      lit "For each question, provide:";
      lit "- The main interview question (numbered)";
      lit "- 2 recording hints that help structure their video response";
      lit "- Expected response time (1-3 minutes)";
      [];
      lit "Format example:";
      lit "**Question 1: [Actual interview question here]**";
      [MOVIE_CAMERA]
        ++ lit " *Recording Hint 1: Start by explaining your approach or logic*";
      [MOVIE_CAMERA]
        ++ lit " *Recording Hint 2: Walk through a code example or diagram if applicable*";
      [VIDEO_CAMERA] ++ lit " *Recommended response time: 2-3 minutes*";
      [];
      lit "Make questions conversational and realistic - as if you're sitting across from them in an interview. Avoid asking if they have clarifying questions." ].

(** [system_prompt] *)
Definition system_prompt_text (p : prompt_parameters) : str :=
  template
    [ lit "You are an experienced technical interviewer who has conducted hundreds of interviews. Your questions should:";
      lit "- Sound natural and conversational";
      lit "- Test real-world application, not just theory";
      lit "- Be appropriate for " ++ exp_category p ++ lit " developers";
      lit "- Help candidates showcase their experience";
      lit "- Be clear and specific";
      lit "- Focus on practical scenarios they might face in a "
        ++ format_value (position p) ++ lit " role.";
      lit "- Ensure recording hints are non-technical guidance on structuring the video answer (e.g., explain thinking, walk through code/diagram).";
      lit "- Do NOT include phrases like 'Do you have any clarifying questions?' or 'Feel free to ask questions'.";
      lit "- **Include a variety of question types: theoretical, problem-solving, system design, and coding tasks.**" ].

(** The arguments [generate_enhanced_questions] calls [get_ai_response]
    with, or the [TypeError] of a [join] that ends the call before. *)
Definition enhanced_prompts (candidate : dict) : result (str * str) :=
  and_then (parameters candidate) (fun p =>
  Ok (prompt_text p, system_prompt_text p)).

(** The body of the request for the questions of a candidate. *)
Definition enhanced_request (candidate : dict) : result dict :=
  and_then (enhanced_prompts candidate) (fun p =>
  Ok (ai_payload (fst p) (snd p))).

End Prompt.

(** The keys of the candidate record that [generate_enhanced_questions]
    reads. *)
Definition PROMPT_FIELDS : list str :=
  map lit [ "experience"; "programming_languages"; "frontend_frameworks";
            "backend_frameworks"; "databases"; "cloud_platforms";
            "devops_tools"; "mobile_development"; "data_science";
            "testing_frameworks"; "cms_ecommerce"; "other_technologies";
            "position" ]%string.

(** The line of the skills summary for the selections of one widget. *)
Definition summary_line (label : string) (selection : list str) : list str :=
  match selection with
  | [] => []
  | _ :: _ => [lit label ++ lit ": " ++ join (lit ", ") selection]
  end.

(** The skills summary of a Technical Skills form: one line for each widget
    with a selection, in the order of the screen. *)
Definition form_summary (f : tech_stack_form) : list str :=
  summary_line "Programming Languages" (ts_languages f)
  ++ summary_line "Frontend Frameworks" (ts_frontend f)
  ++ summary_line "Backend Frameworks" (ts_backend f)
  ++ summary_line "Databases" (ts_databases f)
  ++ summary_line "Cloud Platforms" (ts_cloud_platforms f)
  ++ summary_line "DevOps & Development Tools" (ts_devops_tools f)
  ++ summary_line "Mobile Development" (ts_mobile f)
  ++ summary_line "Data Science & Analytics" (ts_data_science f)
  ++ summary_line "Testing Frameworks & Tools" (ts_testing f)
  ++ summary_line "CMS & E-commerce Platforms" (ts_cms_ecommerce f)
  ++ summary_line "Other Technologies & Specializations" (ts_other_tech f).

(** The experience level by years: up to two, three to six, more. *)
Definition category_of_years (experience : pyval) : str * str :=
  match experience with
  | PInt n =>
      if (n <=? 2)%Z then (lit "junior", lit "entry-level")
      else if (n <=? 6)%Z then (lit "mid-level", lit "intermediate")
      else (lit "senior", lit "experienced")
  | _ => (lit "senior", lit "experienced")
  end.

(** A sample of [format(v, '')] for the values of the scenario. *)
Definition sample_format_value (v : pyval) : str :=
  match v with
  | PStr s => s
  | PInt z => if (z <? 0)%Z then lit "-" ++ of_nat (Z.to_nat (- z))
              else of_nat (Z.to_nat z)
  | PNone => lit "None"
  | PBool true => lit "True"
  | PBool false => lit "False"
  | _ => lit "..."
  end.

(** A sample of the comparison of a float with an integer, for floats with
    no fractional digits. *)
Definition sample_float_eq_int (mantissa exponent k : Z) : bool :=
  (mantissa * 10 ^ exponent =? k)%Z.

(* ===================================================================== *)
(** ** The local save of [src/app.py] ([save_candidate], lines 42-59) *)
(* ===================================================================== *)

Module app.
Section LocalSave.

Variable clock : nat -> str.
Variable read_fault : option exn.
Variable write_fault : write_outcome.

(** [save_candidate(data)] of [app.py]: the file is
    [APP_CONFIG['candidates_file']], which is [data/candidates.json]. *)
Definition save_candidate (data : ref) : M bool :=
  try_except
    (there <- path_exists ;;
     candidates <- (if there then read_candidates read_fault
                    else ret (PList [])) ;;
     t <- now clock ;;
     obj_setitem data (lit "timestamp") (PStr t) ;;
     d <- load data ;;
     obj_setitem data (lit "has_video_responses")
       (PBool (truthy (get d (lit "video_responses")))) ;;
     record <- load data ;;
     candidates <- list_append candidates (PDict record) ;;
     write_candidates write_fault candidates ;;
     ret true)
    (fun e =>
       st_error [Text (lit "Error saving data: "); Value (PStr (exn_str e))] ;;
       ret false).

End LocalSave.
End app.

(** The entry the local save of [app.py] appends for a record. *)
Definition local_entry (record : dict) (timestamp : str) : dict :=
  setitem (setitem record (lit "timestamp") (PStr timestamp))
          (lit "has_video_responses")
          (PBool (truthy (get record (lit "video_responses")))).

(* ===================================================================== *)
(** ** Facts about [split] *)
(* ===================================================================== *)

Lemma split_unfold sep s :
  sep <> [] ->
  split sep s = match partition sep s with
                | None => [s]
                | Some (a, b) => a :: split sep b
                end.
Proof.
  intros Hsep. funelim (split sep s); try congruence.
  all: match goal with E : partition _ _ = _ |- _ => rewrite E end;
    reflexivity.
Qed.

Lemma split_not_nil sep s : split sep s <> [].
Proof.
  destruct sep as [|c sep]; [simp split; discriminate|].
  rewrite split_unfold by discriminate.
  destruct (partition (c :: sep) s) as [[a b]|]; discriminate.
Qed.

Lemma join_cons sep x l :
  join sep (x :: l) = x ++ concat (map (app sep) l).
Proof.
  revert x; induction l as [|y l IH]; intros x.
  - simpl. now rewrite app_nil_r.
  - change (join sep (x :: y :: l)) with (x ++ sep ++ join sep (y :: l)).
    rewrite IH. simpl. now rewrite <- app_assoc.
Qed.

(** Joining the segments with the separator gives the text back. *)
Lemma split_join sep s : sep <> [] -> join sep (split sep s) = s.
Proof.
  intros Hsep. remember (length s) as n eqn:Hn. revert s Hn.
  induction n as [n IH] using lt_wf_ind; intros s Hn.
  rewrite split_unfold by exact Hsep.
  destruct (partition sep s) as [[a b]|] eqn:E; [|reflexivity].
  pose proof (partition_shorter _ _ _ _ Hsep E) as Hlt.
  pose proof (partition_app _ _ _ _ E) as Hs.
  assert (Hb : join sep (split sep b) = b) by (eapply IH; [|reflexivity]; lia).
  destruct (split sep b) as [|y l] eqn:Eb; [now apply split_not_nil in Eb|].
  change (join sep (a :: y :: l)) with (a ++ sep ++ join sep (y :: l)).
  now rewrite Hb.
Qed.

Lemma removeprefix_none_app sep x y :
  removeprefix sep (x ++ y) = None -> length sep <= length x ->
  removeprefix sep x = None.
Proof.
  revert x; induction sep as [|a sep IH]; intros x; simpl.
  - discriminate.
  - destruct x as [|b x]; simpl; [lia|].
    destruct (a =? b)%N; [|reflexivity]. intros H Hl. apply IH; [exact H | lia].
Qed.

Lemma removeprefix_too_short sep x :
  length x < length sep -> removeprefix sep x = None.
Proof.
  revert x; induction sep as [|a sep IH]; intros x; simpl; [lia|].
  destruct x as [|b x]; simpl; [reflexivity|].
  intros H. destruct (a =? b)%N; [apply IH; lia | reflexivity].
Qed.

Lemma removeprefix_none_prefix sep x y :
  sep <> [] -> removeprefix sep (x ++ sep ++ y) = None ->
  removeprefix sep x = None.
Proof.
  intros Hsep H. destruct (le_lt_dec (length sep) (length x)) as [Hl|Hl].
  - eapply removeprefix_none_app; eauto.
  - apply removeprefix_too_short; exact Hl.
Qed.

(** The text before the first occurrence holds no occurrence. *)
Lemma partition_before_free sep s a b :
  sep <> [] -> partition sep s = Some (a, b) -> partition sep a = None.
Proof.
  intros Hsep. revert a b; induction s as [|c s IH]; intros a b; simpl.
  - destruct (removeprefix sep []) eqn:E; [|discriminate].
    apply removeprefix_app in E. destruct sep; [congruence | discriminate].
  - destruct (removeprefix sep (c :: s)) eqn:E.
    + intros H; inversion H; subst. simpl.
      destruct sep; [congruence | reflexivity].
    + destruct (partition sep s) as [[a' b']|] eqn:Ep; [|discriminate].
      intros H; inversion H; subst. simpl.
      pose proof (partition_app _ _ _ _ Ep) as Hs. rewrite Hs in E.
      change (c :: a' ++ sep ++ b) with ((c :: a') ++ sep ++ b) in E.
      rewrite (removeprefix_none_prefix _ _ _ Hsep E).
      now rewrite (IH _ _ eq_refl).
Qed.

(** No segment holds the separator. *)
Lemma split_segments_free sep s :
  sep <> [] -> Forall (fun seg => occurs sep seg = false) (split sep s).
Proof.
  intros Hsep. remember (length s) as n eqn:Hn. revert s Hn.
  induction n as [n IH] using lt_wf_ind; intros s Hn.
  rewrite split_unfold by exact Hsep.
  destruct (partition sep s) as [[a b]|] eqn:E.
  - constructor.
    + unfold occurs. now rewrite (partition_before_free _ _ _ _ Hsep E).
    + eapply IH; [|reflexivity]. subst n. eapply partition_shorter; eauto.
  - constructor; [|constructor]. unfold occurs. now rewrite E.
Qed.


(* ===================================================================== *)
(** ** Facts about the reply parser *)
(* ===================================================================== *)

Lemma takewhile_dropwhile p s : takewhile p s ++ dropwhile p s = s.
Proof.
  induction s as [|c s IH]; simpl; [reflexivity|].
  destruct (p c); simpl; [now rewrite IH | reflexivity].
Qed.

Lemma takewhile_all p s : forallb p (takewhile p s) = true.
Proof.
  induction s as [|c s IH]; simpl; [reflexivity|].
  destruct (p c) eqn:E; simpl; [now rewrite E | reflexivity].
Qed.

Lemma dropwhile_head p s c rest : dropwhile p s = c :: rest -> p c = false.
Proof.
  induction s as [|a s IH]; simpl; [discriminate|].
  destruct (p a) eqn:E; [exact IH | intros H; inversion H; now subst].
Qed.

Lemma takewhile_app_stop p g c rest :
  forallb p g = true -> p c = false ->
  takewhile p (g ++ c :: rest) = g /\ dropwhile p (g ++ c :: rest) = c :: rest.
Proof.
  intros Hg Hc. induction g as [|a g IH]; simpl in *.
  - now rewrite Hc.
  - apply andb_true_iff in Hg. destruct Hg as [Ha Hg]. rewrite Ha.
    destruct (IH Hg) as [-> ->]. auto.
Qed.

(** [match_italic] finds a match exactly on the lines the regular
    expression describes, and returns its group: the line is the emoji, a
    space, a star, a non-empty group without a star, a star, and anything
    after. *)
Lemma match_italic_spec emoji line g :
  match_italic emoji line = Some g <->
  exists rest,
    line = [emoji; SPACE; STAR] ++ g ++ STAR :: rest /\
    g <> [] /\ forallb not_star g = true.
Proof.
  unfold match_italic. split.
  - destruct (removeprefix [emoji; SPACE; STAR] line) as [body|] eqn:E;
      [|discriminate].
    apply removeprefix_app in E.
    destruct (takewhile not_star body) as [|a t] eqn:Et; [discriminate|].
    destruct (dropwhile not_star body) as [|c rest] eqn:Ed; [discriminate|].
    intros H; inversion H; subst g. exists rest.
    pose proof (dropwhile_head not_star body c rest Ed) as Hc.
    assert (c = STAR).
    { unfold not_star in Hc. apply negb_false_iff in Hc.
      now apply N.eqb_eq in Hc. }
    subst c. split; [|split].
    + rewrite E. f_equal. rewrite <- Ed, <- Et.
      now rewrite takewhile_dropwhile.
    + discriminate.
    + rewrite <- Et. apply takewhile_all.
  - intros (rest & -> & Hne & Hall).
    assert (E : removeprefix [emoji; SPACE; STAR]
                  ([emoji; SPACE; STAR] ++ g ++ STAR :: rest)
                = Some (g ++ STAR :: rest)) by now apply removeprefix_app.
    rewrite E.
    destruct (takewhile_app_stop not_star g STAR rest Hall eq_refl) as [-> ->].
    destruct g; [congruence | reflexivity].
Qed.

(** The reply is the discarded prefix followed by the blocks, each behind
    one marker; neither the prefix nor a block holds a marker. *)
Lemma question_blocks_decompose text :
  exists prefix,
    split QUESTION_MARKER text = prefix :: question_blocks text /\
    text = prefix ++ concat (map (app QUESTION_MARKER) (question_blocks text)) /\
    occurs QUESTION_MARKER prefix = false /\
    Forall (fun b => occurs QUESTION_MARKER b = false) (question_blocks text).
Proof.
  assert (Hsep : QUESTION_MARKER <> []) by discriminate.
  pose proof (split_join QUESTION_MARKER text Hsep) as Hj.
  pose proof (split_segments_free QUESTION_MARKER text Hsep) as Hf.
  unfold question_blocks.
  destruct (split QUESTION_MARKER text) as [|p l] eqn:E;
    [now apply split_not_nil in E|].
  exists p. simpl. rewrite join_cons in Hj. inversion Hf; subst. auto.
Qed.

Lemma parse_reply_length text :
  length (parse_reply text) = length (question_blocks text).
Proof. unfold parse_reply. now rewrite length_map, length_seq. Qed.

Lemma parse_reply_nth text i :
  i < length (question_blocks text) ->
  nth_error (parse_reply text) i
  = Some (parse_block (i + 1) (nth i (question_blocks text) [])).
Proof.
  intros Hi. unfold parse_reply.
  rewrite nth_error_map, nth_error_seq.
  destruct (Nat.ltb_spec i (length (question_blocks text))); [reflexivity | lia].
Qed.

(** A line that is not the header leaves the loop variables alone as long
    as no header was seen. *)
Lemma parse_line_before_header n v line :
  question_found v = false -> is_header_line n line = false ->
  parse_line n v line = v.
Proof.
  unfold parse_line, is_header_line. intros Hf Hh.
  destruct (strip line) as [|c l]; [reflexivity|].
  now rewrite Hh, Hf.
Qed.

Lemma parse_lines_before_header n lines v :
  question_found v = false ->
  Forall (fun line => is_header_line n line = false) lines ->
  fold_left (parse_line n) lines v = v.
Proof.
  intros Hf Hall. revert v Hf.
  induction Hall as [|line lines Hh _ IH]; intros v Hf; simpl; [reflexivity|].
  rewrite (parse_line_before_header n v line Hf Hh). now apply IH.
Qed.

(** C5. The reply is split on the literal marker and the segment before the
    first marker is discarded: the text is that prefix followed by the
    blocks, each behind one marker.  The parser yields one question per
    block, the i-th (from 0) numbered i + 1 by position, and a block without
    a line that starts with the header of its number still yields its
    question, with empty question text. *)
Theorem C5_reply_parser (text : str) :
  (exists prefix,
     split QUESTION_MARKER text = prefix :: question_blocks text /\
     text = prefix ++ concat (map (app QUESTION_MARKER) (question_blocks text))) /\
  length (parse_reply text) = length (question_blocks text) /\
  (forall i, i < length (question_blocks text) ->
     exists q, nth_error (parse_reply text) i = Some q /\
               q_num q = i + 1 /\
               q_full_text q
               = QUESTION_MARKER ++ strip (nth i (question_blocks text) []) /\
               (Forall (fun line => is_header_line (i + 1) line = false)
                       (block_lines (nth i (question_blocks text) [])) ->
                main_question (q_vars q) = [])).
Proof.
  split; [|split].
  - destruct (question_blocks_decompose text) as (p & H1 & H2 & _).
    now exists p.
  - apply parse_reply_length.
  - intros i Hi. eexists. split; [now apply parse_reply_nth|].
    simpl. repeat split.
    intros Hall. now rewrite parse_lines_before_header.
Qed.

(** C5 at [mislabelled_reply]. *)
Lemma C5_reply_parser_witness :
  length (parse_reply mislabelled_reply) = 2 /\
  exists q, nth_error (parse_reply mislabelled_reply) 1 = Some q /\
            q_num q = 2 /\ main_question (q_vars q) = [].
Proof.
  destruct (C5_reply_parser mislabelled_reply) as (_ & Hlen & Hnth).
  split; [exact Hlen|].
  destruct (Hnth 1) as (q & Hq & Hn & _ & Hm).
  - vm_compute. apply le_n.
  - exists q. split; [exact Hq|]. split; [exact Hn|]. apply Hm.
    vm_compute. repeat constructor.
Defined.

(** C10. Lines before the header line of the block's number leave the loop
    variables as they are, so hints and the duration are only taken from
    lines after it; a block without that line has no hints and an empty
    recommended time, whatever its lines look like. *)
Theorem C10_hints_only_after_header (n : nat) :
  (forall before after,
     Forall (fun line => is_header_line n line = false) before ->
     fold_left (parse_line n) (before ++ after) block_init
     = fold_left (parse_line n) after block_init) /\
  (forall block,
     Forall (fun line => is_header_line n line = false) (block_lines block) ->
     hints_list (q_vars (parse_block n block)) = [] /\
     recommended_time (q_vars (parse_block n block)) = []).
Proof.
  split.
  - intros before after Hall. rewrite fold_left_app.
    now rewrite (parse_lines_before_header n before block_init eq_refl Hall).
  - intros block Hall. simpl.
    now rewrite (parse_lines_before_header n _ block_init eq_refl Hall).
Qed.

(** C10 at [headerless_block]: the hint-shaped and duration-shaped lines are
    matched by the two patterns, and still nothing is collected. *)
Lemma C10_hints_only_after_header_witness :
  (exists g, match_italic MOVIE_CAMERA
               (nth 1 (block_lines headerless_block) []) = Some g) /\
  (exists g, match_italic VIDEO_CAMERA
               (nth 2 (block_lines headerless_block) []) = Some g) /\
  hints_list (q_vars (parse_block 2 headerless_block)) = [] /\
  recommended_time (q_vars (parse_block 2 headerless_block)) = [].
Proof.
  split; [eexists; vm_compute; reflexivity|].
  split; [eexists; vm_compute; reflexivity|].
  apply (proj2 (C10_hints_only_after_header 2) headerless_block).
  vm_compute. repeat constructor.
Defined.
(* ===================================================================== *)
(** ** Facts about the validators *)
(* ===================================================================== *)

Lemma dropwhile_all p s : forallb p s = true -> dropwhile p s = [].
Proof.
  induction s as [|c s IH]; simpl; [reflexivity|].
  destruct (p c); simpl; [exact IH | discriminate].
Qed.

Lemma strip_blank s : blank s = true -> strip s = [].
Proof.
  intros H. unfold strip, lstrip, rstrip.
  rewrite (dropwhile_all _ _ H). reflexivity.
Qed.

Lemma re_match_id_spec prefix s :
  re_match_id prefix s = true <->
  exists c rest, s = prefix ++ c :: rest /\ isalnum_ascii c = true.
Proof.
  unfold re_match_id. split.
  - destruct (removeprefix prefix s) as [[|c r]|] eqn:E; try discriminate.
    intros Hc. apply removeprefix_app in E. now exists c, r.
  - intros (c & r & -> & Hc).
    assert (E : removeprefix prefix (prefix ++ c :: r) = Some (c :: r))
      by now apply removeprefix_app.
    now rewrite E.
Qed.

Lemma whitelist_spec s :
  existsb (fun pattern => re_match_id pattern s) loom_patterns = true <->
  loom_shaped s.
Proof.
  rewrite existsb_exists. split.
  - intros (p & Hin & Hm). apply re_match_id_spec in Hm.
    destruct Hm as (c & r & -> & Hc).
    exists p, [c], r. repeat split; auto; discriminate.
  - intros (p & ident & r & Hin & -> & Hne & Hall).
    exists p. split; [exact Hin|]. apply re_match_id_spec.
    destruct ident as [|c ident]; [congruence|].
    exists c, (ident ++ r). split; [reflexivity|]. now inversion Hall.
Qed.

Lemma validate_loom_url_spec (validators_url : str -> bool) s :
  validate_loom_url validators_url s = true <->
  validators_url s = true /\ loom_shaped (strip s).
Proof.
  unfold validate_loom_url. destruct s as [|c s].
  - split; [discriminate|]. intros [_ H]. apply whitelist_spec in H.
    discriminate H.
  - destruct (validators_url (c :: s)); cbn [negb].
    + rewrite whitelist_spec. tauto.
    + split; [discriminate | intros [H _]; discriminate].
Qed.

(** C6. [validate_loom_url] rejects the empty string and every blank
    string, rejects every string the general URL check rejects, and accepts
    a string exactly when the URL check accepts it and the trimmed string
    begins with [https://[www.]loom.com/share/] or
    [https://[www.]loom.com/embed/] followed by an alphanumeric identifier.
    The spec's three examples: the Loom share link is accepted (it is a
    well-formed URL), the [evil.com] link and the empty string are not. *)
Theorem C6_validate_loom_url (validators_url : str -> bool) :
  validate_loom_url validators_url [] = false /\
  (forall s, blank s = true -> validate_loom_url validators_url s = false) /\
  (forall s, validators_url s = false ->
             validate_loom_url validators_url s = false) /\
  (forall s, validate_loom_url validators_url s = true <->
             validators_url s = true /\ loom_shaped (strip s)) /\
  (validators_url (lit "https://www.loom.com/share/abc123XYZ") = true ->
   validate_loom_url validators_url
     (lit "https://www.loom.com/share/abc123XYZ") = true) /\
  validate_loom_url validators_url (lit "https://evil.com/share/abc123")
    = false.
Proof.
  split; [reflexivity|]. split; [|split; [|split; [|split]]].
  - intros s Hb. destruct (validate_loom_url validators_url s) eqn:E; auto.
    apply validate_loom_url_spec in E. destruct E as [_ E].
    rewrite (strip_blank _ Hb) in E. apply whitelist_spec in E. discriminate E.
  - intros s Hu. destruct (validate_loom_url validators_url s) eqn:E; auto.
    apply validate_loom_url_spec in E. destruct E as [E _]. congruence.
  - intros s. apply validate_loom_url_spec.
  - intros Hu. apply validate_loom_url_spec. split; [exact Hu|].
    apply whitelist_spec. reflexivity.
  - destruct (validate_loom_url _ _) eqn:E; auto.
    apply validate_loom_url_spec in E. destruct E as [_ E].
    apply whitelist_spec in E. discriminate E.
Qed.

(** C6 at a concrete URL check: the three examples of the spec. *)
Lemma C6_validate_loom_url_witness :
  validate_loom_url sample_url_check
    (lit "https://www.loom.com/share/abc123XYZ") = true /\
  validate_loom_url sample_url_check (lit "https://evil.com/share/abc123")
    = false /\
  validate_loom_url sample_url_check [] = false.
Proof.
  pose proof (C6_validate_loom_url sample_url_check)
    as (Hempty & _ & _ & _ & Hshare & Hevil).
  split; [apply Hshare; reflexivity | split; [exact Hevil | exact Hempty]].
Defined.

(** C9. The whitelist match is a prefix match: when the URL check accepts
    [s] and the trimmed [s] is a whitelisted text, then one alphanumeric
    character, then anything at all, [validate_loom_url] accepts [s]. *)
Theorem C9_whitelist_prefix_only (validators_url : str -> bool)
    (s pattern : str) (c : char) (rest : str) :
  validators_url s = true ->
  In pattern loom_patterns ->
  isalnum_ascii c = true ->
  strip s = pattern ++ c :: rest ->
  validate_loom_url validators_url s = true.
Proof.
  intros Hu Hin Hc Hs. apply validate_loom_url_spec. split; [exact Hu|].
  rewrite Hs. exists pattern, [c], rest.
  repeat split; auto; discriminate.
Qed.

(** C9 at a link with a second path segment, a query string and
    punctuation after the identifier. *)
Lemma C9_whitelist_prefix_only_witness :
  validate_loom_url sample_url_check
    (lit "https://loom.com/embed/a/../x?y=<script>!") = true.
Proof.
  apply (@C9_whitelist_prefix_only sample_url_check
           (lit "https://loom.com/embed/a/../x?y=<script>!")
           (lit "https://loom.com/embed/") 97%N
           (lit "/../x?y=<script>!")).
  - reflexivity.
  - right; right; right; left; reflexivity.
  - reflexivity.
  - reflexivity.
Defined.

(* ===================================================================== *)
(** ** Facts about dictionaries *)
(* ===================================================================== *)

Lemma eqb_eq a b : PyStr.eqb a b = true <-> a = b.
Proof.
  unfold PyStr.eqb. destruct (list_eq_dec N.eq_dec a b); split; congruence.
Qed.

Lemma eqb_refl a : PyStr.eqb a a = true.
Proof. now apply eqb_eq. Qed.

Lemma eqb_neq a b : a <> b -> PyStr.eqb a b = false.
Proof.
  intros H. destruct (PyStr.eqb a b) eqn:E; [|reflexivity].
  apply eqb_eq in E. contradiction.
Qed.

Lemma lookup_setitem_same d k v : lookup (setitem d k v) k = Some v.
Proof.
  induction d as [|[k' v'] d IH]; simpl.
  - now rewrite eqb_refl.
  - destruct (PyStr.eqb k' k) eqn:E; simpl; now rewrite E.
Qed.

Lemma lookup_setitem_other d k v k' :
  k <> k' -> lookup (setitem d k v) k' = lookup d k'.
Proof.
  intros Hne. induction d as [|[k0 v0] d IH]; simpl.
  - now rewrite eqb_neq.
  - destruct (PyStr.eqb k0 k) eqn:E; simpl.
    + apply eqb_eq in E; subst k0. now rewrite eqb_neq.
    + now rewrite IH.
Qed.

Lemma lookup_delitem_same d k : lookup (delitem d k) k = None.
Proof.
  induction d as [|[k' v'] d IH]; simpl; [reflexivity|].
  destruct (PyStr.eqb k' k) eqn:E; simpl; [exact IH | now rewrite E].
Qed.

Lemma lookup_delitem_other d k k' :
  k <> k' -> lookup (delitem d k) k' = lookup d k'.
Proof.
  intros Hne. induction d as [|[k0 v0] d IH]; simpl; [reflexivity|].
  destruct (PyStr.eqb k0 k) eqn:E; simpl.
  - apply eqb_eq in E; subst k0. now rewrite (eqb_neq _ _ Hne).
  - now rewrite IH.
Qed.

Lemma keys_setitem_incl d k v : incl (keys (setitem d k v)) (k :: keys d).
Proof.
  induction d as [|[k' v'] d IH]; simpl.
  - intros x Hx. exact Hx.
  - destruct (PyStr.eqb k' k) eqn:E; simpl.
    + intros x Hx. now right.
    + intros x [Hx|Hx]; [right; now left|].
      destruct (IH x Hx) as [H|H]; [now left | right; now right].
Qed.

Lemma keys_delitem_incl d k : incl (keys (delitem d k)) (keys d).
Proof.
  unfold keys, delitem. intros x Hx. apply in_map_iff in Hx.
  destruct Hx as (kv & <- & Hin). apply filter_In in Hin.
  apply in_map. tauto.
Qed.

Lemma NoDup_keys_setitem d k v : NoDup (keys d) -> NoDup (keys (setitem d k v)).
Proof.
  induction d as [|[k' v'] d IH]; simpl; intros Hnd.
  - repeat constructor. intros [].
  - inversion Hnd as [|? ? Hni Hnd']; subst.
    destruct (PyStr.eqb k' k) eqn:E; simpl; [now constructor|].
    constructor; [|now apply IH].
    intros Hin. apply keys_setitem_incl in Hin. destruct Hin as [Hin|Hin].
    + subst. now rewrite eqb_refl in E.
    + contradiction.
Qed.

Lemma NoDup_keys_delitem d k : NoDup (keys d) -> NoDup (keys (delitem d k)).
Proof.
  induction d as [|[k' v'] d IH]; simpl; intros Hnd; [constructor|].
  inversion Hnd as [|? ? Hni Hnd']; subst.
  destruct (PyStr.eqb k' k); simpl; [now apply IH|].
  constructor; [|now apply IH].
  intros Hin. apply keys_delitem_incl in Hin. contradiction.
Qed.

(* ===================================================================== *)
(** ** Facts about the persistence gateway *)
(* ===================================================================== *)

Ltac run_gateway :=
  unfold save_candidate, save_to_json, insert_candidate, first_item,
    list_append, read_candidates, write_candidates, path_exists, now,
    obj_setitem, store, load, try_except, bind, ret, raise, lift, gets,
    modify in *;
  cbn [fst snd heap remote_requests candidates_file ticks ui step
       generated_questions video_responses set_heap set_remote_requests
       set_candidates_file set_ticks set_ui set_step] in *.

Section Gateway.

Variable clock : nat -> str.
Variable read_fault : option exn.
Variable write_fault : write_outcome.

(** When the log can be read and written, [save_to_json] appends one entry
    and reports the fallback. *)
Lemma save_to_json_appends r msg s l :
  log_entries read_fault (candidates_file s) = Some l ->
  write_fault = WriteOk ->
  let out := save_to_json clock read_fault write_fault r msg s in
  fst out = Ok (fallback_success msg) /\
  candidates_file (snd out)
  = JsonFile (PList (l ++ [PDict (fallback_entry (heap s r) (clock (ticks s)) msg)])) /\
  heap (snd out) r = fallback_entry (heap s r) (clock (ticks s)) msg.
Proof.
  intros Hl Hw. subst write_fault. unfold log_entries in Hl. run_gateway.
  destruct (candidates_file s) as [|v|e] eqn:Ef.
  - inversion Hl; subst. cbn. rewrite Nat.eqb_refl. auto.
  - destruct v; try discriminate. destruct read_fault; [discriminate|].
    inversion Hl; subst. cbn. rewrite Ef. cbn. rewrite Nat.eqb_refl. auto.
  - discriminate.
Qed.

(** When the local append fails, [save_to_json] answers with the message
    of the exception that ended it. *)
Lemma save_to_json_failure r msg s :
  log_appendable read_fault write_fault (candidates_file s) = false ->
  exists json_error,
    local_failure read_fault write_fault (candidates_file s) = Some json_error /\
    fst (save_to_json clock read_fault write_fault r msg s)
    = Ok (not_persisted (exn_str json_error)).
Proof.
  unfold log_appendable, log_entries, local_failure. intros H. run_gateway.
  destruct (candidates_file s) as [|v|e] eqn:Ef.
  - destruct write_fault; try discriminate; cbn; eexists;
      (split; reflexivity).
  - destruct read_fault as [e|].
    + cbn. eexists; split; reflexivity.
    + cbn. rewrite Ef.
      destruct v; cbn; try (eexists; split; reflexivity).
      destruct write_fault; try discriminate; cbn; eexists;
        (split; reflexivity).
  - destruct read_fault as [e'|]; cbn; [|rewrite Ef; cbn];
      eexists; split; reflexivity.
Qed.

(** When the log cannot be read as a list or cannot be written,
    [save_to_json] reports that nothing was persisted. *)
Lemma save_to_json_not_persisted r msg s :
  log_appendable read_fault write_fault (candidates_file s) = false ->
  exists msg',
    fst (save_to_json clock read_fault write_fault r msg s)
    = Ok (not_persisted msg').
Proof.
  unfold log_appendable, log_entries. intros H. run_gateway.
  destruct (candidates_file s) as [|v|e] eqn:Ef.
  - destruct write_fault; try discriminate; cbn; eexists; reflexivity.
  - destruct read_fault as [e|].
    + cbn. eexists; reflexivity.
    + cbn. rewrite Ef.
      destruct v; cbn; try (eexists; reflexivity).
      destruct write_fault; try discriminate; cbn; eexists; reflexivity.
  - destruct read_fault as [e'|]; cbn; [|rewrite Ef; cbn];
      eexists; reflexivity.
Qed.

(** [save_to_json] never raises. *)
Lemma save_to_json_returns r msg s :
  exists out, fst (save_to_json clock read_fault write_fault r msg s) = Ok out.
Proof.
  destruct (log_appendable read_fault write_fault (candidates_file s)) eqn:E.
  - unfold log_appendable in E.
    destruct (log_entries read_fault (candidates_file s)) as [l|] eqn:El;
      [|discriminate].
    destruct write_fault eqn:Ew; try discriminate.
    destruct (save_to_json_appends r msg s l El Ew) as (H & _).
    eexists. rewrite <- Ew. exact H.
  - destruct (save_to_json_not_persisted r msg s E) as (m & H).
    eexists; exact H.
Qed.

(** What [save_to_json] does to the record: it sets the two keys once the
    log was read, and leaves the record alone when the read raises. *)
Lemma save_to_json_record r msg s :
  heap (snd (save_to_json clock read_fault write_fault r msg s)) r
  = if log_read_raises read_fault (candidates_file s)
    then heap s r
    else fallback_entry (heap s r) (clock (ticks s)) msg.
Proof.
  unfold log_read_raises. run_gateway.
  destruct (candidates_file s) as [|v|e] eqn:Ef.
  - destruct write_fault; cbn; now rewrite Nat.eqb_refl.
  - destruct read_fault as [e|]; cbn; [reflexivity|]. rewrite Ef.
    destruct v; cbn; try (now rewrite Nat.eqb_refl).
    destruct write_fault; cbn; now rewrite Nat.eqb_refl.
  - destruct read_fault as [e'|]; cbn; [|rewrite Ef; cbn]; reflexivity.
Qed.

(** What [save_to_json] leaves alone: the other objects, the remote
    requests and the session. *)
Lemma save_to_json_frame r msg s :
  let s' := snd (save_to_json clock read_fault write_fault r msg s) in
  (forall r', r' <> r -> heap s' r' = heap s r') /\
  remote_requests s' = remote_requests s /\
  step s' = step s /\ ui s' = ui s /\
  generated_questions s' = generated_questions s /\
  video_responses s' = video_responses s.
Proof.
  assert (Hne : forall r' (a b : dict), r' <> r ->
            (if Nat.eqb r' r then a else b) = b).
  { intros r' a b H. apply Nat.eqb_neq in H. now rewrite H. }
  run_gateway.
  destruct (candidates_file s) as [|v|e] eqn:Ef.
  - destruct write_fault; cbn; repeat split; auto;
      intros r' H; now rewrite !Hne.
  - destruct read_fault as [e|]; cbn; [repeat split; auto|]. rewrite Ef.
    destruct v; cbn; try (repeat split; auto; intros r' H; now rewrite !Hne).
    destruct write_fault; cbn; repeat split; auto;
      intros r' H; now rewrite !Hne.
  - destruct read_fault as [e'|]; cbn; [|rewrite Ef; cbn]; repeat split; auto.
Qed.

Variable self : SupabaseClient.

(** The remote path of [save_candidate]. *)
Lemma save_candidate_remote r s row :
  remote_outcome self (supabase_data (heap s r)) = Ok row ->
  save_candidate clock read_fault write_fault self r s
  = (Ok (remote_success row),
     set_remote_requests (remote_requests s ++ [supabase_data (heap s r)]) s).
Proof.
  unfold remote_outcome. intros H. run_gateway.
  destruct (execute_insert (supabase self) (supabase_data (heap s r)))
    as [[|x data]|e]; try discriminate.
  inversion H; subst. reflexivity.
Qed.

(** The fallback path of [save_candidate]. *)
Lemma save_candidate_fallback r s e :
  remote_outcome self (supabase_data (heap s r)) = Raise e ->
  save_candidate clock read_fault write_fault self r s
  = save_to_json clock read_fault write_fault r (exn_str e)
      (set_remote_requests (remote_requests s ++ [supabase_data (heap s r)]) s).
Proof.
  unfold remote_outcome. intros H.
  unfold save_candidate, insert_candidate, first_item, try_except, bind,
    load, lift, gets, modify, ret, raise.
  cbn [fst snd heap set_remote_requests].
  destruct (execute_insert (supabase self) (supabase_data (heap s r)))
    as [[|x data]|e']; try discriminate; inversion H; subst; reflexivity.
Qed.

(** [save_candidate] never raises, and hands exactly one row to the remote
    insert. *)
Lemma save_candidate_returns r s :
  exists out,
    fst (save_candidate clock read_fault write_fault self r s) = Ok out /\
    remote_requests (snd (save_candidate clock read_fault write_fault self r s))
    = remote_requests s ++ [supabase_data (heap s r)].
Proof.
  destruct (remote_outcome self (supabase_data (heap s r))) as [row|e] eqn:E.
  - rewrite (save_candidate_remote r s row E). eexists; split; reflexivity.
  - rewrite (save_candidate_fallback r s e E).
    destruct (save_to_json_returns r (exn_str e)
                (set_remote_requests
                   (remote_requests s ++ [supabase_data (heap s r)]) s))
      as (out & Hout).
    exists out. split; [exact Hout|].
    now destruct (save_to_json_frame r (exn_str e)
                (set_remote_requests
                   (remote_requests s ++ [supabase_data (heap s r)]) s))
      as (_ & -> & _).
Qed.

End Gateway.

(* ===================================================================== *)
(** ** The persistence gateway: fallback, frame, start-up *)
(* ===================================================================== *)

Lemma insert_raises_outcome (self : SupabaseClient) (row : dict) (e : exn) :
  execute_insert (supabase self) row = Raise e ->
  remote_outcome self row = Raise e.
Proof. unfold remote_outcome. now intros ->. Qed.

Lemma fallback_entry_lookup (record : dict) (t msg : str) :
  lookup (fallback_entry record t msg) (lit "supabase_error") = Some (PStr msg) /\
  lookup (fallback_entry record t msg) (lit "timestamp") = Some (PStr t) /\
  (forall k, k <> lit "timestamp" -> k <> lit "supabase_error" ->
             lookup (fallback_entry record t msg) k = lookup record k).
Proof.
  unfold fallback_entry. split; [|split].
  - apply lookup_setitem_same.
  - rewrite lookup_setitem_other by discriminate. apply lookup_setitem_same.
  - intros k H1 H2. rewrite !lookup_setitem_other by congruence. reflexivity.
Qed.

(** C3 (amended). When the remote insert raises an exception [e],
    [save_candidate] does not raise.  If the local log can be read and
    written, its answer is the local-fallback success carrying [str(e)], and
    the log is its former entries followed by exactly one new entry: the
    record with [timestamp] set to the current time and [supabase_error] set
    to [str(e)] (the captured message as it is, empty when the exception has
    no message), every other key as in the record.  If the local append
    fails, the answer is the not-persisted failure with the message of the
    local failure: [str] of the exception that ended the append, raised by
    reading the file, by [append] on a document that is not a list, or by
    writing the file. *)
Theorem C3_fallback_on_remote_failure
    (clock : nat -> str) (read_fault : option exn) (write_fault : write_outcome)
    (self : SupabaseClient) (r : ref) (s : mstate) (e : exn) :
  execute_insert (supabase self) (supabase_data (heap s r)) = Raise e ->
  let out := save_candidate clock read_fault write_fault self r s in
  let entry := fallback_entry (heap s r) (clock (ticks s)) (exn_str e) in
  (exists answer, fst out = Ok answer) /\
  (forall l,
     log_entries read_fault (candidates_file s) = Some l ->
     write_fault = WriteOk ->
     fst out = Ok (fallback_success (exn_str e)) /\
     candidates_file (snd out) = JsonFile (PList (l ++ [PDict entry]))) /\
  (lookup entry (lit "supabase_error") = Some (PStr (exn_str e)) /\
   lookup entry (lit "timestamp") = Some (PStr (clock (ticks s))) /\
   forall k, k <> lit "timestamp" -> k <> lit "supabase_error" ->
             lookup entry k = lookup (heap s r) k) /\
  (log_appendable read_fault write_fault (candidates_file s) = false ->
   exists json_error,
     local_failure read_fault write_fault (candidates_file s)
     = Some json_error /\
     fst out = Ok (not_persisted (exn_str json_error))).
Proof.
  intros He out entry. apply insert_raises_outcome in He.
  unfold out. rewrite (save_candidate_fallback clock read_fault write_fault
                         self r s e He).
  split; [apply save_to_json_returns|]. split; [|split].
  - intros l Hl Hw.
    destruct (save_to_json_appends clock read_fault write_fault r (exn_str e)
                (set_remote_requests
                   (remote_requests s ++ [supabase_data (heap s r)]) s)
                l Hl Hw) as (H1 & H2 & _).
    split; [exact H1 | exact H2].
  - apply fallback_entry_lookup.
  - intros H.
    exact (save_to_json_failure clock read_fault write_fault r (exn_str e)
             (set_remote_requests
                (remote_requests s ++ [supabase_data (heap s r)]) s) H).
Qed.

(** C3 at a refused connection, with one entry already in the log. *)
Lemma C3_fallback_on_remote_failure_witness :
  let e := mkexn "ConnectError" "connection refused" in
  let s := set_candidates_file (JsonFile (PList [PDict []])) (ada_state 3) in
  let out := save_candidate sample_clock None WriteOk (failing_client e) 0 s in
  fst out = Ok (fallback_success (lit "connection refused")) /\
  candidates_file (snd out)
  = JsonFile (PList [PDict [];
       PDict (ada_record ++ [ (lit "timestamp", PStr (sample_clock 0));
                              (lit "supabase_error",
                               PStr (lit "connection refused")) ])]).
Proof.
  intros e s out.
  destruct (C3_fallback_on_remote_failure sample_clock None WriteOk
              (failing_client e) 0 s e eq_refl) as (_ & H & _).
  exact (H [PDict []] eq_refl eq_refl).
Defined.

(** C3 as stated asks for a non-empty error string in the new entry.  A
    timeout whose exception has no message leaves an empty one, in the entry
    and in the answer. *)
Lemma C3_counterexample_empty_error_string :
  let e := {| exn_class := "ReadTimeout"; exn_str := [] |} in
  let out := save_candidate sample_clock None WriteOk (failing_client e) 0
               (ada_state 3) in
  fst out = Ok (fallback_success []) /\
  exists entry,
    candidates_file (snd out) = JsonFile (PList [PDict entry]) /\
    lookup entry (lit "supabase_error") = Some (PStr []).
Proof.
  cbv zeta. split; [reflexivity|]. eexists. split; reflexivity.
Qed.

(** C8 (amended). On the remote path [save_candidate] leaves every object
    as it was.  On the fallback path it writes into the caller's record
    itself: once the log was read the record has [timestamp] and
    [supabase_error] set (also when writing the log then fails), and only
    when reading the log raises is the record untouched.  On every path all
    other keys of the record and all other objects keep their values. *)
Theorem C8_record_after_save
    (clock : nat -> str) (read_fault : option exn) (write_fault : write_outcome)
    (self : SupabaseClient) (r : ref) (s : mstate) :
  let s' := snd (save_candidate clock read_fault write_fault self r s) in
  (forall row, remote_outcome self (supabase_data (heap s r)) = Ok row ->
               forall r', heap s' r' = heap s r') /\
  (forall e, remote_outcome self (supabase_data (heap s r)) = Raise e ->
             heap s' r
             = if log_read_raises read_fault (candidates_file s)
               then heap s r
               else fallback_entry (heap s r) (clock (ticks s)) (exn_str e)) /\
  (forall k, k <> lit "timestamp" -> k <> lit "supabase_error" ->
             lookup (heap s' r) k = lookup (heap s r) k) /\
  (forall r', r' <> r -> heap s' r' = heap s r').
Proof.
  intros s'. unfold s'.
  destruct (remote_outcome self (supabase_data (heap s r))) as [row|e] eqn:E.
  - rewrite (save_candidate_remote clock read_fault write_fault self r s row E).
    cbn. repeat split; auto; discriminate.
  - rewrite (save_candidate_fallback clock read_fault write_fault self r s e E).
    set (s1 := set_remote_requests _ s).
    pose proof (save_to_json_record clock read_fault write_fault r
                  (exn_str e) s1) as Hrec.
    pose proof (save_to_json_frame clock read_fault write_fault r
                  (exn_str e) s1) as (Hother & _).
    change (heap s1) with (heap s) in *. change (ticks s1) with (ticks s) in *.
    change (candidates_file s1) with (candidates_file s) in *.
    split; [discriminate|]. split; [|split].
    + intros e' He'. inversion He'; subst. exact Hrec.
    + intros k H1 H2. rewrite Hrec.
      destruct (log_read_raises read_fault (candidates_file s));
        [reflexivity|].
      now apply fallback_entry_lookup.
    + exact Hother.
Qed.

(** C8 as stated: the record holds the same keys and values after the
    call.  On the fallback path it has two keys more. *)
Lemma C8_counterexample_record_mutated :
  let e := mkexn "ConnectError" "connection refused" in
  let s := ada_state 3 in
  let s' := snd (save_candidate sample_clock None WriteOk (failing_client e)
                   0 s) in
  keys (heap s 0)
  = map lit ["name"; "email"; "position"; "experience";
             "programming_languages"]%string /\
  keys (heap s' 0)
  = map lit ["name"; "email"; "position"; "experience";
             "programming_languages"; "timestamp"; "supabase_error"]%string /\
  heap s' 0 <> heap s 0.
Proof.
  cbv zeta. split; [reflexivity|]. split; [reflexivity|].
  intros H. apply (f_equal (@length _)) in H. vm_compute in H. discriminate H.
Qed.

(** C2 (what the code does). With no credentials in the environment,
    [SupabaseClient()] calls [create_client(None, None)]; when that raises,
    as the [supabase] package does on a missing URL, the module-level
    statement that builds the client raises the same exception, before any
    save can be called. *)
Theorem C2_missing_credentials_raise_at_startup
    (getenv : str -> option str)
    (create_client : option str -> option str -> result Client) (e : exn) :
  getenv (lit "SUPABASE_URL") = None ->
  getenv (lit "SUPABASE_KEY") = None ->
  create_client None None = Raise e ->
  init_supabase_client getenv create_client None = Raise e.
Proof.
  intros Hu Hk Hc. unfold init_supabase_client, SupabaseClient_init.
  now rewrite Hu, Hk, Hc.
Qed.

(** C2 at an empty environment. *)
Lemma C2_missing_credentials_raise_at_startup_witness :
  init_supabase_client (fun _ => None)
    (sample_create_client (supabase accepting_client)) None
  = Raise (mkexn "SupabaseException" "supabase_url is required").
Proof.
  apply (C2_missing_credentials_raise_at_startup (fun _ => None)
           (sample_create_client (supabase accepting_client))
           (mkexn "SupabaseException" "supabase_url is required"));
    reflexivity.
Defined.

(* ===================================================================== *)
(** ** Text generation *)
(* ===================================================================== *)

(** C7. [get_ai_response] never raises and leaves the state alone.  When
    [requests.post] raises, when decoding the body raises, or when the body
    is not a JSON object, it returns the text "Connection error: ...";
    when the body is an object without the key [response] (the service's
    error replies), it returns the text "Sorry, I couldn't process that." *)
Theorem C7_get_ai_response_never_raises
    (requests_post : str -> dict -> Z -> result http_response)
    (prompt system_msg : str) (s : mstate) :
  let posted := requests_post (OLLAMA_base_url ++ lit "/api/generate")
                              (ai_payload prompt system_msg) 30%Z in
  let diagnostic e := (Ok (PStr (connection_error_text e)), s) in
  (exists v, get_ai_response requests_post prompt system_msg s = (Ok v, s)) /\
  get_ai_response requests_post prompt system_msg s
  = match posted with
    | Raise e => diagnostic e
    | Ok response =>
        match response_json response with
        | Raise e => diagnostic e
        | Ok (PDict d) =>
            match lookup d (lit "response") with
            | Some v => (Ok v, s)
            | None => (Ok (PStr NO_RESPONSE_TEXT), s)
            end
        | Ok body => diagnostic (attribute_error body "get")
        end
    end.
Proof.
  cbv zeta. unfold get_ai_response, try_except, bind, lift, method_get, ret,
    raise, get_default.
  destruct (requests_post _ _ _) as [response|e].
  - destruct (response_json response) as [body|e].
    + destruct body; try (split; [eexists|]; reflexivity).
      destruct (lookup d (lit "response")); split; try eexists; reflexivity.
    + split; [eexists|]; reflexivity.
  - split; [eexists|]; reflexivity.
Qed.

(* ===================================================================== *)
(** ** The Questions screen *)
(* ===================================================================== *)

Section Screen.

Variable clock : nat -> str.
Variable read_fault : option exn.
Variable write_fault : write_outcome.
Variable validators_url : str -> bool.
Variable self : SupabaseClient.

(** [save_candidate_hybrid] never raises; it answers [True] exactly when
    the remote insert returned a row or the local append went through, and
    it hands exactly one row to the remote insert. *)
Lemma save_candidate_hybrid_spec r s :
  exists s',
    save_candidate_hybrid clock read_fault write_fault self r s
    = (Ok (remote_accepts self (supabase_data (heap s r))
           || log_appendable read_fault write_fault (candidates_file s)), s') /\
    remote_requests s' = remote_requests s ++ [supabase_data (heap s r)] /\
    step s' = step s /\
    video_responses s' = video_responses s /\
    generated_questions s' = generated_questions s.
Proof.
  unfold save_candidate_hybrid, remote_accepts, bind.
  destruct (remote_outcome self (supabase_data (heap s r))) as [row|e] eqn:E.
  - rewrite (save_candidate_remote clock read_fault write_fault self r s row E).
    eexists. split; [reflexivity|]. cbn. auto.
  - rewrite (save_candidate_fallback clock read_fault write_fault self r s e E).
    set (s1 := set_remote_requests _ s).
    pose proof (save_to_json_frame clock read_fault write_fault r
                  (exn_str e) s1) as (_ & Hreq & Hstep & _ & Hgq & Hvr).
    cbn [orb].
    destruct (log_appendable read_fault write_fault (candidates_file s)) eqn:Ea.
    + unfold log_appendable in Ea.
      destruct (log_entries read_fault (candidates_file s)) as [l|] eqn:El;
        [|discriminate].
      destruct write_fault eqn:Ew; try discriminate.
      destruct (save_to_json_appends clock read_fault WriteOk r (exn_str e)
                  s1 l El eq_refl) as (Hres & _).
      destruct (save_to_json clock read_fault WriteOk r (exn_str e) s1)
        as [res s2]. cbn [fst snd] in *. subst res.
      eexists. split; [reflexivity|]. cbn. auto.
    + destruct (save_to_json_not_persisted clock read_fault write_fault r
                  (exn_str e) s1 Ea) as (msg & Hres).
      destruct (save_to_json clock read_fault write_fault r (exn_str e) s1)
        as [res s2]. cbn [fst snd] in *. subst res.
      eexists. split; [reflexivity|]. cbn. auto.
Qed.


Ltac run_session :=
  unfold on_submit, session, obj_update, obj_delitem, store, load, st_error,
    bind, ret, raise, gets, modify;
  cbn [fst snd heap remote_requests candidates_file ticks ui step
       generated_questions video_responses set_heap set_remote_requests
       set_candidates_file set_ticks set_ui set_step
       set_video_responses set_generated_questions].

(** Too few responses: one aggregate error, nothing else changes. *)
Lemma on_submit_refused r n s vr :
  video_responses s = Some vr -> length vr < n ->
  on_submit clock read_fault write_fault self r n s
  = (Ok tt, set_ui (ui s ++ [StError ALL_LINKS_ERROR]) s).
Proof.
  intros Hvr Hlt. run_session. rewrite Hvr.
  apply Nat.ltb_lt in Hlt. now rewrite Hlt.
Qed.

(** Enough responses: one save, and step 4 exactly when the save reports
    success. *)
Lemma on_submit_accepted r n s vr text :
  video_responses s = Some vr -> generated_questions s = Some text ->
  n <= length vr ->
  let row := supabase_data (submitted_record (heap s r) vr text) in
  exists s',
    on_submit clock read_fault write_fault self r n s = (Ok tt, s') /\
    remote_requests s' = remote_requests s ++ [row] /\
    step s' = (if remote_accepts self row
                  || log_appendable read_fault write_fault (candidates_file s)
               then 4 else step s) /\
    video_responses s' = Some vr.
Proof.
  intros Hvr Hgq Hle row. run_session. rewrite Hvr. cbn beta iota.
  assert (Hge : (length vr <? n) = false) by (apply Nat.ltb_ge; exact Hle).
  rewrite Hge, Hgq. cbn beta iota. rewrite Nat.eqb_refl.
  unfold row, submitted_record.
  set (d := update (heap s r) _).
  destruct (contains d (lit "generated_questions")) eqn:Ec.
  all: cbn [fst snd heap set_heap];
    match goal with
    | |- context [save_candidate_hybrid _ _ _ _ ?r0 ?s1] =>
        destruct (save_candidate_hybrid_spec r0 s1)
          as (s' & Heq & Hreq & Hstep & Hvr' & _)
    end;
    rewrite Heq;
    cbn [heap set_heap candidates_file remote_requests step video_responses]
      in Hreq, Hstep, Hvr' |- *;
    rewrite ?Nat.eqb_refl in Hreq |- *;
    match goal with
    | |- context [if ?b then 4 else _] => destruct b
    end;
    eexists; (split; [reflexivity|]); cbn; rewrite Hreq, Hvr', Hvr;
    auto.
Qed.


Lemma responses_ok_length n vr : responses_ok n vr -> length vr <= n.
Proof.
  intros [Hnd Hincl].
  pose proof (NoDup_incl_length Hnd Hincl) as H.
  unfold keys in H. now rewrite !length_map, length_seq in H.
Qed.

Lemma question_key_in n i :
  i < n -> In (question_key (i + 1)) (map question_key (seq 1 n)).
Proof. intros H. apply in_map. apply in_seq. lia. Qed.

Lemma responses_ok_setitem n vr i v :
  responses_ok n vr -> i < n ->
  responses_ok n (setitem vr (question_key (i + 1)) v).
Proof.
  intros [Hnd Hincl] Hi. split; [now apply NoDup_keys_setitem|].
  intros k Hk. apply keys_setitem_incl in Hk. destruct Hk as [<-|Hk].
  - now apply question_key_in.
  - now apply Hincl.
Qed.

Lemma responses_ok_delitem n vr k :
  responses_ok n vr -> responses_ok n (delitem vr k).
Proof.
  intros [Hnd Hincl]. split; [now apply NoDup_keys_delitem|].
  intros k' Hk'. apply Hincl. now apply keys_delitem_incl in Hk'.
Qed.

Lemma same_but_responses_refl s : same_but_responses s s.
Proof. unfold same_but_responses. auto. Qed.

Lemma same_but_responses_trans s1 s2 s3 :
  same_but_responses s1 s2 -> same_but_responses s2 s3 ->
  same_but_responses s1 s3.
Proof.
  unfold same_but_responses.
  intros (H1 & H2 & H3 & H4 & H5) (K1 & K2 & K3 & K4 & K5).
  split; [intros r; now rewrite K1 | repeat split; congruence].
Qed.

Lemma vr_delete_if_present_spec n key s vr :
  video_responses s = Some vr -> responses_ok n vr ->
  exists s' vr',
    vr_delete_if_present key s = (Ok tt, s') /\
    video_responses s' = Some vr' /\ responses_ok n vr' /\
    same_but_responses s s' /\ ui s' = ui s.
Proof.
  intros Hvr Hok. unfold vr_delete_if_present, session, bind, gets, ret,
    modify. rewrite Hvr. cbn beta iota.
  destruct (contains vr key).
  - exists (set_video_responses (Some (delitem vr key)) s), (delitem vr key).
    split; [reflexivity|]. split; [reflexivity|].
    split; [now apply responses_ok_delitem|].
    split; [unfold same_but_responses; cbn; auto | reflexivity].
  - exists s, vr. split; [reflexivity|]. split; [exact Hvr|].
    split; [exact Hok|]. split; [apply same_but_responses_refl | reflexivity].
Qed.

(** One turn of the loop over the questions: it returns, keeps the
    responses well formed, and only touches the responses, the feedback and
    the clock. *)
Lemma question_turn_spec blocks loom_inputs n i s vr :
  video_responses s = Some vr -> responses_ok n vr -> i < n ->
  exists s' vr',
    question_turn clock validators_url blocks loom_inputs i s = (Ok tt, s') /\
    video_responses s' = Some vr' /\ responses_ok n vr' /\
    same_but_responses s s'.
Proof.
  intros Hvr Hok Hi. unfold question_turn.
  destruct (loom_inputs (i + 1)) as [|c link] eqn:El.
  - destruct (vr_delete_if_present_spec n (question_key (i + 1)) s vr Hvr Hok)
      as (s' & vr' & H1 & H2 & H3 & H4 & _).
    now exists s', vr'.
  - destruct (validate_loom_url validators_url (c :: link)).
    + unfold st_success, now, session, bind, gets, modify, ret.
      cbn [video_responses set_ui set_ticks]. rewrite Hvr. cbn beta iota.
      eexists. eexists. split; [reflexivity|]. split; [reflexivity|].
      split; [now apply responses_ok_setitem|].
      unfold same_but_responses. cbn. auto.
    + destruct (vr_delete_if_present_spec n (question_key (i + 1)) s vr Hvr Hok)
        as (s' & vr' & H1 & H2 & H3 & H4 & _).
      unfold bind. rewrite H1. unfold st_error, modify.
      eexists. exists vr'. split; [reflexivity|]. split; [exact H2|].
      split; [exact H3|].
      destruct H4 as (K1 & K2 & K3 & K4 & K5).
      unfold same_but_responses. cbn. auto.
Qed.

(** The loop over the questions. *)
Lemma question_turns_spec blocks loom_inputs n l s vr :
  video_responses s = Some vr -> responses_ok n vr ->
  Forall (fun i => i < n) l ->
  exists s' vr',
    for_each l (question_turn clock validators_url blocks loom_inputs) s
    = (Ok tt, s') /\
    video_responses s' = Some vr' /\ responses_ok n vr' /\
    same_but_responses s s'.
Proof.
  intros Hvr Hok Hall. revert s vr Hvr Hok.
  induction Hall as [|i l Hi _ IH]; intros s vr Hvr Hok.
  - exists s, vr. split; [reflexivity|]. split; [exact Hvr|].
    split; [exact Hok | apply same_but_responses_refl].
  - destruct (question_turn_spec blocks loom_inputs n i s vr Hvr Hok Hi)
      as (s1 & vr1 & H1 & Hvr1 & Hok1 & Hsame1).
    destruct (IH s1 vr1 Hvr1 Hok1) as (s2 & vr2 & H2 & Hvr2 & Hok2 & Hsame2).
    exists s2, vr2. cbn [for_each]. unfold bind at 1. rewrite H1.
    split; [exact H2|]. split; [exact Hvr2|]. split; [exact Hok2|].
    eapply same_but_responses_trans; eauto.
Qed.

End Screen.

(* ===================================================================== *)
(** ** Submission: the count check and the row sent to the remote datastore *)
(* ===================================================================== *)

Lemma seq_below n : Forall (fun i => i < n) (seq 0 n).
Proof. apply Forall_forall. intros i Hi. apply in_seq in Hi. lia. Qed.

Lemma lookup_submitted_record_questions record vr questions :
  lookup (submitted_record record vr questions) (lit "generated_questions")
  = None.
Proof.
  unfold submitted_record.
  set (d := update record _).
  destruct (contains d (lit "generated_questions")) eqn:E.
  - apply lookup_delitem_same.
  - unfold contains in E. now destruct (lookup d (lit "generated_questions")).
Qed.

Lemma lookup_submitted_record_other record vr questions k :
  k <> lit "video_responses" -> k <> lit "generated_questions_full_text" ->
  k <> lit "generated_questions" ->
  lookup (submitted_record record vr questions) k = lookup record k.
Proof.
  intros H1 H2 H3. unfold submitted_record, update. cbn [fold_left fst snd].
  match goal with |- context [if ?b then _ else _] => destruct b end.
  - rewrite lookup_delitem_other by congruence.
    rewrite !lookup_setitem_other by congruence. reflexivity.
  - rewrite !lookup_setitem_other by congruence. reflexivity.
Qed.

Lemma supabase_data_fields d :
  keys (supabase_data d) = REMOTE_FIELDS /\
  lookup (supabase_data d) (lit "status") = Some (PStr (lit "submitted")) /\
  lookup (supabase_data d) (lit "generated_questions")
  = Some (get d (lit "generated_questions")) /\
  lookup (supabase_data d) (lit "loom_video_url")
  = Some (get d (lit "loom_video_url")).
Proof. repeat split; reflexivity. Qed.

(** C1 (what the code does). At a submission with enough responses, exactly
    one row goes to the remote insert.  It has the fifteen fields, with
    [status] "submitted"; but its [generated_questions] is [None] whatever
    the session's question text is, and its [loom_video_url] is what the
    candidate record held under that key before, which no screen writes:
    the text and the links are stored in the record under the keys
    [generated_questions_full_text] and [video_responses], which the row
    does not read. *)
Theorem C1_remote_row_on_submit
    (clock : nat -> str) (read_fault : option exn) (write_fault : write_outcome)
    (self : SupabaseClient) (r : ref) (n : nat) (s : mstate)
    (vr : dict) (text : pyval) :
  video_responses s = Some vr ->
  generated_questions s = Some text ->
  n <= length vr ->
  let s' := snd (on_submit clock read_fault write_fault self r n s) in
  exists row,
    remote_requests s' = remote_requests s ++ [row] /\
    keys row = REMOTE_FIELDS /\
    lookup row (lit "status") = Some (PStr (lit "submitted")) /\
    lookup row (lit "generated_questions") = Some PNone /\
    lookup row (lit "loom_video_url")
    = Some (get (heap s r) (lit "loom_video_url")).
Proof.
  intros Hvr Hgq Hle s'.
  destruct (on_submit_accepted clock read_fault write_fault self r n s vr text
              Hvr Hgq Hle) as (s1 & Heq & Hreq & _).
  unfold s'. rewrite Heq. cbn [snd].
  eexists. split; [exact Hreq|].
  destruct (supabase_data_fields (submitted_record (heap s r) vr text))
    as (Hk & Hst & Hq & Hl).
  split; [exact Hk|]. split; [exact Hst|]. split.
  - rewrite Hq. unfold get, get_default.
    now rewrite lookup_submitted_record_questions.
  - rewrite Hl. unfold get, get_default.
    now rewrite lookup_submitted_record_other by discriminate.
Qed.

(** C1 at the session of [ada_record]: the session holds the question text
    and one accepted link, and the row sent holds neither. *)
Lemma C1_remote_row_on_submit_witness :
  generated_questions ada_submitting = Some (PStr one_question_reply) /\
  (exists response,
     video_responses ada_submitting = Some [(question_key 1, PDict response)] /\
     lookup response (lit "loom_url") = Some (PStr ada_link)) /\
  exists row,
    remote_requests
      (snd (on_submit sample_clock None WriteOk accepting_client 0 1
              ada_submitting)) = [row] /\
    lookup row (lit "generated_questions") = Some PNone /\
    lookup row (lit "loom_video_url") = Some PNone.
Proof.
  split; [reflexivity|]. split; [eexists; split; reflexivity|].
  destruct (C1_remote_row_on_submit sample_clock None WriteOk accepting_client
              0 1 ada_submitting _ _ eq_refl eq_refl (le_n 1))
    as (row & H1 & _ & _ & H4 & H5).
  exists row. split; [exact H1|]. split; [exact H4 | exact H5].
Defined.

(** With the question text in the session, a run of the screen is: the
    responses initialised if absent, the loop over the questions, then the
    handling of the form. *)
Lemma generate_questions_run
    (clock : nat -> str) (read_fault : option exn) (write_fault : write_outcome)
    (validators_url : str -> bool)
    (requests_post : str -> dict -> Z -> result http_response)
    (build_prompts : dict -> str * str)
    (self : SupabaseClient) (r : ref) (loom_inputs : nat -> str)
    (submitted : bool) (s : mstate) (text : str) :
  generated_questions s = Some (PStr text) ->
  generate_questions clock read_fault write_fault validators_url
    requests_post build_prompts self r loom_inputs submitted s
  = let blocks := question_blocks text in
    let s0 := match video_responses s with
              | None => set_video_responses (Some []) s
              | Some _ => s
              end in
    match for_each (seq 0 (length blocks))
            (question_turn clock validators_url blocks loom_inputs) s0 with
    | (Ok _, s1) =>
        if submitted
        then on_submit clock read_fault write_fault self r (length blocks) s1
        else (Ok tt, s1)
    | (Raise e, s1) => (Raise e, s1)
    end.
Proof.
  intros Hgq.
  unfold generate_questions, session, blocks_of, bind, gets, ret, modify.
  rewrite Hgq. cbn beta iota zeta.
  destruct (video_responses s);
    cbn [generated_questions set_video_responses]; rewrite Hgq;
    cbn beta iota;
    match goal with
    | |- context [for_each ?l ?f ?s0] => destruct (for_each l f s0) as [[[]|e] s1]
    end; try reflexivity; now destruct submitted.
Qed.

(** C4 (amended). On a submitted form of a session with [n] parsed
    questions, the run returns, and after the links of this run were
    handled the session holds at most [n] responses, under keys of the
    questions.  With fewer than [n]
    the session stays on the Questions screen, nothing is sent to the
    persistence gateway, and the last feedback is the aggregate error.  With
    exactly [n] (for [n = 0]: with none) the save is called exactly once,
    and the session moves to step 4 exactly when the save reports success:
    the remote insert returned a row or the local append went through; when
    both fail the session stays on the Questions screen. *)
Theorem C4_submit_gate
    (clock : nat -> str) (read_fault : option exn) (write_fault : write_outcome)
    (validators_url : str -> bool)
    (requests_post : str -> dict -> Z -> result http_response)
    (build_prompts : dict -> str * str)
    (self : SupabaseClient) (r : ref) (loom_inputs : nat -> str)
    (s : mstate) (text : str) :
  step s = 3 ->
  generated_questions s = Some (PStr text) ->
  match video_responses s with
  | None => True
  | Some vr => responses_ok (length (question_blocks text)) vr
  end ->
  let n := length (question_blocks text) in
  let out := generate_questions clock read_fault write_fault validators_url
               requests_post build_prompts self r loom_inputs true s in
  exists vr,
    fst out = Ok tt /\
    video_responses (snd out) = Some vr /\
    responses_ok n vr /\
    length vr <= n /\
    (length vr < n ->
       step (snd out) = 3 /\
       remote_requests (snd out) = remote_requests s /\
       exists shown, ui (snd out) = shown ++ [StError ALL_LINKS_ERROR]) /\
    (length vr = n ->
       let row := supabase_data (submitted_record (heap s r) vr (PStr text)) in
       remote_requests (snd out) = remote_requests s ++ [row] /\
       step (snd out)
       = if remote_accepts self row
            || log_appendable read_fault write_fault (candidates_file s)
         then 4 else 3).
Proof.
  intros Hstep Hgq Hvr n out.
  set (s0 := match video_responses s with
             | None => set_video_responses (Some []) s
             | Some _ => s
             end).
  assert (Hs0 : exists vr0, video_responses s0 = Some vr0 /\ responses_ok n vr0
                            /\ same_but_responses s s0).
  { unfold s0. destruct (video_responses s) as [vr0|] eqn:E.
    - exists vr0. repeat split; auto; apply Hvr.
    - exists []. split; [reflexivity|]. split.
      + split; [constructor | intros k []].
      + unfold same_but_responses. cbn. auto. }
  destruct Hs0 as (vr0 & Hvr0 & Hok0 & Hsame0).
  destruct (question_turns_spec clock validators_url (question_blocks text)
              loom_inputs n (seq 0 n) s0 vr0 Hvr0 Hok0 (seq_below n))
    as (s1 & vr1 & Hloop & Hvr1 & Hok1 & Hsame1).
  pose proof (same_but_responses_trans s s0 s1 Hsame0 Hsame1)
    as (Hheap & Hreq & Hfile & Hstep1 & Hgq1).
  assert (Hrun : out = on_submit clock read_fault write_fault self r n s1).
  { unfold out.
    rewrite (generate_questions_run clock read_fault write_fault
               validators_url requests_post build_prompts self r loom_inputs
               true s text Hgq).
    cbv zeta. fold n. fold s0. now rewrite Hloop. }
  rewrite Hrun. exists vr1.
  pose proof (responses_ok_length n vr1 Hok1) as Hlen.
  destruct (Nat.lt_ge_cases (length vr1) n) as [Hlt|Hge].
  - rewrite (on_submit_refused clock read_fault write_fault self r n s1 vr1
               Hvr1 Hlt).
    cbn [fst snd video_responses set_ui step remote_requests ui].
    split; [reflexivity|]. split; [exact Hvr1|]. split; [exact Hok1|].
    split; [exact Hlen|]. split.
    + intros _. split; [congruence|]. split; [exact Hreq|].
      eexists; reflexivity.
    + intros Heq. lia.
  - assert (Hgq1' : generated_questions s1 = Some (PStr text)) by congruence.
    destruct (on_submit_accepted clock read_fault write_fault self r n s1 vr1
                (PStr text) Hvr1 Hgq1' Hge)
      as (s2 & Heq & Hreq2 & Hstep2 & Hvr2).
    rewrite Heq. cbn [fst snd].
    split; [reflexivity|]. split; [exact Hvr2|]. split; [exact Hok1|].
    split; [exact Hlen|]. split.
    + intros Hlt. lia.
    + intros _. cbv zeta. rewrite Hreq2, Hstep2, Hheap, Hreq, Hfile, Hstep1, Hstep.
      split; reflexivity.
Qed.

(** C4 at a session with one question and its link typed in: the count
    matches, one row is sent, the remote insert returns it, and the session
    is at step 4. *)
Lemma C4_submit_gate_witness :
  let s := set_generated_questions (Some (PStr one_question_reply))
             (ada_state 3) in
  let out := generate_questions sample_clock None WriteOk sample_url_check
               unreachable_service empty_prompts accepting_client 0
               (fun _ => ada_link) true s in
  length (question_blocks one_question_reply) = 1 /\
  step (snd out) = 4 /\
  length (remote_requests (snd out)) = 1.
Proof.
  intros s out.
  destruct (C4_submit_gate sample_clock None WriteOk sample_url_check
              unreachable_service empty_prompts accepting_client 0
              (fun _ => ada_link) s one_question_reply eq_refl eq_refl I)
    as (vr & _ & Hvr & _ & _ & _ & Hsave).
  assert (Hn : length vr = length (question_blocks one_question_reply)).
  { vm_compute in Hvr. inversion Hvr. reflexivity. }
  destruct (Hsave Hn) as [Hreq Hstep].
  split; [reflexivity|]. split.
  - exact Hstep.
  - fold s in Hreq. fold out in Hreq. rewrite Hreq. reflexivity.
Defined.

(** C4 as stated makes the transition follow from the count alone.
    Here the text-generation service is unreachable, so the reply is the
    diagnostic text and there is no question; the form is submitted with no
    link, so the count equals the number of questions; the remote insert
    and the local write both fail.  The save was called once, and the
    session is still at step 3. *)
Lemma C4_counterexample_save_fails :
  let out := generate_questions sample_clock None
               (OpenFails (mkexn "PermissionError" "Permission denied"))
               sample_url_check unreachable_service empty_prompts
               (failing_client (mkexn "ConnectError" "connection refused"))
               0 (fun _ => []) true (ada_state 3) in
  exists text,
    generated_questions (snd out) = Some (PStr text) /\
    length (question_blocks text) = 0 /\
    video_responses (snd out) = Some [] /\
    fst out = Ok tt /\
    length (remote_requests (snd out)) = 1 /\
    step (snd out) = 3.
Proof.
  cbv zeta. eexists. split; [vm_compute; reflexivity|].
  repeat split; vm_compute; reflexivity.
Qed.

(* ===================================================================== *)
(** ** Further properties *)
(* ===================================================================== *)

(** X1. [save_candidate] never raises, whatever the client, the file system
    and the record do, and each call hands exactly one row, the projection
    of the record, to the remote insert. *)
Theorem X1_save_candidate_total
    (clock : nat -> str) (read_fault : option exn) (write_fault : write_outcome)
    (self : SupabaseClient) (r : ref) (s : mstate) :
  exists answer,
    fst (save_candidate clock read_fault write_fault self r s) = Ok answer /\
    remote_requests (snd (save_candidate clock read_fault write_fault self r s))
    = remote_requests s ++ [supabase_data (heap s r)].
Proof. apply save_candidate_returns. Qed.



(** X3. The group a hint or duration pattern captures: the line is the
    emoji, a space and a star, then the group, non-empty and without a
    star, then a star; what follows the closing star is not looked at. *)
Theorem X3_italic_group (emoji : char) (line g : str) :
  match_italic emoji line = Some g <->
  exists rest,
    line = [emoji; SPACE; STAR] ++ g ++ STAR :: rest /\
    g <> [] /\ forallb not_star g = true.
Proof. apply match_italic_spec. Qed.

(* ===================================================================== *)
(** ** The responses after a run are the valid links *)
(* ===================================================================== *)

Lemma lit_injective a b : lit a = lit b -> a = b.
Proof.
  unfold lit. intros H.
  assert (Hl : list_ascii_of_string a = list_ascii_of_string b).
  { revert H. generalize (list_ascii_of_string a) (list_ascii_of_string b).
    induction l as [|x l IH]; intros [|y l'] H; simpl in H;
      try discriminate; [reflexivity|].
    inversion H as [[Hx Hl]]. f_equal; [|now apply IH].
    rewrite <- (ascii_N_embedding x), <- (ascii_N_embedding y). now rewrite Hx. }
  rewrite <- (string_of_list_ascii_of_string a),
          <- (string_of_list_ascii_of_string b).
  now rewrite Hl.
Qed.

(** [str(n)] tells numbers apart. *)
Lemma of_nat_injective a b : of_nat a = of_nat b -> a = b.
Proof.
  unfold of_nat. intros H. apply lit_injective in H.
  assert (Hu : Nat.to_uint a = Nat.to_uint b).
  { pose proof (NilEmpty.usu (Nat.to_uint a)) as Ha.
    pose proof (NilEmpty.usu (Nat.to_uint b)) as Hb.
    rewrite H in Ha. rewrite Ha in Hb. now inversion Hb. }
  rewrite <- (DecimalNat.Unsigned.of_to a), <- (DecimalNat.Unsigned.of_to b).
  now rewrite Hu.
Qed.

Lemma question_key_injective a b : question_key a = question_key b -> a = b.
Proof.
  unfold question_key. intros H. apply app_inv_head in H.
  now apply of_nat_injective.
Qed.

Lemma in_keys_lookup d k : In k (keys d) <-> lookup d k <> None.
Proof.
  induction d as [|[k' v] d IH]; simpl.
  - split; [intros [] | congruence].
  - destruct (PyStr.eqb k' k) eqn:E.
    + apply eqb_eq in E. split; [discriminate | auto].
    + rewrite <- IH. split; [intros [H|H]; [|exact H] | auto].
      subst. now rewrite eqb_refl in E.
Qed.

Section Links.

Variable clock : nat -> str.
Variable validators_url : str -> bool.

Lemma vr_delete_if_present_lookup key s vr :
  video_responses s = Some vr ->
  exists s' vr',
    vr_delete_if_present key s = (Ok tt, s') /\
    ui s' = ui s /\
    video_responses s' = Some vr' /\
    lookup vr' key = None /\
    (forall k, k <> key -> lookup vr' k = lookup vr k).
Proof.
  intros Hvr. unfold vr_delete_if_present, session, bind, gets, ret, modify.
  rewrite Hvr. cbn beta iota.
  destruct (contains vr key) eqn:E.
  - eexists. exists (delitem vr key). split; [reflexivity|].
    split; [reflexivity|]. split; [reflexivity|]. split.
    + apply lookup_delitem_same.
    + intros k Hk. apply lookup_delitem_other. congruence.
  - exists s, vr. split; [reflexivity|]. split; [reflexivity|].
    split; [exact Hvr|]. split; [|reflexivity].
    unfold contains in E. now destruct (lookup vr key).
Qed.

(** One turn returns, settles the key of its question and touches no other
    key. *)
Lemma question_turn_lookup blocks loom_inputs i s vr :
  video_responses s = Some vr ->
  exists s' vr',
    question_turn clock validators_url blocks loom_inputs i s = (Ok tt, s') /\
    video_responses s' = Some vr' /\
    turn_outcome validators_url blocks loom_inputs i
      (lookup vr' (question_key (i + 1))) /\
    (forall k, k <> question_key (i + 1) -> lookup vr' k = lookup vr k).
Proof.
  intros Hvr. unfold question_turn, turn_outcome.
  destruct (loom_inputs (i + 1)) as [|c link] eqn:El.
  - destruct (vr_delete_if_present_lookup (question_key (i + 1)) s vr Hvr)
      as (s' & vr' & H0 & _ & H1 & H2 & H3).
    exists s', vr'. cbn [validate_loom_url]. auto.
  - destruct (validate_loom_url validators_url (c :: link)).
    + unfold st_success, now, session, bind, gets, modify, ret.
      cbn [video_responses set_ui set_ticks]. rewrite Hvr. cbn beta iota.
      eexists. eexists. split; [reflexivity|]. split; [reflexivity|]. split.
      * eexists. rewrite lookup_setitem_same. reflexivity.
      * intros k Hk. apply lookup_setitem_other. congruence.
    + destruct (vr_delete_if_present_lookup (question_key (i + 1)) s vr Hvr)
        as (s' & vr' & H0 & _ & H1 & H2 & H3).
      unfold bind. rewrite H0. unfold st_error, modify.
      eexists. exists vr'. split; [reflexivity|]. auto.
Qed.

(** The loop over distinct questions settles the key of each and touches
    no other key. *)
Lemma question_turns_lookup blocks loom_inputs l s vr :
  video_responses s = Some vr -> NoDup l ->
  exists s' vr',
    for_each l (question_turn clock validators_url blocks loom_inputs) s
    = (Ok tt, s') /\
    video_responses s' = Some vr' /\
    (forall i, In i l ->
       turn_outcome validators_url blocks loom_inputs i
         (lookup vr' (question_key (i + 1)))) /\
    (forall k, (forall i, In i l -> k <> question_key (i + 1)) ->
               lookup vr' k = lookup vr k).
Proof.
  intros Hvr Hnd. revert s vr Hvr.
  induction Hnd as [|i l Hni Hnd IH]; intros s vr Hvr.
  - exists s, vr. split; [reflexivity|]. split; [exact Hvr|].
    split; [intros i []|reflexivity].
  - destruct (question_turn_lookup blocks loom_inputs i s vr Hvr)
      as (s1 & vr1 & Hrun1 & Hvr1 & Hout1 & Hframe1).
    destruct (IH s1 vr1 Hvr1) as (s2 & vr2 & Hrun2 & Hvr2 & Hout2 & Hframe2).
    exists s2, vr2. cbn [for_each]. unfold bind at 1. rewrite Hrun1.
    split; [exact Hrun2|]. split; [exact Hvr2|]. split.
    + intros j [<-|Hj]; [|now apply Hout2].
      rewrite Hframe2; [exact Hout1|].
      intros j Hj Heq. apply question_key_injective in Heq.
      assert (i = j) by lia. now subst.
    + intros k Hk. rewrite Hframe2.
      * apply Hframe1. apply Hk. now left.
      * intros j Hj. apply Hk. now right.
Qed.

End Links.

Lemma on_submit_keeps_responses
    (clock : nat -> str) (read_fault : option exn) (write_fault : write_outcome)
    (self : SupabaseClient) (r : ref) (n : nat) (s : mstate)
    (vr : dict) (text : pyval) :
  video_responses s = Some vr -> generated_questions s = Some text ->
  fst (on_submit clock read_fault write_fault self r n s) = Ok tt /\
  video_responses (snd (on_submit clock read_fault write_fault self r n s))
  = Some vr.
Proof.
  intros Hvr Hgq. destruct (Nat.lt_ge_cases (length vr) n) as [Hlt|Hge].
  - rewrite (on_submit_refused clock read_fault write_fault self r n s vr
               Hvr Hlt). auto.
  - destruct (on_submit_accepted clock read_fault write_fault self r n s vr
                text Hvr Hgq Hge) as (s' & Heq & _ & _ & Hvr').
    rewrite Heq. auto.
Qed.

Lemma NoDup_question_keys l : NoDup l -> NoDup (map question_key l).
Proof.
  induction 1 as [|a l Hni Hnd IH]; simpl; constructor; [|exact IH].
  intros Hin. apply in_map_iff in Hin. destruct Hin as (b & Hb & Hin).
  apply question_key_injective in Hb. now subst.
Qed.

(** With the keys of the questions each settled by its link, the count of
    responses reaches the number of questions exactly when every link is
    valid. *)
Lemma full_count_iff_all_valid (valid : nat -> bool) (n : nat) (vr : dict) :
  responses_ok n vr ->
  (forall i, i < n ->
     (lookup vr (question_key (i + 1)) <> None <-> valid i = true)) ->
  (length vr = n <-> forall i, i < n -> valid i = true).
Proof.
  intros [Hnd Hincl] Hkeys.
  assert (Hlen : length (keys vr) = length vr) by apply length_map.
  assert (Hn : length (map question_key (seq 1 n)) = n)
    by now rewrite length_map, length_seq.
  split.
  - intros Hfull i Hi.
    apply Hkeys; [exact Hi|]. apply in_keys_lookup.
    assert (Hall : incl (map question_key (seq 1 n)) (keys vr)).
    { apply NoDup_length_incl; [exact Hnd | lia | exact Hincl]. }
    apply Hall. apply in_map. apply in_seq. lia.
  - intros Hall.
    assert (Hsub : incl (map question_key (seq 1 n)) (keys vr)).
    { intros k Hk. apply in_map_iff in Hk. destruct Hk as (j & <- & Hj).
      apply in_seq in Hj. apply in_keys_lookup.
      replace j with ((j - 1) + 1) by lia.
      apply Hkeys; [lia|]. apply Hall. lia. }
    assert (Hndq : NoDup (map question_key (seq 1 n))).
    { apply NoDup_question_keys, seq_NoDup. }
    pose proof (NoDup_incl_length Hndq Hsub).
    pose proof (NoDup_incl_length Hnd Hincl). lia.
Qed.

(** X4. After a run of the Questions screen, submitted or not, the session
    holds a response for question [i + 1] exactly when the link typed for
    it is valid, and that response carries this link and the parsed
    question; so the count of responses equals the number of questions
    exactly when every link of this run is valid. *)
Theorem X4_responses_are_the_valid_links
    (clock : nat -> str) (read_fault : option exn) (write_fault : write_outcome)
    (validators_url : str -> bool)
    (requests_post : str -> dict -> Z -> result http_response)
    (build_prompts : dict -> str * str)
    (self : SupabaseClient) (r : ref) (loom_inputs : nat -> str)
    (submitted : bool) (s : mstate) (text : str) :
  generated_questions s = Some (PStr text) ->
  match video_responses s with
  | None => True
  | Some vr => responses_ok (length (question_blocks text)) vr
  end ->
  let blocks := question_blocks text in
  let out := generate_questions clock read_fault write_fault validators_url
               requests_post build_prompts self r loom_inputs submitted s in
  exists vr,
    fst out = Ok tt /\
    video_responses (snd out) = Some vr /\
    (forall i, i < length blocks ->
       turn_outcome validators_url blocks loom_inputs i
         (lookup vr (question_key (i + 1)))) /\
    (length vr = length blocks <->
     forall i, i < length blocks ->
       validate_loom_url validators_url (loom_inputs (i + 1)) = true).
Proof.
  intros Hgq Hvr blocks out. unfold out.
  rewrite (generate_questions_run clock read_fault write_fault
             validators_url requests_post build_prompts self r loom_inputs
             submitted s text Hgq).
  cbv zeta. fold blocks. set (n := length blocks) in *.
  set (s0 := match video_responses s with
             | None => set_video_responses (Some []) s
             | Some _ => s
             end).
  assert (Hs0 : exists vr0, video_responses s0 = Some vr0 /\ responses_ok n vr0
                            /\ generated_questions s0 = Some (PStr text)).
  { unfold s0. destruct (video_responses s) as [vr0|] eqn:E.
    - exists vr0. auto.
    - exists []. split; [reflexivity|]. split; [|exact Hgq].
      split; [constructor | intros k []]. }
  destruct Hs0 as (vr0 & Hvr0 & Hok0 & Hgq0).
  destruct (question_turns_spec clock validators_url blocks loom_inputs n
              (seq 0 n) s0 vr0 Hvr0 Hok0 (seq_below n))
    as (s1 & vr1 & Hloop & Hvr1 & Hok1 & Hsame1).
  destruct (question_turns_lookup clock validators_url blocks loom_inputs
              (seq 0 n) s0 vr0 Hvr0 (seq_NoDup n 0))
    as (s1' & vr1' & Hloop' & Hvr1' & Hout & _).
  rewrite Hloop in Hloop'. inversion Hloop'; subst s1'.
  rewrite Hvr1 in Hvr1'. inversion Hvr1'; subst vr1'.
  rewrite Hloop.
  assert (Hgq1 : generated_questions s1 = Some (PStr text)).
  { destruct Hsame1 as (_ & _ & _ & _ & ->). exact Hgq0. }
  exists vr1.
  assert (Hturns : forall i, i < n ->
            turn_outcome validators_url blocks loom_inputs i
              (lookup vr1 (question_key (i + 1)))).
  { intros i Hi. apply Hout. apply in_seq. lia. }
  assert (Hcount : length vr1 = n <->
            forall i, i < n ->
              validate_loom_url validators_url (loom_inputs (i + 1)) = true).
  { apply (full_count_iff_all_valid
             (fun i => validate_loom_url validators_url (loom_inputs (i + 1)))
             n vr1 Hok1).
    intros i Hi. pose proof (Hturns i Hi) as Ht. unfold turn_outcome in Ht.
    destruct (validate_loom_url validators_url (loom_inputs (i + 1))).
    - destruct Ht as (t & ->). split; [reflexivity | discriminate].
    - rewrite Ht. split; [congruence | discriminate]. }
  destruct submitted.
  - destruct (on_submit_keeps_responses clock read_fault write_fault self r n
                s1 vr1 (PStr text) Hvr1 Hgq1) as (Hres & Hkeep).
    split; [exact Hres|]. split; [exact Hkeep|]. split; assumption.
  - cbn [fst snd]. split; [reflexivity|]. split; [exact Hvr1|].
    split; assumption.
Qed.

(** X4 at the session of [ada_record] with the link typed in: one valid
    link, one response. *)
Lemma X4_responses_are_the_valid_links_witness :
  let s := set_generated_questions (Some (PStr one_question_reply))
             (ada_state 3) in
  let out := generate_questions sample_clock None WriteOk sample_url_check
               unreachable_service empty_prompts accepting_client 0
               (fun _ => ada_link) false s in
  exists vr, video_responses (snd out) = Some vr /\ length vr = 1.
Proof.
  intros s out.
  destruct (X4_responses_are_the_valid_links sample_clock None WriteOk
              sample_url_check unreachable_service empty_prompts
              accepting_client 0 (fun _ => ada_link) false s
              one_question_reply eq_refl I)
    as (vr & _ & Hvr & _ & Hcount).
  exists vr. split; [exact Hvr|].
  apply Hcount. intros i _. reflexivity.
Defined.

(* ===================================================================== *)
(** ** Facts about [strip] *)
(* ===================================================================== *)

Lemma dropwhile_idem p s : dropwhile p (dropwhile p s) = dropwhile p s.
Proof.
  induction s as [|c s IH]; simpl; [reflexivity|].
  destruct (p c) eqn:E; [exact IH | simpl; now rewrite E].
Qed.

Lemma dropwhile_snoc_stop p l c :
  p c = false -> dropwhile p (l ++ [c]) = dropwhile p l ++ [c].
Proof.
  intros Hc. induction l as [|a l IH]; simpl.
  - now rewrite Hc.
  - destruct (p a); [exact IH | reflexivity].
Qed.

Lemma rstrip_keeps_head c t :
  isspace c = false -> exists t', rstrip (c :: t) = c :: t'.
Proof.
  intros Hc. unfold rstrip. simpl rev.
  rewrite (dropwhile_snoc_stop isspace (rev t) c Hc).
  rewrite rev_app_distr. simpl. eexists; reflexivity.
Qed.

Lemma rstrip_idem s : rstrip (rstrip s) = rstrip s.
Proof. unfold rstrip. now rewrite rev_involutive, dropwhile_idem. Qed.

(** A stripped string has no whitespace left to strip. *)
Lemma strip_idem s : strip (strip s) = strip s.
Proof.
  unfold strip.
  assert (H : lstrip (rstrip (lstrip s)) = rstrip (lstrip s)).
  { unfold lstrip at 2 3.
    destruct (dropwhile isspace s) as [|c t] eqn:E; [reflexivity|].
    pose proof (dropwhile_head isspace s c t E) as Hc.
    destruct (rstrip_keeps_head c t Hc) as (t' & Ht).
    rewrite Ht. unfold lstrip. simpl. now rewrite Hc. }
  rewrite H. apply rstrip_idem.
Qed.

(** A non-empty stripped string begins and ends with a character that is
    not whitespace. *)
Lemma strip_ends s c t :
  strip s = c :: t ->
  isspace c = false /\ isspace (last (c :: t) c) = false.
Proof.
  intros H. split.
  - unfold strip, lstrip in H.
    destruct (dropwhile isspace s) as [|c' t'] eqn:E; [discriminate|].
    pose proof (dropwhile_head isspace s c' t' E) as Hc.
    destruct (rstrip_keeps_head c' t' Hc) as (t'' & Ht).
    rewrite Ht in H. inversion H; now subst.
  - rewrite <- H. unfold strip, rstrip.
    destruct (dropwhile isspace (rev (lstrip s))) as [|a l] eqn:E.
    + unfold strip, rstrip in H. rewrite E in H. discriminate.
    + pose proof (dropwhile_head isspace _ a l E) as Ha.
      simpl rev. now rewrite last_last.
Qed.

(* ===================================================================== *)
(** ** The Basic Information and Technical Skills screens *)
(* ===================================================================== *)

Lemma for_each_st_error (errors : list str) (s : mstate) :
  exists s',
    for_each errors (fun error => st_error [Text error]) s = (Ok tt, s') /\
    ui s' = ui s ++ map (fun error => StError [Text error]) errors /\
    heap s' = heap s /\ step s' = step s /\
    remote_requests s' = remote_requests s /\
    candidates_file s' = candidates_file s /\
    generated_questions s' = generated_questions s /\
    video_responses s' = video_responses s.
Proof.
  revert s. induction errors as [|e errors IH]; intros s.
  - exists s. cbn. rewrite app_nil_r. repeat split; reflexivity.
  - destruct (IH (set_ui (ui s ++ [StError [Text e]]) s))
      as (s' & Hrun & Hui & Hrest).
    exists s'. cbn [for_each]. unfold bind, st_error at 1, modify.
    split; [exact Hrun|]. split; [|exact Hrest].
    rewrite Hui. cbn [ui set_ui map]. now rewrite <- app_assoc.
Qed.

Section Screens.

Variable validate_email : str -> result unit.
Variable is_EmailNotValidError : exn -> bool.

Lemma is_valid_email_run email s :
  is_valid_email validate_email is_EmailNotValidError email s
  = match validate_email email with
    | Ok _ => (Ok true, s)
    | Raise e => if is_EmailNotValidError e then (Ok false, s)
                 else (Raise e, s)
    end.
Proof.
  unfold is_valid_email, try_except_only, bind, lift, ret.
  destruct (validate_email email) as [[]|e]; reflexivity.
Qed.

Lemma basic_info_errors_run f s :
  raises_only_invalid validate_email is_EmailNotValidError (bi_email f) ->
  basic_info_errors validate_email is_EmailNotValidError f s
  = (Ok (basic_info_messages validate_email f), s).
Proof.
  intros Honly. unfold basic_info_errors, basic_info_messages, bind, ret.
  destruct (is_empty (strip (bi_name f))), (is_empty (strip (bi_position f))),
    (is_empty (strip (bi_email f))); try reflexivity;
    rewrite is_valid_email_run;
    destruct (validate_email (bi_email f)) as [[]|e] eqn:E; cbn;
    try reflexivity; now rewrite (Honly e E).
Qed.

End Screens.

Lemma extend_if_any_app (l sel : list str) : extend_if_any l sel = l ++ sel.
Proof. destruct sel; simpl; [now rewrite app_nil_r | reflexivity]. Qed.

Lemma all_selected_list_concat f :
  all_selected_list f
  = ts_languages f ++ ts_frontend f ++ ts_backend f ++ ts_databases f
    ++ ts_cloud_platforms f ++ ts_devops_tools f ++ ts_mobile f
    ++ ts_data_science f ++ ts_testing f ++ ts_cms_ecommerce f
    ++ ts_other_tech f.
Proof.
  unfold all_selected_list. cbv zeta. rewrite !extend_if_any_app.
  simpl. now rewrite <- !app_assoc.
Qed.

Lemma heap_after_store (r : ref) (d : dict) (s : mstate) :
  heap (snd (store r d s)) r = d /\
  forall r', r' <> r -> heap (snd (store r d s)) r' = heap s r'.
Proof.
  unfold store, modify. cbn. rewrite Nat.eqb_refl. split; [reflexivity|].
  intros r' H. apply Nat.eqb_neq in H. now rewrite H.
Qed.

(** X5. A submitted Basic Information form is accepted exactly when the
    name, the email and the position are not blank and [validate_email]
    accepts the email as typed.  Accepted, the six fields go into the
    candidate record (the texts stripped), the session moves to step 2 and
    nothing is shown.  Refused, the record and the step stay as they are and
    one message per failing field is shown, in the order name, email,
    position. *)
Theorem X5_basic_info_screen
    (validate_email : str -> result unit) (is_EmailNotValidError : exn -> bool)
    (r : ref) (f : basic_info_form) (s : mstate) :
  bi_submitted f = true ->
  raises_only_invalid validate_email is_EmailNotValidError (bi_email f) ->
  let out := collect_basic_info validate_email is_EmailNotValidError r f s in
  let accepted :=
    negb (is_empty (strip (bi_name f)))
    && (negb (is_empty (strip (bi_email f)))
        && returned (validate_email (bi_email f)))
    && negb (is_empty (strip (bi_position f))) in
  fst out = Ok tt /\
  (accepted = true <-> basic_info_messages validate_email f = []) /\
  (accepted = true ->
     step (snd out) = 2 /\ ui (snd out) = ui s /\
     heap (snd out) r = update (heap s r) (basic_info_fields f) /\
     forall r', r' <> r -> heap (snd out) r' = heap s r') /\
  (accepted = false ->
     step (snd out) = step s /\ heap (snd out) = heap s /\
     ui (snd out)
     = ui s ++ map (fun error => StError [Text error])
                   (basic_info_messages validate_email f)).
Proof.
  intros Hsub Honly out accepted.
  assert (Hacc : accepted = true <-> basic_info_messages validate_email f = []).
  { unfold accepted, basic_info_messages.
    destruct (is_empty (strip (bi_name f))), (is_empty (strip (bi_email f))),
      (returned (validate_email (bi_email f))),
      (is_empty (strip (bi_position f))); cbn; split; congruence. }
  assert (Hout : out
            = match basic_info_messages validate_email f with
              | [] => (Ok tt, set_step 2 (snd (store r (update (heap s r)
                                                 (basic_info_fields f)) s)))
              | (_ :: _) as errors =>
                  for_each errors (fun error => st_error [Text error]) s
              end).
  { unfold out, collect_basic_info. rewrite Hsub. unfold bind at 1.
    rewrite (basic_info_errors_run validate_email is_EmailNotValidError f s
               Honly).
    destruct (basic_info_messages validate_email f); reflexivity. }
  rewrite Hout.
  destruct (basic_info_messages validate_email f) as [|e errors] eqn:Em.
  - cbn [fst snd step ui set_step].
    destruct (heap_after_store r (update (heap s r) (basic_info_fields f)) s)
      as (Hr & Hother).
    split; [reflexivity|]. split; [exact Hacc|]. split.
    + intros _. change (heap (set_step 2 ?x)) with (heap x).
      split; [reflexivity|]. split; [reflexivity|]. split; assumption.
    + intros H. destruct Hacc as [_ Hacc]. rewrite Hacc in H; [discriminate|].
      reflexivity.
  - destruct (for_each_st_error (e :: errors) s)
      as (s' & Hrun & Hui & Hheap & Hstep & _).
    rewrite Hrun. cbn [fst snd].
    split; [reflexivity|]. split; [exact Hacc|]. split.
    + intros H. apply Hacc in H. discriminate.
    + intros _. auto.
Qed.

(** X5 at the form of the scenario. *)
Lemma X5_basic_info_screen_witness :
  let out := collect_basic_info sample_validate_email
               sample_is_EmailNotValidError 0 ada_basic_form (fresh_state 1) in
  step (snd out) = 2 /\
  lookup (heap (snd out) 0) (lit "name") = Some (PStr (lit "Ada Lovelace")).
Proof.
  intros out.
  assert (Honly : raises_only_invalid sample_validate_email
                    sample_is_EmailNotValidError (bi_email ada_basic_form)).
  { intros e He. vm_compute in He. discriminate He. }
  destruct (X5_basic_info_screen sample_validate_email
              sample_is_EmailNotValidError 0 ada_basic_form (fresh_state 1)
              eq_refl Honly) as (_ & _ & Hacc & _).
  destruct (Hacc eq_refl) as (Hstep & _ & Hheap & _).
  split; [exact Hstep|]. fold out in Hheap. rewrite Hheap. reflexivity.
Defined.

(** X6. A submitted Technical Skills form is refused exactly when all
    eleven selections are empty and the additional-skills text is blank:
    then one message is shown and the record and the step stay as they are.
    Otherwise the thirteen fields go into the candidate record, with
    [all_selected_tech_list] the selections joined in the order of the
    screen, and the session moves to step 3. *)
Theorem X6_tech_stack_screen (r : ref) (f : tech_stack_form) (s : mstate) :
  ts_submitted f = true ->
  let out := collect_tech_stack r f s in
  let selected :=
    ts_languages f ++ ts_frontend f ++ ts_backend f ++ ts_databases f
    ++ ts_cloud_platforms f ++ ts_devops_tools f ++ ts_mobile f
    ++ ts_data_science f ++ ts_testing f ++ ts_cms_ecommerce f
    ++ ts_other_tech f in
  fst out = Ok tt /\
  lookup (tech_stack_fields f) (lit "all_selected_tech_list")
  = Some (str_list selected) /\
  (selected = [] /\ strip (ts_additional_skills f) = [] ->
     step (snd out) = step s /\ heap (snd out) = heap s /\
     exists msg, ui (snd out) = ui s ++ [StError msg]) /\
  (selected <> [] \/ strip (ts_additional_skills f) <> [] ->
     step (snd out) = 3 /\ ui (snd out) = ui s /\
     heap (snd out) r = update (heap s r) (tech_stack_fields f) /\
     forall r', r' <> r -> heap (snd out) r' = heap s r').
Proof.
  intros Hsub out selected.
  assert (Hsel : all_selected_list f = selected)
    by apply all_selected_list_concat.
  unfold out, collect_tech_stack. rewrite Hsub, Hsel.
  split; [|split].
  - destruct (is_empty selected && is_empty (strip (ts_additional_skills f)));
      reflexivity.
  - change (lookup (tech_stack_fields f) (lit "all_selected_tech_list"))
      with (Some (str_list (all_selected_list f))).
    now rewrite Hsel.
  - split.
    + intros [H1 H2]. rewrite H1, H2. cbn.
      split; [reflexivity|]. split; [reflexivity|]. eexists; reflexivity.
    + intros H.
      assert (Hb : is_empty selected
                   && is_empty (strip (ts_additional_skills f)) = false).
      { destruct selected, (strip (ts_additional_skills f)); cbn; auto.
        destruct H; congruence. }
      rewrite Hb. unfold obj_update, load, bind, gets, modify.
      cbn [fst snd step ui set_step].
      destruct (heap_after_store r (update (heap s r) (tech_stack_fields f)) s)
        as (Hr & Hother).
      change (heap (set_step 3 ?x)) with (heap x).
      split; [reflexivity|]. split; [reflexivity|]. split; assumption.
Qed.

(** X6 at the form of the scenario. *)
Lemma X6_tech_stack_screen_witness :
  let out := collect_tech_stack 0 ada_tech_form (fresh_state 2) in
  step (snd out) = 3 /\
  lookup (heap (snd out) 0) (lit "all_selected_tech_list")
  = Some (str_list [lit "Python"; lit "React"; lit "PostgreSQL"; lit "Docker"]).
Proof.
  intros out.
  destruct (X6_tech_stack_screen 0 ada_tech_form (fresh_state 2) eq_refl)
    as (_ & _ & _ & Hacc).
  destruct Hacc as (Hstep & _ & Hheap & _); [left; discriminate|].
  split; [exact Hstep|]. fold out in Hheap. rewrite Hheap. reflexivity.
Defined.

(* ===================================================================== *)
(** ** From the forms to the stored record *)
(* ===================================================================== *)

Lemma wizard_row_spec fb ft vr text :
  supabase_data (submitted_record (wizard_record fb ft) vr text)
  = wizard_row fb ft.
Proof. reflexivity. Qed.

(* ===================================================================== *)
(** ** What the parts of the script leave alone *)
(* ===================================================================== *)

Section Frames.

Context {B : Type} (f : mstate -> B).

Lemma preserves_ret {A} (a : A) : preserves f (ret a).
Proof. intros s. reflexivity. Qed.

Lemma preserves_raise {A} (e : exn) : preserves f (@raise A e).
Proof. intros s. reflexivity. Qed.

Lemma preserves_lift {A} (r : result A) : preserves f (lift r).
Proof. intros s. reflexivity. Qed.

Lemma preserves_gets {A} (g : mstate -> A) : preserves f (gets g).
Proof. intros s. reflexivity. Qed.

Lemma preserves_modify (g : mstate -> mstate) :
  (forall s, f (g s) = f s) -> preserves f (modify g).
Proof. intros H s. apply H. Qed.

Lemma preserves_bind {A C} (m : M A) (k : A -> M C) :
  preserves f m -> (forall a, preserves f (k a)) -> preserves f (bind m k).
Proof.
  intros Hm Hk s. unfold bind. specialize (Hm s).
  destruct (m s) as [[a|e] s1]; cbn [snd] in *.
  - now rewrite Hk.
  - exact Hm.
Qed.

Lemma preserves_try_except {A} (body : M A) (handler : exn -> M A) :
  preserves f body -> (forall e, preserves f (handler e)) ->
  preserves f (try_except body handler).
Proof.
  intros Hm Hk s. unfold try_except. specialize (Hm s).
  destruct (body s) as [[a|e] s1]; cbn [snd] in *.
  - exact Hm.
  - now rewrite Hk.
Qed.

Lemma preserves_try_except_only {A} (body : M A) (is_instance : exn -> bool)
    (handler : exn -> M A) :
  preserves f body -> (forall e, preserves f (handler e)) ->
  preserves f (try_except_only body is_instance handler).
Proof.
  intros Hm Hk s. unfold try_except_only. specialize (Hm s).
  destruct (body s) as [[a|e] s1]; cbn [snd] in *; [exact Hm|].
  destruct (is_instance e); [now rewrite Hk | exact Hm].
Qed.

Lemma preserves_for_each {A} (l : list A) (body : A -> M unit) :
  (forall a, preserves f (body a)) -> preserves f (for_each l body).
Proof.
  intros Hb. induction l as [|a l IH]; cbn [for_each].
  - apply preserves_ret.
  - apply preserves_bind; [apply Hb | intros _; exact IH].
Qed.

Lemma preserves_if {A} (b : bool) (m1 m2 : M A) :
  preserves f m1 -> preserves f m2 -> preserves f (if b then m1 else m2).
Proof. now destruct b. Qed.

End Frames.

(** Solves [preserves f m] for a computation built from the operations of
    the monad, when [f] reads a field the modifications do not write. *)
Ltac frame :=
  repeat first
    [ apply preserves_ret | apply preserves_raise | apply preserves_lift
    | apply preserves_gets
    | apply preserves_modify; intros ?; reflexivity
    | apply preserves_bind; [|intros ?]
    | apply preserves_try_except; [|intros ?]
    | apply preserves_try_except_only; [|intros ?]
    | apply preserves_for_each; intros ?
    | apply preserves_if
    | match goal with
      | |- preserves _ (match ?x with _ => _ end) => destruct x
      | |- preserves _ (let (_, _) := ?x in _) => destruct x
      end ].

Section ScriptFrames.

Variable clock : nat -> str.
Variable read_fault : option exn.
Variable write_fault : write_outcome.
Variable validators_url : str -> bool.
Variable requests_post : str -> dict -> Z -> result http_response.
Variable build_prompts : dict -> str * str.
Variable validate_email : str -> result unit.
Variable is_EmailNotValidError : exn -> bool.

Lemma st_error_preserves {B} (f : mstate -> B) msg :
  (forall u s, f (set_ui u s) = f s) -> preserves f (st_error msg).
Proof. intros H. unfold st_error. apply preserves_modify. intros s. apply H. Qed.

Lemma save_candidate_hybrid_keeps_step self r :
  preserves step (save_candidate_hybrid clock read_fault write_fault self r).
Proof.
  unfold save_candidate_hybrid, save_candidate, save_to_json,
    insert_candidate, first_item, list_append, read_candidates,
    write_candidates, path_exists, now, obj_setitem, store, load, getitem,
    st_warning, st_success, st_error.
  frame.
Qed.


Lemma moves_bind {A C} (n : nat) (m : M A) (k : A -> M C) :
  preserves step m -> (forall a, stays_or_moves_to n (k a)) ->
  stays_or_moves_to n (bind m k).
Proof.
  intros Hm Hk s. unfold bind. specialize (Hm s).
  destruct (m s) as [[a|e] s1]; cbn [snd] in *.
  - rewrite <- Hm. apply Hk.
  - now left.
Qed.

Lemma preserves_stays {A} (n : nat) (m : M A) :
  preserves step m -> stays_or_moves_to n m.
Proof. intros H s. left. apply H. Qed.

Lemma question_turn_preserves {B} (f : mstate -> B) blocks loom_inputs i :
  (forall u s, f (set_ui u s) = f s) ->
  (forall n s, f (set_ticks n s) = f s) ->
  (forall v s, f (set_video_responses v s) = f s) ->
  preserves f (question_turn clock validators_url blocks loom_inputs i).
Proof.
  intros Hui Hticks Hvr. unfold question_turn.
  assert (Hdel : forall key, preserves f (vr_delete_if_present key)).
  { intros key. unfold vr_delete_if_present, session.
    apply preserves_bind.
    - apply preserves_bind; [apply preserves_gets|].
      intros [a|]; [apply preserves_ret | apply preserves_raise].
    - intros vr. apply preserves_if; [|apply preserves_ret].
      apply preserves_modify. intros s. apply Hvr. }
  destruct (loom_inputs (i + 1)) as [|c link]; [apply Hdel|].
  apply preserves_if.
  - apply preserves_bind.
    { unfold st_success. apply preserves_modify. intros s. apply Hui. }
    intros _. apply preserves_bind.
    { intros s. unfold now. cbn [snd]. apply Hticks. }
    intros t. apply preserves_bind.
    { unfold session. apply preserves_bind; [apply preserves_gets|].
      intros [a|]; [apply preserves_ret | apply preserves_raise]. }
    intros vr. apply preserves_modify. intros s. apply Hvr.
  - apply preserves_bind; [apply Hdel|].
    intros _. unfold st_error. apply preserves_modify. intros s. apply Hui.
Qed.

Lemma generate_enhanced_questions_preserves {B} (f : mstate -> B) r :
  preserves f (generate_enhanced_questions requests_post build_prompts r).
Proof.
  unfold generate_enhanced_questions, get_ai_response, method_get, load.
  apply preserves_bind; [apply preserves_gets|]. intros candidate.
  destruct (build_prompts candidate) as [prompt system_prompt].
  apply preserves_try_except; [|intros e; apply preserves_ret].
  apply preserves_bind; [apply preserves_lift|]. intros response.
  apply preserves_bind; [apply preserves_lift|]. intros body.
  destruct body; first [apply preserves_ret | apply preserves_raise].
Qed.

Lemma on_submit_moves self r n :
  stays_or_moves_to 4 (on_submit clock read_fault write_fault self r n).
Proof.
  unfold on_submit, session.
  apply moves_bind; [frame|]. intros vr.
  destruct (length vr <? n).
  - apply preserves_stays. unfold st_error. frame.
  - apply moves_bind; [frame|]. intros text.
    apply moves_bind; [unfold obj_update, load, store; frame|].
    intros _. apply moves_bind; [unfold load; frame|]. intros record.
    apply moves_bind.
    { apply preserves_if; [unfold obj_delitem, load, store; frame | frame]. }
    intros _. apply moves_bind;
      [apply save_candidate_hybrid_keeps_step|].
    intros [|] s; cbn; auto.
Qed.

(** A run of the form of the Questions screen leaves the step as it was or
    sets it to 4, whether it returns or raises. *)
Lemma generate_questions_moves self r loom_inputs submitted :
  stays_or_moves_to 4 (generate_questions clock read_fault write_fault
                  validators_url requests_post build_prompts self r
                  loom_inputs submitted).
Proof.
  unfold generate_questions.
  apply moves_bind; [frame|]. intros have_questions.
  apply moves_bind.
  { destruct have_questions; [frame|].
    apply preserves_bind; [apply generate_enhanced_questions_preserves|].
    intros text. frame. }
  intros _. apply moves_bind; [frame|]. intros have_responses.
  apply moves_bind; [destruct have_responses; frame|].
  intros _. apply moves_bind; [unfold session; frame|].
  intros questions_text. apply moves_bind;
    [unfold blocks_of; destruct questions_text; frame|].
  intros blocks. apply moves_bind.
  { apply preserves_for_each. intros i.
    apply question_turn_preserves; reflexivity. }
  intros _. destruct submitted.
  - apply on_submit_moves.
  - apply preserves_stays. frame.
Qed.

End ScriptFrames.

(* ===================================================================== *)
(** ** The script as a state machine *)
(* ===================================================================== *)

Section ScriptRun.

Variable validate_email : str -> result unit.
Variable is_EmailNotValidError : exn -> bool.
Variable getenv : str -> option str.
Variable create_client : option str -> option str -> result Client.
Variable clock : nat -> str.
Variable read_fault : option exn.
Variable write_fault : write_outcome.
Variable validators_url : str -> bool.
Variable requests_post : str -> dict -> Z -> result http_response.
Variable build_prompts : dict -> str * str.
Variable completion_display : dict -> result unit.

Local Notation "'run_main'" :=
  (main validate_email is_EmailNotValidError clock read_fault write_fault
     validators_url requests_post build_prompts completion_display).
Local Notation "'run_script'" :=
  (script_run validate_email is_EmailNotValidError getenv create_client clock
     read_fault write_fault validators_url requests_post build_prompts
     completion_display).
Local Notation "'run_questions'" :=
  (questions_screen clock read_fault write_fault validators_url requests_post
     build_prompts).

Lemma show_welcome_moves begin : stays_or_moves_to 1 (show_welcome begin).
Proof. intros s. destruct begin; cbn; auto. Qed.

Lemma basic_info_errors_preserves {B} (f : mstate -> B) form :
  preserves f (basic_info_errors validate_email is_EmailNotValidError form).
Proof.
  unfold basic_info_errors. cbv zeta.
  apply preserves_bind; [|intros errors; apply preserves_ret].
  apply preserves_if; [apply preserves_ret|].
  apply preserves_bind.
  - unfold is_valid_email. apply preserves_try_except_only.
    + apply preserves_bind; [apply preserves_lift|].
      intros _. apply preserves_ret.
    + intros e. apply preserves_ret.
  - intros valid. apply preserves_if; apply preserves_ret.
Qed.

Lemma collect_basic_info_moves r f :
  stays_or_moves_to 2
    (collect_basic_info validate_email is_EmailNotValidError r f).
Proof.
  unfold collect_basic_info. destruct (bi_submitted f).
  - apply moves_bind; [apply basic_info_errors_preserves|].
    intros [|e errors].
    + apply moves_bind; [unfold obj_update, load, store; frame|].
      intros _ s. right. reflexivity.
    + apply preserves_stays. unfold st_error. frame.
  - apply preserves_stays. frame.
Qed.

Lemma collect_tech_stack_moves r f :
  stays_or_moves_to 3 (collect_tech_stack r f).
Proof.
  unfold collect_tech_stack. destruct (ts_submitted f).
  - destruct (is_empty (all_selected_list f)
              && is_empty (strip (ts_additional_skills f))).
    + apply preserves_stays. unfold st_error. frame.
    + apply moves_bind; [unfold obj_update, load, store; frame|].
      intros _ s. right. reflexivity.
  - apply preserves_stays. frame.
Qed.

Lemma show_completion_keeps_step r start_new :
  preserves step (show_completion completion_display r start_new).
Proof. unfold show_completion, st_success, load. frame. Qed.

Lemma show_completion_cleared r start_new s :
  fst (show_completion completion_display r start_new s) = Ok true ->
  start_new = true.
Proof.
  unfold show_completion, st_success, load, bind, modify, gets, lift, ret.
  cbn. destruct (completion_display _); cbn; [|discriminate].
  now intros H; inversion H.
Qed.

(** The Questions screen clears the session only on Start Over, and not in
    the run that moved to step 4. *)
Lemma questions_screen_spec self r w s :
  let out := run_questions self r w s in
  (step (snd out) = step s \/ step (snd out) = 4) /\
  (fst out = Ok true -> w_start_over w = true /\ step (snd out) = step s).
Proof.
  cbv zeta. unfold questions_screen, bind.
  pose proof (generate_questions_moves clock read_fault write_fault
                validators_url requests_post build_prompts self r
                (w_loom_inputs w) (w_submit_responses w) s) as Hmove.
  destruct (generate_questions _ _ _ _ _ _ _ _ _ _ s) as [[[]|e] s1];
    cbn [snd fst] in *.
  - unfold gets. destruct (Nat.eqb_spec (step s1) 4) as [H4|Hn4]; cbn.
    + split; [exact Hmove | discriminate].
    + split; [exact Hmove|]. intros H; inversion H.
      split; [reflexivity|]. destruct Hmove; congruence.
  - split; [exact Hmove | discriminate].
Qed.

Lemma main_with_step self r w s :
  run_main self r w true s
  = match step s with
    | 0 => bind (show_welcome (w_begin w)) (fun _ => ret false) s
    | 1 => bind (collect_basic_info validate_email is_EmailNotValidError r
                   (w_basic w)) (fun _ => ret false) s
    | 2 => bind (collect_tech_stack r (w_tech w)) (fun _ => ret false) s
    | 3 => run_questions self r w s
    | 4 => show_completion completion_display r (w_start_new w) s
    | _ => (Ok false, s)
    end.
Proof.
  unfold main, bind at 1, ret at 1. unfold bind at 1, gets at 1.
  destruct (step s) as [|[|[|[|[|n]]]]]; reflexivity.
Qed.

Lemma main_without_step self r w s :
  run_main self r w false s
  = bind (show_welcome (w_begin w)) (fun _ => ret false)
      (snd (store r [] (set_step 0 s))).
Proof. reflexivity. Qed.

Lemma bind_ret_false_spec (m : M unit) (s : mstate) :
  snd (bind m (fun _ => ret false) s) = snd (m s) /\
  fst (bind m (fun _ => ret false) s) <> Ok true.
Proof.
  unfold bind, ret. destruct (m s) as [[[]|e] s1]; cbn; split;
    try reflexivity; discriminate.
Qed.

(** One run of [main] in a session that has a step: the step stays or goes
    one up, never past 4; the session is cleared only by Start Over on the
    Questions screen or by Start New Assessment on the last screen. *)
Lemma main_step self r w s :
  let out := run_main self r w true s in
  (step (snd out) = step s \/
   (step (snd out) = S (step s) /\ step s < 4)) /\
  (fst out = Ok true ->
     (step s = 3 /\ w_start_over w = true) \/
     (step s = 4 /\ w_start_new w = true)).
Proof.
  cbv zeta. rewrite main_with_step.
  destruct (step s) as [|[|[|[|[|n]]]]] eqn:Es.
  - destruct (bind_ret_false_spec (show_welcome (w_begin w)) s) as [-> Hc].
    split; [|intros H; contradiction].
    destruct (show_welcome_moves (w_begin w) s) as [H|H]; rewrite H, ?Es;
      [left; reflexivity | right; split; [reflexivity | lia]].
  - destruct (bind_ret_false_spec
                (collect_basic_info validate_email is_EmailNotValidError r
                   (w_basic w)) s) as [-> Hc].
    split; [|intros H; contradiction].
    destruct (collect_basic_info_moves r (w_basic w) s) as [H|H];
      rewrite H, ?Es; [left; reflexivity | right; split; [reflexivity | lia]].
  - destruct (bind_ret_false_spec (collect_tech_stack r (w_tech w)) s)
      as [-> Hc].
    split; [|intros H; contradiction].
    destruct (collect_tech_stack_moves r (w_tech w) s) as [H|H];
      rewrite H, ?Es; [left; reflexivity | right; split; [reflexivity | lia]].
  - destruct (questions_screen_spec self r w s) as [Hmove Hclear].
    split.
    + destruct Hmove as [H|H]; rewrite H, ?Es;
        [left; reflexivity | right; split; [reflexivity | lia]].
    + intros H. left. split; [reflexivity|]. now apply Hclear.
  - split.
    + left. rewrite (show_completion_keeps_step r (w_start_new w) s).
      exact Es.
    + intros H. right. split; [reflexivity|].
      now apply show_completion_cleared in H.
  - cbn. split; [left; exact Es | discriminate].
Qed.


Lemma generate_questions_unsubmitted_preserves {B} (f : mstate -> B)
    self r loom_inputs :
  (forall u s, f (set_ui u s) = f s) ->
  (forall n s, f (set_ticks n s) = f s) ->
  (forall v s, f (set_video_responses v s) = f s) ->
  (forall v s, f (set_generated_questions v s) = f s) ->
  preserves f (generate_questions clock read_fault write_fault validators_url
                 requests_post build_prompts self r loom_inputs false).
Proof.
  intros Hui Hticks Hvr Hgq. unfold generate_questions.
  apply preserves_bind; [apply preserves_gets|]. intros have_questions.
  apply preserves_bind.
  { destruct have_questions; [apply preserves_ret|].
    apply preserves_bind; [apply generate_enhanced_questions_preserves|].
    intros text. apply preserves_modify. intros s. apply Hgq. }
  intros _. apply preserves_bind; [apply preserves_gets|].
  intros have_responses. apply preserves_bind.
  { destruct have_responses; [apply preserves_ret|].
    apply preserves_modify. intros s. apply Hvr. }
  intros _. apply preserves_bind; [unfold session; frame|].
  intros questions_text. apply preserves_bind;
    [unfold blocks_of; destruct questions_text; frame|].
  intros blocks. apply preserves_bind.
  { apply preserves_for_each. intros i.
    now apply question_turn_preserves. }
  intros _. apply preserves_ret.
Qed.

(** Outside a submission of the Questions form, a run of [main] leaves an
    observation alone that only the gateway writes. *)
Lemma main_preserves_outside_submit {B} (f : mstate -> B) self r w
    (has_step : bool) s :
  (forall u s, f (set_ui u s) = f s) ->
  (forall n s, f (set_ticks n s) = f s) ->
  (forall v s, f (set_video_responses v s) = f s) ->
  (forall v s, f (set_generated_questions v s) = f s) ->
  (forall n s, f (set_step n s) = f s) ->
  (forall h s, f (set_heap h s) = f s) ->
  (has_step = true -> step s = 3 -> w_submit_responses w = false) ->
  f (snd (run_main self r w has_step s)) = f s.
Proof.
  intros Hui Hticks Hvr Hgq Hstep Hheap Hsub.
  assert (Hwelcome : forall s0, f (snd (bind (show_welcome (w_begin w))
                                          (fun _ => ret false) s0)) = f s0).
  { intros s0. apply (preserves_bind f); [|intros; apply preserves_ret].
    unfold show_welcome. apply preserves_if; [|apply preserves_ret].
    apply preserves_modify. intros s1. apply Hstep. }
  destruct has_step.
  - rewrite main_with_step.
    destruct (step s) as [|[|[|[|[|n]]]]] eqn:Es.
    + apply Hwelcome.
    + apply (preserves_bind f); [|intros; apply preserves_ret].
      unfold collect_basic_info. apply preserves_if; [|apply preserves_ret].
      apply preserves_bind; [apply basic_info_errors_preserves|].
      intros [|e errors].
      * apply preserves_bind.
        { unfold obj_update, load, store. apply preserves_bind;
            [apply preserves_gets|]. intros d. apply preserves_modify.
          intros s1. apply Hheap. }
        intros _. apply preserves_modify. intros s1. apply Hstep.
      * apply preserves_for_each. intros error. unfold st_error.
        apply preserves_modify. intros s1. apply Hui.
    + apply (preserves_bind f); [|intros; apply preserves_ret].
      unfold collect_tech_stack. apply preserves_if; [|apply preserves_ret].
      apply preserves_if.
      * unfold st_error. apply preserves_modify. intros s1. apply Hui.
      * apply preserves_bind.
        { unfold obj_update, load, store. apply preserves_bind;
            [apply preserves_gets|]. intros d. apply preserves_modify.
          intros s1. apply Hheap. }
        intros _. apply preserves_modify. intros s1. apply Hstep.
    + unfold questions_screen. rewrite (Hsub eq_refl eq_refl).
      apply (preserves_bind f).
      * now apply generate_questions_unsubmitted_preserves.
      * intros _. apply preserves_bind; [apply preserves_gets|].
        intros now_at. apply preserves_if; apply preserves_ret.
    + unfold show_completion. apply (preserves_bind f).
      { unfold st_success. apply preserves_modify. intros s1. apply Hui. }
      intros _. apply preserves_bind; [apply preserves_gets|].
      intros record. apply preserves_bind; [apply preserves_lift|].
      intros _. apply preserves_ret.
    + reflexivity.
  - rewrite main_without_step. rewrite Hwelcome.
    unfold store, modify. cbn [snd]. now rewrite Hheap, Hstep.
Qed.

(** X7. In a session that has a step, one run of the script leaves the
    step where it is or moves it one up, never past 4, whether the run
    returns or raises; the only other outcome is a cleared session, and
    that takes the Start Over button on the Questions screen or the Start
    New Assessment button on the last screen. *)
Theorem X7_step_moves_forward (r : ref) (w : widgets) (b : browser) :
  b_has_step b = true ->
  let out := run_script r w b in
  (b_has_step (snd out) = true /\
   (step (b_state (snd out)) = step (b_state b) \/
    (step (b_state (snd out)) = S (step (b_state b)) /\
     step (b_state b) < 4))) \/
  (b_has_step (snd out) = false /\ fst out = Ok tt /\
   ((step (b_state b) = 3 /\ w_start_over w = true) \/
    (step (b_state b) = 4 /\ w_start_new w = true))).
Proof.
  intros Hstep. cbv zeta. unfold script_run.
  destruct (init_supabase_client getenv create_client (b_client b))
    as [self|e].
  - rewrite Hstep.
    pose proof (main_step self r w (b_state b)) as [Hmove Hclear].
    cbv zeta in Hmove, Hclear.
    destruct (run_main self r w true (b_state b)) as [[[|]|e] s'];
      cbn [fst snd b_has_step b_state] in *.
    + right. split; [reflexivity|]. split; [reflexivity|].
      now apply Hclear.
    + left. split; [reflexivity | exact Hmove].
    + left. split; [reflexivity | exact Hmove].
  - left. cbn [snd]. split; [exact Hstep | left; reflexivity].
Qed.

(** X8. The run after the session was cleared starts over with nothing
    carried along: when the client can be built, the session is on the
    Welcome screen (or one step on, if the button was pressed in that run)
    with an empty candidate record, no question text and no responses; the
    local log and the requests sent to the remote datastore are as they
    were.  When the client cannot be built the run raises and the session
    stays cleared. *)
Theorem X8_start_over_wipes_session (r : ref) (w : widgets) (s : mstate) :
  let out := run_script r w (cleared s) in
  match init_supabase_client getenv create_client None with
  | Raise e => out = (Raise e, cleared s)
  | Ok self =>
      fst out = Ok tt /\
      b_has_step (snd out) = true /\
      step (b_state (snd out)) = (if w_begin w then 1 else 0) /\
      heap (b_state (snd out)) r = [] /\
      generated_questions (b_state (snd out)) = None /\
      video_responses (b_state (snd out)) = None /\
      candidates_file (b_state (snd out)) = candidates_file s /\
      remote_requests (b_state (snd out)) = remote_requests s
  end.
Proof.
  cbv zeta. unfold script_run. cbn [b_client b_has_step b_state cleared].
  destruct (init_supabase_client getenv create_client None) as [self|e];
    [|reflexivity].
  rewrite main_without_step. unfold show_welcome, store, bind, modify, ret.
  destruct (w_begin w); cbn; rewrite Nat.eqb_refl; repeat split.
Qed.

(** X9. The persistence gateway is reached from one place only: a run that
    is not a submission of the Questions form sends nothing to the remote
    datastore and leaves the local log as it is, on every screen and
    whether the run returns or raises. *)
Theorem X9_gateway_only_on_submit (r : ref) (w : widgets) (b : browser) :
  (b_has_step b = true -> step (b_state b) = 3 ->
   w_submit_responses w = false) ->
  let out := run_script r w b in
  remote_requests (b_state (snd out)) = remote_requests (b_state b) /\
  candidates_file (b_state (snd out)) = candidates_file (b_state b).
Proof.
  intros Hsub. cbv zeta. unfold script_run.
  destruct (init_supabase_client getenv create_client (b_client b))
    as [self|e]; [|split; reflexivity].
  pose proof (main_preserves_outside_submit remote_requests self r w
                (b_has_step b) (b_state b)) as Hreq.
  pose proof (main_preserves_outside_submit candidates_file self r w
                (b_has_step b) (b_state b)) as Hfile.
  destruct (run_main self r w (b_has_step b) (b_state b)) as [[[|]|e] s'];
    cbn [fst snd b_state cleared remote_requests candidates_file
         set_video_responses set_generated_questions] in *;
    split; (apply Hreq || apply Hfile); auto.
Qed.

End ScriptRun.

(** X7 at the scenario: the first run of a session that has its step at 1
    moves it to 2. *)
Lemma X7_step_moves_forward_witness :
  let b := {| b_client := Some accepting_client; b_has_step := true;
              b_state := fresh_state 1 |} in
  b_has_step (snd (ada_run ada_widgets b)) = true /\
  step (b_state (snd (ada_run ada_widgets b))) = 2.
Proof.
  intros b.
  destruct (X7_step_moves_forward sample_validate_email
              sample_is_EmailNotValidError sample_getenv
              (sample_create_client (supabase accepting_client)) sample_clock
              None WriteOk sample_url_check
              (replying_service one_question_reply) empty_prompts
              (fun _ => Ok tt) 0 ada_widgets b eq_refl)
    as [[H1 _]|[H1 _]].
  - split; [exact H1 | reflexivity].
  - vm_compute in H1. discriminate H1.
Defined.

(** X9 at the scenario: the run of the Basic Information screen. *)
Lemma X9_gateway_only_on_submit_witness :
  let b := {| b_client := Some accepting_client; b_has_step := true;
              b_state := fresh_state 1 |} in
  remote_requests (b_state (snd (ada_run ada_widgets b))) = [] /\
  candidates_file (b_state (snd (ada_run ada_widgets b))) = NoFile.
Proof.
  intros b.
  apply (X9_gateway_only_on_submit sample_validate_email
           sample_is_EmailNotValidError sample_getenv
           (sample_create_client (supabase accepting_client)) sample_clock
           None WriteOk sample_url_check
           (replying_service one_question_reply) empty_prompts
           (fun _ => Ok tt) 0 ada_widgets b).
  intros _ H. vm_compute in H. discriminate H.
Defined.

(* ===================================================================== *)
(** ** A whole session, from the Welcome screen to the stored record *)
(* ===================================================================== *)

Section Flow.

Variable validate_email : str -> result unit.
Variable is_EmailNotValidError : exn -> bool.
Variable getenv : str -> option str.
Variable create_client : option str -> option str -> result Client.
Variable clock : nat -> str.
Variable read_fault : option exn.
Variable write_fault : write_outcome.
Variable validators_url : str -> bool.
Variable requests_post : str -> dict -> Z -> result http_response.
Variable build_prompts : dict -> str * str.
Variable completion_display : dict -> result unit.
Variable r : ref.

Local Notation "'run_main'" :=
  (main validate_email is_EmailNotValidError clock read_fault write_fault
     validators_url requests_post build_prompts completion_display).
Local Notation "'run_script'" :=
  (script_run validate_email is_EmailNotValidError getenv create_client clock
     read_fault write_fault validators_url requests_post build_prompts
     completion_display r).
Local Notation "'run_form'" :=
  (generate_questions clock read_fault write_fault validators_url
     requests_post build_prompts).

Lemma collect_basic_info_accepted f s :
  basic_info_accepted validate_email f ->
  collect_basic_info validate_email is_EmailNotValidError r f s
  = (Ok tt, set_step 2 (snd (store r (update (heap s r)
                                        (basic_info_fields f)) s))).
Proof.
  intros (Hsub & Hn & He & Hp & Hv).
  assert (Honly : raises_only_invalid validate_email is_EmailNotValidError
                    (bi_email f)).
  { intros e H. rewrite H in Hv. discriminate. }
  assert (Hm : basic_info_messages validate_email f = []).
  { unfold basic_info_messages. rewrite Hv.
    destruct (strip (bi_name f)), (strip (bi_email f)),
      (strip (bi_position f)); try congruence. reflexivity. }
  unfold collect_basic_info. rewrite Hsub. unfold bind at 1.
  rewrite (basic_info_errors_run validate_email is_EmailNotValidError f s
             Honly), Hm.
  reflexivity.
Qed.

Lemma collect_tech_stack_accepted f s :
  tech_stack_accepted f ->
  collect_tech_stack r f s
  = (Ok tt, set_step 3 (snd (store r (update (heap s r)
                                        (tech_stack_fields f)) s))).
Proof.
  intros (Hsub & Hsel). unfold collect_tech_stack. rewrite Hsub.
  assert (Hb : is_empty (all_selected_list f)
               && is_empty (strip (ts_additional_skills f)) = false).
  { destruct (all_selected_list f), (strip (ts_additional_skills f));
      cbn; auto. destruct Hsel; congruence. }
  rewrite Hb. reflexivity.
Qed.

(** The first run of the form asks the service and keeps its reply. *)
Lemma generate_questions_first self loom_inputs submitted s text :
  generated_questions s = None -> service_replies requests_post text ->
  run_form self r loom_inputs submitted s
  = run_form self r loom_inputs submitted
      (set_generated_questions (Some (PStr text)) s).
Proof.
  intros Hgq Hreply.
  assert (Hgen : generate_enhanced_questions requests_post build_prompts r s
                 = (Ok (PStr text), s)).
  { unfold generate_enhanced_questions, load, bind at 1, gets.
    destruct (build_prompts (heap s r)) as [prompt system_prompt].
    unfold get_ai_response, try_except, bind, lift, method_get, ret,
      get_default.
    destruct (Hreply (OLLAMA_base_url ++ lit "/api/generate")
                (ai_payload prompt system_prompt) 30%Z) as (body & -> & Hb).
    cbn [response_json]. now rewrite Hb. }
  unfold generate_questions.
  unfold bind at 1. unfold gets at 1. rewrite Hgq.
  unfold bind at 1. unfold bind at 1. rewrite Hgen. unfold modify at 1.
  symmetry. unfold bind at 1. unfold gets at 1.
  cbn [generated_questions set_generated_questions]. unfold bind at 1.
  reflexivity.
Qed.

(** The loop of a run, from a session whose responses are well formed. *)
Lemma questions_loop text loom_inputs s :
  generated_questions s = Some (PStr text) ->
  match video_responses s with
  | None => True
  | Some vr => responses_ok (length (question_blocks text)) vr
  end ->
  let n := length (question_blocks text) in
  let s0 := match video_responses s with
            | None => set_video_responses (Some []) s
            | Some _ => s
            end in
  exists s1 vr1,
    for_each (seq 0 n)
      (question_turn clock validators_url (question_blocks text) loom_inputs)
      s0 = (Ok tt, s1) /\
    video_responses s1 = Some vr1 /\ responses_ok n vr1 /\
    same_but_responses s s1 /\
    (length vr1 = n <->
     forall i, i < n ->
       validate_loom_url validators_url (loom_inputs (i + 1)) = true).
Proof.
  intros Hgq Hvr n s0.
  assert (Hs0 : exists vr0, video_responses s0 = Some vr0 /\ responses_ok n vr0
                            /\ same_but_responses s s0).
  { unfold s0. destruct (video_responses s) as [vr0|] eqn:E.
    - exists vr0. split; [exact E|]. split; [exact Hvr|].
      apply same_but_responses_refl.
    - exists []. split; [reflexivity|]. split.
      + split; [constructor | intros k []].
      + unfold same_but_responses. cbn. auto. }
  destruct Hs0 as (vr0 & Hvr0 & Hok0 & Hsame0).
  destruct (question_turns_spec clock validators_url (question_blocks text)
              loom_inputs n (seq 0 n) s0 vr0 Hvr0 Hok0 (seq_below n))
    as (s1 & vr1 & Hloop & Hvr1 & Hok1 & Hsame1).
  destruct (question_turns_lookup clock validators_url (question_blocks text)
              loom_inputs (seq 0 n) s0 vr0 Hvr0 (seq_NoDup n 0))
    as (s1' & vr1' & Hloop' & Hvr1' & Hout & _).
  rewrite Hloop in Hloop'. inversion Hloop'; subst s1'.
  rewrite Hvr1 in Hvr1'. inversion Hvr1'; subst vr1'.
  exists s1, vr1. split; [exact Hloop|]. split; [exact Hvr1|].
  split; [exact Hok1|].
  split; [eapply same_but_responses_trans; eauto|].
  apply (full_count_iff_all_valid
           (fun i => validate_loom_url validators_url (loom_inputs (i + 1)))
           n vr1 Hok1).
  intros i Hi. assert (Hin : In i (seq 0 n)) by (apply in_seq; lia).
  pose proof (Hout i Hin) as Ht. unfold turn_outcome in Ht.
  destruct (validate_loom_url validators_url (loom_inputs (i + 1))).
  - destruct Ht as (t & ->). split; [reflexivity | discriminate].
  - rewrite Ht. split; [congruence | discriminate].
Qed.


(** After the save, [save_candidate_hybrid] only shows feedback. *)
Lemma save_candidate_hybrid_after_save {B} (f : mstate -> B) self s :
  (forall u s0, f (set_ui u s0) = f s0) ->
  f (snd (save_candidate_hybrid clock read_fault write_fault self r s))
  = f (snd (save_candidate clock read_fault write_fault self r s)).
Proof.
  intros Hui. unfold save_candidate_hybrid. unfold bind at 1.
  destruct (save_candidate clock read_fault write_fault self r s)
    as [[result|e] s1]; [|reflexivity].
  cbn [snd].
  match goal with
  | |- f (snd (?k s1)) = _ => assert (Hk : preserves f k)
  end.
  { unfold getitem, st_warning, st_success, st_error.
    apply preserves_bind.
    { destruct (lookup result (lit "success")); frame. }
    intros success. apply preserves_if.
    - apply preserves_bind; [|intros; apply preserves_ret].
      apply preserves_if.
      + apply preserves_bind.
        { destruct (lookup result (lit "error")); frame. }
        intros err. apply preserves_modify. intros s0. apply Hui.
      + apply preserves_modify. intros s0. apply Hui.
    - apply preserves_bind.
      { destruct (lookup result (lit "error")); frame. }
      intros err. apply preserves_bind; [|intros; apply preserves_ret].
      apply preserves_modify. intros s0. apply Hui. }
  apply Hk.
Qed.

(** A submission with enough responses: the record is completed, then
    saved. *)
Lemma on_submit_via_save self n s vr text :
  video_responses s = Some vr -> generated_questions s = Some text ->
  n <= length vr ->
  exists s1,
    heap s1 r = submitted_record (heap s r) vr text /\
    candidates_file s1 = candidates_file s /\ ticks s1 = ticks s /\
    remote_requests s1 = remote_requests s /\
    on_submit clock read_fault write_fault self r n s
    = match save_candidate_hybrid clock read_fault write_fault self r s1 with
      | (Ok true, s2) => (Ok tt, set_step 4 s2)
      | (Ok false, s2) => (Ok tt, s2)
      | (Raise e, s2) => (Raise e, s2)
      end.
Proof.
  intros Hvr Hgq Hle.
  unfold on_submit, session, obj_update, obj_delitem, store, load, st_error,
    bind, ret, raise, gets, modify.
  cbn [fst snd heap remote_requests candidates_file ticks ui step
       generated_questions video_responses set_heap].
  rewrite Hvr. cbn beta iota.
  assert (Hge : (length vr <? n) = false) by (apply Nat.ltb_ge; exact Hle).
  rewrite Hge, Hgq. cbn beta iota. rewrite Nat.eqb_refl.
  unfold submitted_record. set (d := update (heap s r) _).
  destruct (contains d (lit "generated_questions")) eqn:Ec;
    cbn [fst snd heap set_heap];
    match goal with
    | |- context [save_candidate_hybrid _ _ _ _ _ ?st] => exists st
    end;
    cbn [heap set_heap candidates_file ticks remote_requests];
    rewrite ?Nat.eqb_refl;
    (split; [reflexivity|]); (split; [reflexivity|]);
    (split; [reflexivity|]); (split; [reflexivity|]);
    match goal with
    | |- context [save_candidate_hybrid ?a ?b ?c ?d0 ?e ?st] =>
        destruct (save_candidate_hybrid a b c d0 e st) as [[[|]|e'] s2]
    end; reflexivity.
Qed.


Lemma lookup_submitted_record_added record vr text :
  lookup (submitted_record record vr text) (lit "video_responses")
  = Some (PDict vr) /\
  lookup (submitted_record record vr text)
         (lit "generated_questions_full_text") = Some text.
Proof.
  unfold submitted_record, update. cbn [fold_left fst snd].
  match goal with |- context [if ?b then _ else _] => destruct b end;
    rewrite ?lookup_delitem_other by discriminate; split;
    try apply lookup_setitem_same;
    rewrite lookup_setitem_other by discriminate;
    apply lookup_setitem_same.
Qed.

Lemma on_submit_fallback_log self n s vr text e l :
  video_responses s = Some vr -> generated_questions s = Some text ->
  n <= length vr ->
  remote_outcome self (supabase_data (submitted_record (heap s r) vr text))
  = Raise e ->
  log_entries read_fault (candidates_file s) = Some l ->
  write_fault = WriteOk ->
  candidates_file (snd (on_submit clock read_fault write_fault self r n s))
  = JsonFile (PList (l ++ [PDict (fallback_entry
                                    (submitted_record (heap s r) vr text)
                                    (clock (ticks s)) (exn_str e))])).
Proof.
  intros Hvr Hgq Hle Hremote Hlog Hw.
  destruct (on_submit_via_save self n s vr text Hvr Hgq Hle)
    as (s1 & Hheap & Hfile & Hticks & _ & Hrun).
  rewrite Hrun.
  pose proof (save_candidate_hybrid_after_save candidates_file self s1
                (fun _ _ => eq_refl)) as Hafter.
  assert (Hsave : candidates_file
                    (snd (save_candidate clock read_fault write_fault self r s1))
                  = JsonFile (PList (l ++ [PDict (fallback_entry
                                    (submitted_record (heap s r) vr text)
                                    (clock (ticks s)) (exn_str e))]))).
  { rewrite <- Hheap in Hremote.
    rewrite (save_candidate_fallback clock read_fault write_fault self r s1 e
               Hremote).
    rewrite <- Hfile in Hlog.
    destruct (save_to_json_appends clock read_fault write_fault r (exn_str e)
                (set_remote_requests
                   (remote_requests s1 ++ [supabase_data (heap s1 r)]) s1)
                l Hlog Hw) as (_ & H & _).
    rewrite H. cbn [heap ticks set_remote_requests].
    now rewrite Hheap, Hticks. }
  rewrite Hsave in Hafter.
  destruct (save_candidate_hybrid clock read_fault write_fault self r s1)
    as [[[|]|e'] s2]; cbn [snd candidates_file set_step] in *; exact Hafter.
Qed.


Lemma script_run_of_main self w b s' :
  b_client b = Some self ->
  run_main self r w (b_has_step b) (b_state b) = (Ok false, s') ->
  run_script w b
  = (Ok tt, {| b_client := Some self; b_has_step := true; b_state := s' |}).
Proof.
  intros Hc Hm. unfold script_run. rewrite Hc. cbn [init_supabase_client].
  now rewrite Hm.
Qed.

(** A run of the Questions screen that only renders the form: the first
    one asks the service for the questions. *)
Lemma questions_render_run self w s text :
  step s = 3 -> generated_questions s = None -> video_responses s = None ->
  service_replies requests_post text ->
  w_submit_responses w = false -> w_start_over w = false ->
  exists s' vr,
    run_main self r w true s = (Ok false, s') /\
    generated_questions s' = Some (PStr text) /\
    video_responses s' = Some vr /\
    responses_ok (length (question_blocks text)) vr /\
    (forall r', heap s' r' = heap s r') /\
    remote_requests s' = remote_requests s /\
    candidates_file s' = candidates_file s /\
    step s' = 3.
Proof.
  intros Hstep Hgq Hvr Hreply Hsub Hover.
  rewrite main_with_step, Hstep. unfold questions_screen. rewrite Hsub, Hover.
  unfold bind at 1.
  rewrite (generate_questions_first self (w_loom_inputs w) false s text Hgq
             Hreply).
  set (s0 := set_generated_questions (Some (PStr text)) s).
  assert (Hgq0 : generated_questions s0 = Some (PStr text)) by reflexivity.
  rewrite (generate_questions_run clock read_fault write_fault validators_url
             requests_post build_prompts self r (w_loom_inputs w) false s0
             text Hgq0).
  cbv zeta.
  assert (Hvr0 : match video_responses s0 with
                 | None => True
                 | Some vr => responses_ok (length (question_blocks text)) vr
                 end).
  { unfold s0. cbn [video_responses set_generated_questions]. now rewrite Hvr. }
  destruct (questions_loop text (w_loom_inputs w) s0 Hgq0 Hvr0)
    as (s1 & vr1 & Hloop & Hvr1 & Hok1 & Hsame & _).
  cbv zeta in Hloop. rewrite Hloop.
  destruct Hsame as (Hheap & Hreq & Hfile & Hstep1 & Hgq1).
  assert (Hs1 : step s1 = 3) by (rewrite Hstep1; exact Hstep).
  unfold bind, gets, ret. cbn beta iota zeta. rewrite Hs1. cbn [Nat.eqb].
  exists s1, vr1. split; [reflexivity|].
  split; [now rewrite Hgq1|]. split; [exact Hvr1|]. split; [exact Hok1|].
  split; [exact Hheap|]. split; [exact Hreq|]. split; [exact Hfile|].
  exact Hs1.
Qed.

(** A run of the Questions screen that submits the form with a valid link
    for every question. *)
Lemma questions_submit_run self w s text :
  step s = 3 -> generated_questions s = Some (PStr text) ->
  match video_responses s with
  | None => True
  | Some vr => responses_ok (length (question_blocks text)) vr
  end ->
  w_submit_responses w = true -> w_start_over w = false ->
  (forall i, i < length (question_blocks text) ->
     validate_loom_url validators_url (w_loom_inputs w (i + 1)) = true) ->
  exists s' vr,
    run_main self r w true s = (Ok false, s') /\
    remote_requests s'
    = remote_requests s
      ++ [supabase_data (submitted_record (heap s r) vr (PStr text))] /\
    step s' = (if remote_accepts self
                    (supabase_data (submitted_record (heap s r) vr (PStr text)))
                  || log_appendable read_fault write_fault (candidates_file s)
               then 4 else 3).
Proof.
  intros Hstep Hgq Hvr Hsub Hover Hvalid.
  rewrite main_with_step, Hstep. unfold questions_screen. rewrite Hsub, Hover.
  unfold bind at 1.
  rewrite (generate_questions_run clock read_fault write_fault validators_url
             requests_post build_prompts self r (w_loom_inputs w) true s
             text Hgq).
  cbv zeta.
  destruct (questions_loop text (w_loom_inputs w) s Hgq Hvr)
    as (s1 & vr1 & Hloop & Hvr1 & Hok1 & Hsame & Hcount).
  cbv zeta in Hloop. rewrite Hloop.
  destruct Hsame as (Hheap & Hreq & Hfile & Hstep1 & Hgq1).
  assert (Hfull : length (question_blocks text) <= length vr1).
  { apply Hcount in Hvalid. lia. }
  assert (Hgq1' : generated_questions s1 = Some (PStr text)) by congruence.
  destruct (on_submit_accepted clock read_fault write_fault self r
              (length (question_blocks text)) s1 vr1 (PStr text) Hvr1 Hgq1'
              Hfull) as (s2 & Hrun & Hreq2 & Hstep2 & _).
  rewrite Hrun. unfold bind, gets, ret. cbn beta iota zeta.
  rewrite Hheap, Hfile, Hstep1, Hstep in Hstep2. rewrite Hheap, Hreq in Hreq2.
  exists s2, vr1. split; [|split; [exact Hreq2 | exact Hstep2]].
  destruct (Nat.eqb (step s2) 4); reflexivity.
Qed.


(** X11. A whole session: in a new browser session, with credentials the
    client can be built from, the Welcome button, an accepted Basic
    Information form, an accepted Technical Skills form, a first rendering
    of the Questions screen (the service replying with [text]) and a
    submission with a valid link for every question send exactly one row to
    the remote datastore.  That row carries the name, email, phone,
    experience, position, location, programming languages, databases and
    cloud platforms of the forms; its [frameworks] and [tools] are empty
    lists and its [other_skills], [generated_questions] and
    [loom_video_url] are [None] whatever was selected and typed.  The
    session ends at step 4 when the remote insert returned a row or the
    local log could be appended to, and at step 3 otherwise. *)
Theorem X11_session_to_remote_row
    (client : Client) (text : str) (s : mstate) (w1 w2 w3 w4 w5 : widgets) :
  create_client (getenv (lit "SUPABASE_URL")) (getenv (lit "SUPABASE_KEY"))
  = Ok client ->
  w_begin w1 = true ->
  basic_info_accepted validate_email (w_basic w2) ->
  tech_stack_accepted (w_tech w3) ->
  service_replies requests_post text ->
  w_submit_responses w4 = false /\ w_start_over w4 = false ->
  w_submit_responses w5 = true /\ w_start_over w5 = false ->
  (forall i, i < length (question_blocks text) ->
     validate_loom_url validators_url (w_loom_inputs w5 (i + 1)) = true) ->
  let b1 := snd (run_script w1 (new_browser s)) in
  let b2 := snd (run_script w2 b1) in
  let b3 := snd (run_script w3 b2) in
  let b4 := snd (run_script w4 b3) in
  let b5 := snd (run_script w5 b4) in
  let row := wizard_row (w_basic w2) (w_tech w3) in
  remote_requests (b_state b5) = remote_requests s ++ [row] /\
  step (b_state b5)
  = (if remote_accepts {| supabase := client |} row
        || log_appendable read_fault write_fault (candidates_file s)
     then 4 else 3).
Proof.
  intros Hclient Hbegin Hbasic Htech Hreply [Hsub4 Hover4] [Hsub5 Hover5]
    Hvalid b1 b2 b3 b4 b5 row.
  set (self := {| supabase := client |}).
  (* the Welcome screen *)
  set (s1 := set_step 1 (snd (store r [] (set_step 0 (b_state (new_browser s)))))).
  assert (Hb1 : b1 = {| b_client := Some self; b_has_step := true;
                        b_state := s1 |}).
  { unfold b1, script_run, new_browser.
    cbn [b_client b_has_step b_state init_supabase_client].
    unfold SupabaseClient_init. rewrite Hclient.
    rewrite main_without_step. unfold show_welcome. rewrite Hbegin.
    reflexivity. }
  (* the Basic Information screen *)
  set (s2 := set_step 2 (snd (store r (update (heap s1 r)
                                         (basic_info_fields (w_basic w2)))
                                s1))).
  assert (Hb2 : b2 = {| b_client := Some self; b_has_step := true;
                        b_state := s2 |}).
  { unfold b2. rewrite Hb1.
    rewrite (script_run_of_main self w2
               {| b_client := Some self; b_has_step := true; b_state := s1 |}
               s2 eq_refl); [reflexivity|].
    cbn [b_has_step b_state]. rewrite main_with_step.
    change (step s1) with 1. unfold bind.
    now rewrite (collect_basic_info_accepted (w_basic w2) s1 Hbasic). }
  (* the Technical Skills screen *)
  set (s3 := set_step 3 (snd (store r (update (heap s2 r)
                                         (tech_stack_fields (w_tech w3)))
                                s2))).
  assert (Hb3 : b3 = {| b_client := Some self; b_has_step := true;
                        b_state := s3 |}).
  { unfold b3. rewrite Hb2.
    rewrite (script_run_of_main self w3
               {| b_client := Some self; b_has_step := true; b_state := s2 |}
               s3 eq_refl); [reflexivity|].
    cbn [b_has_step b_state]. rewrite main_with_step.
    change (step s2) with 2. unfold bind.
    now rewrite (collect_tech_stack_accepted (w_tech w3) s2 Htech). }
  assert (Hrecord : heap s3 r = wizard_record (w_basic w2) (w_tech w3)).
  { unfold s3, s2, s1, store, modify. cbn. now rewrite !Nat.eqb_refl. }
  (* the Questions screen, rendered *)
  destruct (questions_render_run self w4 s3 text eq_refl eq_refl eq_refl
              Hreply Hsub4 Hover4)
    as (s4 & vr4 & Hrun4 & Hgq4 & Hvr4 & Hok4 & Hheap4 & Hreq4 & Hfile4 & Hstep4).
  assert (Hb4 : b4 = {| b_client := Some self; b_has_step := true;
                        b_state := s4 |}).
  { unfold b4. rewrite Hb3.
    now rewrite (script_run_of_main self w4
                   {| b_client := Some self; b_has_step := true; b_state := s3 |}
                   s4 eq_refl Hrun4). }
  (* the Questions screen, submitted *)
  assert (Hvr4' : match video_responses s4 with
                  | None => True
                  | Some vr => responses_ok (length (question_blocks text)) vr
                  end) by now rewrite Hvr4.
  destruct (questions_submit_run self w5 s4 text Hstep4 Hgq4 Hvr4' Hsub5
              Hover5 Hvalid) as (s5 & vr5 & Hrun5 & Hreq5 & Hstep5).
  assert (Hb5 : b5 = {| b_client := Some self; b_has_step := true;
                        b_state := s5 |}).
  { unfold b5. rewrite Hb4.
    now rewrite (script_run_of_main self w5
                   {| b_client := Some self; b_has_step := true; b_state := s4 |}
                   s5 eq_refl Hrun5). }
  rewrite Hb5. cbn [b_state].
  rewrite Hheap4, Hrecord, wizard_row_spec in Hreq5, Hstep5.
  rewrite Hreq4, Hfile4 in *.
  split; [exact Hreq5 | exact Hstep5].
Qed.

End Flow.

(** X10. At a submission with enough responses whose remote insert raises
    [e], when the local log can be read and written the log gains one
    entry, and this entry holds what the remote row leaves out: the
    responses under [video_responses] and the question text under
    [generated_questions_full_text], beside [str(e)] under
    [supabase_error] and every other key of the candidate record; the
    session moves to step 4. *)
Theorem X10_fallback_entry_holds_the_record
    (clock : nat -> str) (read_fault : option exn) (write_fault : write_outcome)
    (self : SupabaseClient) (r : ref) (n : nat) (s : mstate)
    (vr : dict) (text : pyval) (e : exn) (l : list pyval) :
  video_responses s = Some vr -> generated_questions s = Some text ->
  n <= length vr ->
  remote_outcome self (supabase_data (submitted_record (heap s r) vr text))
  = Raise e ->
  log_entries read_fault (candidates_file s) = Some l ->
  write_fault = WriteOk ->
  let s' := snd (on_submit clock read_fault write_fault self r n s) in
  exists entry,
    candidates_file s' = JsonFile (PList (l ++ [PDict entry])) /\
    step s' = 4 /\
    lookup entry (lit "video_responses") = Some (PDict vr) /\
    lookup entry (lit "generated_questions_full_text") = Some text /\
    lookup entry (lit "supabase_error") = Some (PStr (exn_str e)) /\
    (forall k,
       ~ In k (map lit [ "video_responses"; "generated_questions_full_text";
                         "generated_questions"; "timestamp";
                         "supabase_error" ]%string) ->
       lookup entry k = lookup (heap s r) k).
Proof.
  intros Hvr Hgq Hle Hremote Hlog Hw s'.
  eexists. split.
  { apply (on_submit_fallback_log clock read_fault write_fault r self n s vr
             text e l Hvr Hgq Hle Hremote Hlog Hw). }
  destruct (fallback_entry_lookup (submitted_record (heap s r) vr text)
              (clock (ticks s)) (exn_str e)) as (Herr & _ & Hrest).
  destruct (lookup_submitted_record_added (heap s r) vr text) as (Hv & Ht).
  split; [|split; [|split; [|split]]].
  - destruct (on_submit_accepted clock read_fault write_fault self r n s vr
                text Hvr Hgq Hle) as (s2 & Heq & _ & Hstep & _).
    unfold s'. rewrite Heq. cbn [snd]. rewrite Hstep.
    unfold log_appendable. rewrite Hlog, Hw.
    now rewrite orb_true_r.
  - rewrite Hrest by discriminate. exact Hv.
  - rewrite Hrest by discriminate. exact Ht.
  - exact Herr.
  - intros k Hk. cbn [map In] in Hk.
    rewrite Hrest by (intros ->; apply Hk; auto 6).
    apply lookup_submitted_record_other; intros ->; apply Hk; auto 6.
Qed.

(** X10 at the session of [ada_record] with a remote datastore that cannot
    be reached. *)
Lemma X10_fallback_entry_holds_the_record_witness :
  let s' := snd (on_submit sample_clock None WriteOk
                   (failing_client (mkexn "ConnectError" "connection refused"))
                   0 1 ada_submitting) in
  exists entry,
    candidates_file s' = JsonFile (PList [PDict entry]) /\
    lookup entry (lit "generated_questions_full_text")
    = Some (PStr one_question_reply) /\
    lookup entry (lit "name") = Some (PStr (lit "Ada Lovelace")).
Proof.
  intros s'.
  destruct (X10_fallback_entry_holds_the_record sample_clock None WriteOk
              (failing_client (mkexn "ConnectError" "connection refused"))
              0 1 ada_submitting _ _
              (mkexn "ConnectError" "connection refused") []
              eq_refl eq_refl (le_n 1) eq_refl eq_refl eq_refl)
    as (entry & Hfile & _ & _ & Htext & _ & Hrest).
  exists entry. split; [exact Hfile|]. split; [exact Htext|].
  rewrite Hrest; [reflexivity|].
  cbn [map In]. intros [H|[H|[H|[H|[H|[]]]]]]; vm_compute in H; discriminate H.
Defined.

(** X11 at the session of the scenario: the forms of [ada_basic_form] and
    [ada_tech_form], one question, one valid link, a remote datastore that
    accepts the row. *)
Lemma X11_session_to_remote_row_witness :
  let b1 := snd (ada_run ada_widgets (new_browser (fresh_state 0))) in
  let b2 := snd (ada_run ada_widgets b1) in
  let b3 := snd (ada_run ada_widgets b2) in
  let b4 := snd (ada_run ada_widgets_idle b3) in
  let b5 := snd (ada_run ada_widgets b4) in
  remote_requests (b_state b5) = [wizard_row ada_basic_form ada_tech_form] /\
  step (b_state b5) = 4.
Proof.
  intros b1 b2 b3 b4 b5.
  assert (Hbasic : basic_info_accepted sample_validate_email ada_basic_form).
  { repeat split; try (intros H; vm_compute in H; discriminate H). }
  assert (Htech : tech_stack_accepted ada_tech_form).
  { split; [reflexivity|]. left. intros H. vm_compute in H. discriminate H. }
  assert (Hreply : service_replies (replying_service one_question_reply)
                     one_question_reply).
  { intros url payload timeout. eexists. split; reflexivity. }
  assert (Hvalid : forall i, i < length (question_blocks one_question_reply) ->
            validate_loom_url sample_url_check
              (w_loom_inputs ada_widgets (i + 1)) = true).
  { intros i _. cbn [w_loom_inputs ada_widgets]. vm_compute. reflexivity. }
  destruct (X11_session_to_remote_row sample_validate_email
              sample_is_EmailNotValidError sample_getenv
              (sample_create_client (supabase accepting_client)) sample_clock
              None WriteOk sample_url_check
              (replying_service one_question_reply) empty_prompts
              (fun _ => Ok tt) 0 (supabase accepting_client)
              one_question_reply (fresh_state 0)
              ada_widgets ada_widgets ada_widgets ada_widgets_idle ada_widgets
              eq_refl eq_refl Hbasic Htech Hreply
              (conj eq_refl eq_refl) (conj eq_refl eq_refl) Hvalid)
    as [Hrow Hstep].
  split; [exact Hrow | exact Hstep].
Defined.
(* ===================================================================== *)
(** ** The stored texts, the prompt of the questions, the local save *)
(* ===================================================================== *)

Lemma lookup_app d1 d2 k :
  lookup (d1 ++ d2) k
  = match lookup d1 k with Some v => Some v | None => lookup d2 k end.
Proof.
  induction d1 as [|[k' v'] d1 IH]; [reflexivity|].
  cbn [app lookup]. now destruct (PyStr.eqb k' k).
Qed.

(** After [d.update(other)] a key holds what its last binding in [other]
    gives it, and what it held in [d] when [other] has none. *)
Lemma lookup_update d other k :
  lookup (update d other) k
  = match lookup (rev other) k with
    | Some v => Some v
    | None => lookup d k
    end.
Proof.
  unfold update. revert d.
  induction other as [|[k' v'] other IH]; intros d; [reflexivity|].
  cbn [fold_left fst snd rev]. rewrite IH, lookup_app.
  destruct (lookup (rev other) k); [reflexivity|].
  cbn [lookup]. destruct (PyStr.eqb k' k) eqn:E.
  - apply eqb_eq in E. subst k'. apply lookup_setitem_same.
  - apply lookup_setitem_other. intros ->. now rewrite eqb_refl in E.
Qed.

(** X12. Once the Basic Information form is accepted, the five texts of
    the candidate record are stored stripped: stripping one of them again
    changes nothing.  The three required ones (name, email, position) are
    not empty, and begin and end with a character that is not whitespace. *)
Theorem X12_accepted_texts_are_trimmed
    (validate_email : str -> result unit) (is_EmailNotValidError : exn -> bool)
    (r : ref) (f : basic_info_form) (s : mstate) :
  basic_info_accepted validate_email f ->
  let record :=
    heap (snd (collect_basic_info validate_email is_EmailNotValidError r f s))
         r in
  (forall key,
     In key (map lit ["name"; "email"; "phone"; "position"; "location"]%string) ->
     exists t, lookup record key = Some (PStr t) /\ strip t = t) /\
  (forall key,
     In key (map lit ["name"; "email"; "position"]%string) ->
     exists c t,
       lookup record key = Some (PStr (c :: t)) /\
       isspace c = false /\ isspace (last (c :: t) c) = false).
Proof.
  intros Hacc record.
  assert (Hrecord : record = update (heap s r) (basic_info_fields f)).
  { unfold record.
    rewrite (collect_basic_info_accepted validate_email is_EmailNotValidError
               r f s Hacc).
    unfold store, modify. cbn. now rewrite Nat.eqb_refl. }
  destruct Hacc as (_ & Hname & Hemail & Hposition & _).
  assert (Hends : forall t, strip t <> [] ->
            exists c t', strip t = c :: t' /\
              isspace c = false /\ isspace (last (c :: t') c) = false).
  { intros t Ht. destruct (strip t) as [|c t'] eqn:E; [congruence|].
    exists c, t'. split; [reflexivity|]. exact (strip_ends t c t' E). }
  rewrite Hrecord. split.
  - intros key Hin. rewrite lookup_update. cbn [map In] in Hin.
    destruct Hin as [<-|[<-|[<-|[<-|[<-|[]]]]]]; eexists;
      (split; [reflexivity | apply strip_idem]).
  - intros key Hin. rewrite lookup_update. cbn [map In] in Hin.
    destruct Hin as [<-|[<-|[<-|[]]]].
    + destruct (Hends _ Hname) as (c & t & E & Hc).
      exists c, t. split; [|exact Hc]. rewrite <- E. reflexivity.
    + destruct (Hends _ Hemail) as (c & t & E & Hc).
      exists c, t. split; [|exact Hc]. rewrite <- E. reflexivity.
    + destruct (Hends _ Hposition) as (c & t & E & Hc).
      exists c, t. split; [|exact Hc]. rewrite <- E. reflexivity.
Qed.

(** X12 at the form of the scenario, typed with blanks around the name. *)
Lemma X12_accepted_texts_are_trimmed_witness :
  exists c t,
    lookup (heap (snd (collect_basic_info sample_validate_email
                         sample_is_EmailNotValidError 0 ada_basic_form
                         (fresh_state 1))) 0)
           (lit "name")
    = Some (PStr (c :: t)) /\
    isspace c = false /\ isspace (last (c :: t) c) = false.
Proof.
  assert (Hacc : basic_info_accepted sample_validate_email ada_basic_form).
  { repeat split; try (intros H; vm_compute in H; discriminate H). }
  destruct (X12_accepted_texts_are_trimmed sample_validate_email
              sample_is_EmailNotValidError 0 ada_basic_form (fresh_state 1)
              Hacc) as [_ Hrequired].
  exact (Hrequired (lit "name") (or_introl eq_refl)).
Defined.

(* --------------------------------------------------------------------- *)
(** *** The prompt *)

Lemma str_items_strings i l : str_items i (map PStr l) = Ok l.
Proof.
  revert i. induction l as [|x l IH]; intros i; [reflexivity|].
  cbn [map str_items]. now rewrite IH.
Qed.

Lemma join_value_str_list sep l : join_value sep (str_list l) = Ok (join sep l).
Proof.
  unfold join_value, str_list. cbn [iterate and_then].
  now rewrite str_items_strings.
Qed.

(** One [if] of the summary, on a field that holds a list of strings. *)
Lemma append_if_any_str_list candidate key label l selection :
  get candidate key = str_list selection ->
  append_if_any candidate key label l = Ok (l ++ summary_line label selection).
Proof.
  intros H. unfold append_if_any. rewrite H, join_value_str_list.
  destruct selection; cbn [str_list map truthy summary_line and_then].
  - now rewrite app_nil_r.
  - reflexivity.
Qed.

Ltac summary_step selection :=
  match goal with
  | |- context [append_if_any ?c ?k ?label ?l] =>
      rewrite (append_if_any_str_list c k label l selection eq_refl)
  end;
  cbn [and_then].

(** The summary of a record of the wizard is the summary of its form. *)
Lemma tech_summary_wizard_record fb ft :
  tech_summary (wizard_record fb ft) = Ok (form_summary ft).
Proof.
  unfold tech_summary.
  summary_step (ts_languages ft).
  summary_step (ts_frontend ft).
  summary_step (ts_backend ft).
  summary_step (ts_databases ft).
  summary_step (ts_cloud_platforms ft).
  summary_step (ts_devops_tools ft).
  summary_step (ts_mobile ft).
  summary_step (ts_data_science ft).
  summary_step (ts_testing ft).
  summary_step (ts_cms_ecommerce ft).
  summary_step (ts_other_tech ft).
  unfold form_summary. now rewrite <- !app_assoc.
Qed.

Lemma is_empty_app {A} (a b : list A) :
  is_empty (a ++ b) = is_empty a && is_empty b.
Proof. now destruct a. Qed.

Lemma is_empty_summary_line label l : is_empty (summary_line label l) = is_empty l.
Proof. now destruct l. Qed.

(** The summary has a line exactly when something was selected. *)
Lemma form_summary_empty ft :
  is_empty (form_summary ft) = is_empty (all_selected_list ft).
Proof.
  rewrite all_selected_list_concat. unfold form_summary.
  now rewrite !is_empty_app, !is_empty_summary_line.
Qed.

(** The level of each option of the select box. *)
Lemma experience_category_of_option float_eq_int v :
  In v EXPERIENCE_OPTIONS ->
  experience_category float_eq_int v = category_of_years v.
Proof.
  intros H. cbn in H.
  repeat (destruct H as [<-|H]; [reflexivity|]). destruct H.
Qed.

(** X13. The prompt of a candidate who went through the two forms: with
    the experience one of the options of the select box, building the
    prompt raises nothing, and its five parameters are
    - the level [junior]/[entry-level] for 0 to 2 years,
      [mid-level]/[intermediate] for 3 to 6, [senior]/[experienced] for 7
      to 10 and for the option [10+];
    - the experience as selected and the position as stored (never the
      default [developer]);
    - as skills, one line for each widget with a selection, in the order
      of the screen, joined by a semicolon; when nothing was selected, the
      text [no specific technical skills mentioned], whatever was written
      under Additional Skills. *)
Theorem X13_prompt_of_wizard_record
    (float_eq_int : Z -> Z -> Z -> bool)
    (fb : basic_info_form) (ft : tech_stack_form) :
  In (bi_experience fb) EXPERIENCE_OPTIONS ->
  parameters float_eq_int (wizard_record fb ft)
  = Ok {| exp_category := fst (category_of_years (bi_experience fb));
          exp_descriptor := snd (category_of_years (bi_experience fb));
          experience_level := bi_experience fb;
          tech_stack_text :=
            if is_empty (all_selected_list ft) then NO_SKILLS_TEXT
            else join (lit "; ") (form_summary ft);
          position := PStr (strip (bi_position fb)) |}.
Proof.
  intros Hexp. unfold parameters.
  change (get_default (wizard_record fb ft) (lit "experience") (PInt 0))
    with (bi_experience fb).
  change (get_default (wizard_record fb ft) (lit "position")
            (PStr (lit "developer")))
    with (PStr (strip (bi_position fb))).
  rewrite (experience_category_of_option float_eq_int _ Hexp).
  rewrite tech_summary_wizard_record, <- form_summary_empty.
  destruct (category_of_years (bi_experience fb)) as [category descriptor].
  cbn [and_then fst snd]. now destruct (form_summary ft).
Qed.

(** X13 at the forms of the scenario: five years, four selections. *)
Lemma X13_prompt_of_wizard_record_witness :
  exists p,
    parameters sample_float_eq_int (wizard_record ada_basic_form ada_tech_form)
    = Ok p /\
    exp_category p = lit "mid-level" /\
    tech_stack_text p
    = lit "Programming Languages: Python; Frontend Frameworks: React; Databases: PostgreSQL; DevOps & Development Tools: Docker".
Proof.
  eexists. split.
  - apply (X13_prompt_of_wizard_record sample_float_eq_int ada_basic_form
             ada_tech_form).
    cbn. do 5 right. left. reflexivity.
  - split; vm_compute; reflexivity.
Defined.

(** A read of a field of the prompt gives the same on two records that
    agree on the fields of the prompt. *)
Lemma get_default_agree c c' k default :
  (forall k, In k PROMPT_FIELDS -> lookup c k = lookup c' k) ->
  In k PROMPT_FIELDS ->
  get_default c k default = get_default c' k default.
Proof. intros H Hin. unfold get_default. now rewrite (H k Hin). Qed.

Lemma append_if_any_agree c c' k label l :
  (forall k, In k PROMPT_FIELDS -> lookup c k = lookup c' k) ->
  In k PROMPT_FIELDS ->
  append_if_any c k label l = append_if_any c' k label l.
Proof.
  intros H Hin. unfold append_if_any, get.
  now rewrite (get_default_agree c c' k PNone H Hin).
Qed.

Lemma and_then_ext {A B} (r r' : result A) (k k' : A -> result B) :
  r = r' -> (forall a, k a = k' a) -> and_then r k = and_then r' k'.
Proof. intros -> H. destruct r'; [apply H | reflexivity]. Qed.

Ltac prompt_field := cbn; repeat (try (left; reflexivity); right).

(** X14. The request to the text-generation service reads thirteen fields
    of the candidate record and nothing else: two records that agree on the
    experience, the position and the eleven selections give the same
    request, or raise the same exception before any request is made.  The
    name, the email, the phone, the location and the additional skills of
    the candidate are not part of it. *)
Theorem X14_prompt_reads_thirteen_fields
    (format_value : pyval -> str) (float_eq_int : Z -> Z -> Z -> bool)
    (c c' : dict) :
  (forall k, In k PROMPT_FIELDS -> lookup c k = lookup c' k) ->
  enhanced_request format_value float_eq_int c
  = enhanced_request format_value float_eq_int c'.
Proof.
  intros H.
  assert (Hsummary : tech_summary c = tech_summary c').
  { unfold tech_summary.
    repeat (apply and_then_ext;
            [apply (append_if_any_agree c c' _ _ _ H); prompt_field
            |intros ?]).
    apply (append_if_any_agree c c' _ _ _ H); prompt_field. }
  unfold enhanced_request, enhanced_prompts, parameters.
  rewrite (get_default_agree c c' (lit "experience") (PInt 0) H)
    by prompt_field.
  rewrite (get_default_agree c c' (lit "position") (PStr (lit "developer")) H)
    by prompt_field.
  now rewrite Hsummary.
Qed.

(** X14 at the record of the scenario and the same record under another
    name. *)
Lemma X14_prompt_reads_thirteen_fields_witness :
  let c := wizard_record ada_basic_form ada_tech_form in
  let c' := setitem c (lit "name") (PStr (lit "Grace Hopper")) in
  enhanced_request sample_format_value sample_float_eq_int c
  = enhanced_request sample_format_value sample_float_eq_int c'.
Proof.
  intros c c'.
  apply (X14_prompt_reads_thirteen_fields sample_format_value
           sample_float_eq_int c c').
  intros k Hin. cbn in Hin.
  repeat (destruct Hin as [<-|Hin]; [reflexivity|]). destruct Hin.
Defined.

(* --------------------------------------------------------------------- *)
(** *** The local save of [app.py] *)

Lemma timestamp_is_not_video_responses :
  lit "timestamp" <> lit "video_responses".
Proof. intros H. vm_compute in H. discriminate H. Qed.

Lemma get_after_timestamp record t :
  get (setitem record (lit "timestamp") (PStr t)) (lit "video_responses")
  = get record (lit "video_responses").
Proof.
  unfold get, get_default.
  now rewrite (lookup_setitem_other record (lit "timestamp") (PStr t)
                 (lit "video_responses") timestamp_is_not_video_responses).
Qed.

Ltac run_local_save :=
  unfold app.save_candidate, try_except, bind, path_exists, read_candidates,
    now, obj_setitem, load, store, list_append, write_candidates, st_error,
    gets, modify, ret, raise;
  cbn [fst snd heap remote_requests candidates_file ticks ui step
       generated_questions video_responses set_heap set_remote_requests
       set_candidates_file set_ticks set_ui set_step].

Ltac local_save_case :=
  split; [reflexivity|]; split; [reflexivity|]; split;
  [ let l := fresh "l" in
    let Hl := fresh "Hl" in
    intros l Hl Hw; try discriminate Hl; try discriminate Hw;
    inversion Hl; subst; cbn; (split; [|reflexivity])
  | let H := fresh "H" in
    intros H; try discriminate H;
    (split; [eexists; reflexivity
            |first [ left; first [reflexivity | assumption]
                   | right; do 2 eexists; split; reflexivity ]]) ].

(** X15. The local save of [app.py] never raises and never reaches the
    remote datastore.  It returns [True] exactly when the local log can be
    read as a list and written; the log then ends with one more entry, the
    record with its [timestamp] and with [has_video_responses] telling
    whether the record holds responses, and nothing is shown.  Otherwise
    it returns [False] and shows one error; the file is then as it was,
    except when [json.dump] raises after the file was opened for writing:
    the file is left with text that cannot be read back. *)
Theorem X15_local_save_appends_or_reports
    (clock : nat -> str) (read_fault : option exn) (write_fault : write_outcome)
    (data : ref) (s : mstate) :
  let out := app.save_candidate clock read_fault write_fault data s in
  let appendable :=
    log_appendable read_fault write_fault (candidates_file s) in
  fst out = Ok appendable /\
  remote_requests (snd out) = remote_requests s /\
  (forall l,
     log_entries read_fault (candidates_file s) = Some l ->
     write_fault = WriteOk ->
     candidates_file (snd out)
     = JsonFile (PList (l ++ [PDict (local_entry (heap s data)
                                       (clock (ticks s)))])) /\
     ui (snd out) = ui s) /\
  (appendable = false ->
     (exists msg, ui (snd out) = ui s ++ [StError msg]) /\
     (candidates_file (snd out) = candidates_file s \/
      exists e e', write_fault = DumpFails e e' /\
                   candidates_file (snd out) = BadFile e')).
Proof.
  intros out appendable. unfold out, appendable, log_appendable, log_entries.
  run_local_save.
  destruct (candidates_file s) as [|v|e] eqn:Ef.
  - destruct write_fault as [|e|e e']; cbn; rewrite ?Nat.eqb_refl;
      local_save_case.
    unfold local_entry. now rewrite get_after_timestamp.
  - destruct read_fault as [e|].
    + cbn. destruct v; local_save_case.
    + cbn. rewrite Ef. cbn.
      destruct v; cbn; try local_save_case.
      destruct write_fault as [|e|e e']; cbn; rewrite ?Nat.eqb_refl;
        local_save_case.
      unfold local_entry. now rewrite get_after_timestamp.
  - destruct read_fault as [e'|]; cbn; [|rewrite Ef; cbn]; local_save_case.
Qed.
